(** * ETA invoice exporter: the optimized content script

    A shallow embedding of [src/content-optimized.js] (the class
    [ETAContentScriptOptimized]) and the properties of its page-acquisition
    and record-normalization pipeline.

    Conventions of the embedding.
    - A JavaScript string is the list of its UTF-16 code units ([jsstring]).
    - A JavaScript number that holds an amount or a size, or that is read
      from a text of the page ([parseFloat], [parseInt]), is a binary64 value
      ([spec_float], the Standard Library's specification of IEEE 754, with
      [prec = 53] and [emax = 1024]).  The counters of the loops (page
      numbers, indexes, serial numbers) and the stored totals are integers of
      [Z]: the program only adds and multiplies them, which binary64 does
      exactly below 2^53; the count read from the page is stored as the
      integer its binary64 value is.  A quotient ([Math.ceil(count / 50)],
      the percentage of a progress report) is held by its exact value, a
      rational ([Binary64.round] rounds a quotient or a product to binary64).
    - An exception is represented by its message, the only part of it the
      program reads ([error.message]).
    - An [async] method is embedded as the function from the outcomes the
      environment gives to its awaited operations to its settled value,
      together with the trace of the operations it starts and awaits. *)

From Stdlib Require Import String Ascii.
From Stdlib Require Import ZArith NArith QArith Qround Qpower Qabs List Bool Lia Lqa.
From Stdlib Require Import Sorting.Sorted.
From Stdlib Require Import Floats.SpecFloat.
From Stdlib Require DecimalPos.
Import ListNotations.
Open Scope Z_scope.

(** ** Strings *)

Module JsString.

Definition jsstring := list N.

(** The code units of an ASCII literal of the source. *)
Definition lit (s : string) : jsstring :=
  map N_of_ascii (list_ascii_of_string s).

Fixpoint eqb (a b : jsstring) : bool :=
  match a, b with
  | [], [] => true
  | x :: a', y :: b' => N.eqb x y && eqb a' b'
  | _, _ => false
  end.

(** [WhiteSpace] and [LineTerminator] of ECMAScript: what [trim], [\s] and the
    number parsers skip. *)
Definition isWhiteSpace (c : N) : bool :=
  (existsb (N.eqb c)
     [9; 10; 11; 12; 13; 32; 160; 5760; 8232; 8233; 8239; 8287; 12288; 65279]
   || ((8192 <=? c) && (c <=? 8202)))%N.

Definition isDigit (c : N) : bool := ((48 <=? c) && (c <=? 57))%N.

Fixpoint takeWhile (p : N -> bool) (s : jsstring) : jsstring :=
  match s with
  | c :: r => if p c then c :: takeWhile p r else []
  | [] => []
  end.

Fixpoint dropWhile (p : N -> bool) (s : jsstring) : jsstring :=
  match s with
  | c :: r => if p c then dropWhile p r else s
  | [] => []
  end.

Definition trimStart (s : jsstring) : jsstring := dropWhile isWhiteSpace s.

(** [String.prototype.trim] *)
Definition trim (s : jsstring) : jsstring :=
  rev (trimStart (rev (trimStart s))).

(** [s.substring(0, n)] for [0 <= n] *)
Definition substring0 (n : nat) (s : jsstring) : jsstring := firstn n s.

Fixpoint startsWith (p s : jsstring) : bool :=
  match p, s with
  | [], _ => true
  | x :: p', y :: s' => N.eqb x y && startsWith p' s'
  | _ :: _, [] => false
  end.

(** Upper-case ASCII letters folded to lower case: the canonicalization of the
    [i] flag on the letters of the patterns used here. *)
Definition foldCase (c : N) : N :=
  (if (65 <=? c) && (c <=? 90) then c + 32 else c)%N.

Definition startsWithIgnoreCase (p s : jsstring) : bool :=
  startsWith (map foldCase p) (map foldCase (firstn (length p) s)).

(** The number a sequence of decimal digits denotes. *)
Definition digitsValue (ds : jsstring) : N :=
  fold_left (fun acc c => 10 * acc + (c - 48))%N ds 0%N.

Fixpoint uintDigits (u : Decimal.uint) : jsstring :=
  match u with
  | Decimal.Nil => []
  | Decimal.D0 u' => 48%N :: uintDigits u'
  | Decimal.D1 u' => 49%N :: uintDigits u'
  | Decimal.D2 u' => 50%N :: uintDigits u'
  | Decimal.D3 u' => 51%N :: uintDigits u'
  | Decimal.D4 u' => 52%N :: uintDigits u'
  | Decimal.D5 u' => 53%N :: uintDigits u'
  | Decimal.D6 u' => 54%N :: uintDigits u'
  | Decimal.D7 u' => 55%N :: uintDigits u'
  | Decimal.D8 u' => 56%N :: uintDigits u'
  | Decimal.D9 u' => 57%N :: uintDigits u'
  end.

(** The decimal digits of a natural number, most significant first. *)
Definition decimal (n : N) : jsstring := uintDigits (N.to_uint n).

End JsString.
Import JsString.

(** ** Exceptions *)

Inductive result (A : Type) : Type :=
| Ok (a : A)
| Throw (message : jsstring).
Arguments Ok {A} a.
Arguments Throw {A} message.

Definition bind {A B : Type} (r : result A) (k : A -> result B) : result B :=
  match r with
  | Ok a => k a
  | Throw m => Throw m
  end.

Notation "x <- r ;; k" := (bind r (fun x => k))
  (at level 100, r at next level, right associativity).

(** [try { body } catch { handler }] *)
Definition tryCatch {A : Type} (body : result A) (handler : jsstring -> A) : A :=
  match body with
  | Ok a => a
  | Throw m => handler m
  end.

(** [xs.map((x, index) => f x index)], stopping at the first exception. *)
Fixpoint mapWithIndex {A B : Type} (f : A -> Z -> result B) (index : Z) (xs : list A)
  : result (list B) :=
  match xs with
  | [] => Ok []
  | x :: xs' =>
      y <- f x index ;;
      ys <- mapWithIndex f (index + 1) xs' ;;
      Ok (y :: ys)
  end.

(** The message of the engine's [TypeError]; its text is the engine's own. *)
Definition typeError : jsstring := lit "TypeError".

(** ** Values *)

(** The values a parsed JSON body holds, and [undefined] for what is absent.
    An object is the association list of its own properties; the first binding
    of a key is the one in effect. *)
Inductive jsval : Type :=
| VUndefined
| VNull
| VBool (b : bool)
| VNum (x : spec_float)
| VStr (s : jsstring)
| VArr (elements : list jsval)
| VObj (properties : list (jsstring * jsval)).

(** [ToBoolean] *)
Definition truthy (v : jsval) : bool :=
  match v with
  | VUndefined | VNull => false
  | VBool b => b
  | VNum (S754_zero _) | VNum S754_nan => false
  | VNum _ => true
  | VStr [] => false
  | VStr _ => true
  | VArr _ | VObj _ => true
  end.

(** [a || b] *)
Definition orElse (a b : jsval) : jsval := if truthy a then a else b.

Fixpoint lookup (properties : list (jsstring * jsval)) (key : jsstring) : jsval :=
  match properties with
  | [] => VUndefined
  | (k, v) :: rest => if JsString.eqb k key then v else lookup rest key
  end.

(** [v.key], for the keys the program reads: none of them is a property of the
    prototypes of strings, numbers, booleans or arrays, so only an object
    answers with a value, and [null] and [undefined] throw. *)
Definition get (v : jsval) (key : string) : result jsval :=
  match v with
  | VUndefined | VNull => Throw typeError
  | VObj properties => Ok (lookup properties (lit key))
  | _ => Ok VUndefined
  end.

(** Whether an object owns the property [key]. *)
Definition hasOwn (properties : list (jsstring * jsval)) (key : string) : bool :=
  existsb (fun property => JsString.eqb (fst property) (lit key)) properties.

(** Whether [ToString(v)] throws.  The text of an object is made by its
    [toString]: the one of [Object.prototype], which gives
    ["[object Object]"], unless the object owns a property of that name.  A
    value of a parsed body is never callable, so an own [toString] is passed
    over, [valueOf] (own, or the inherited one, which returns the object) gives
    no primitive either, and the conversion throws a [TypeError].  The text
    of an array joins the texts of its elements, so it throws when one of
    them does. *)
Fixpoint toStringThrows (v : jsval) : bool :=
  match v with
  | VObj properties => hasOwn properties "toString"
  | VArr elements => existsb toStringThrows elements
  | _ => false
  end.

(** ** Numbers *)

Module Number.

Definition prec : Z := 53.
Definition emax : Z := 1024.

(** The binary64 value nearest to [m * 10^x] (ties to even). *)
Definition ofDecimal (negative : bool) (m : N) (x : Z) : spec_float :=
  match m with
  | N0 => S754_zero negative
  | Npos p =>
      if 0 <=? x
      then binary_round prec emax negative (Z.to_pos (Zpos p * 10 ^ x)) 0
      else
        let '(q, e, l) := SFdiv_core_binary prec emax (Zpos p) 0 (10 ^ (- x)) 0 in
        binary_round_aux prec emax negative q e l
  end.

Definition ofZ (z : Z) : spec_float := binary_normalize prec emax z 0 false.

Definition readSign (s : jsstring) : bool * jsstring :=
  match s with
  | 43%N :: r => (false, r)
  | 45%N :: r => (true, r)
  | _ => (false, s)
  end.

(** The value of an [ExponentPart] that starts [r], 0 when there is none. *)
Definition exponentPart (r : jsstring) : Z :=
  match r with
  | c :: r' =>
      if (N.eqb c 101 || N.eqb c 69)%bool then
        let '(negative, r'') := readSign r' in
        match takeWhile isDigit r'' with
        | [] => 0
        | ds => if negative then - Z.of_N (digitsValue ds) else Z.of_N (digitsValue ds)
        end
      else 0
  | [] => 0
  end.

(** [parseFloat] of a string: leading white space is skipped and the longest
    prefix that is a [StrDecimalLiteral] is read; [NaN] when there is none. *)
Definition parseFloatString (s : jsstring) : spec_float :=
  let '(negative, s1) := readSign (trimStart s) in
  if startsWith (lit "Infinity") s1 then S754_infinity negative
  else
    let ip := takeWhile isDigit s1 in
    let r1 := dropWhile isDigit s1 in
    let '(fp, r2) :=
      match r1 with
      | 46%N :: r => (takeWhile isDigit r, dropWhile isDigit r)
      | _ => ([], r1)
      end in
    match ip ++ fp with
    | [] => S754_nan
    | ds => ofDecimal negative (digitsValue ds) (exponentPart r2 - Z.of_nat (length fp))
    end.

(** The number [parseFloat] reads from [ToString(v)], when the conversion
    does not throw.  [ToString] of a number reads back as the number itself
    ([-0] prints as ["0"]); an array prints its elements separated by commas,
    so only its first element is read; ["true"], ["null"], ["undefined"] and
    ["[object Object]"] start no number. *)
Fixpoint numberOfText (v : jsval) : spec_float :=
  match v with
  | VStr s => parseFloatString s
  | VNum (S754_zero _) => S754_zero false
  | VNum x => x
  | VArr (first :: _) => numberOfText first
  | _ => S754_nan
  end.

(** [parseFloat(v)]: [ToString(v)], which may throw, and then the number at
    the head of the text. *)
Definition parseFloat (v : jsval) : result spec_float :=
  if toStringThrows v then Throw typeError else Ok (numberOfText v).

Definition minus (negative : bool) : jsstring :=
  if negative then [45%N] else [].

(** Digits reversed, a comma after every three that are followed by more. *)
Fixpoint groupReversed (r : jsstring) : jsstring :=
  match r with
  | a :: b :: c :: ((_ :: _) as rest) => a :: b :: c :: 44%N :: groupReversed rest
  | _ => r
  end.

Definition groupThousands (ds : jsstring) : jsstring := rev (groupReversed (rev ds)).

(** The hundredths of [m * 2^e], rounded to the nearest, ties away from zero:
    the rounding ECMA-402 specifies, on the exact value of the number. *)
Definition hundredths (m : positive) (e : Z) : Z :=
  if 0 <=? e then Zpos m * 2 ^ e * 100
  else (200 * Zpos m + 2 ^ (- e)) / 2 ^ (1 - e).

Definition twoDigits (n : Z) : jsstring :=
  [Z.to_N (48 + n / 10); Z.to_N (48 + n mod 10)].

(** [x.toLocaleString('en-US', { minimumFractionDigits: 2, maximumFractionDigits: 2 })] *)
Definition toLocaleStringFixed2 (x : spec_float) : jsstring :=
  match x with
  | S754_nan => lit "NaN"
  | S754_infinity s => minus s ++ [8734%N]
  | S754_zero s => minus s ++ lit "0.00"
  | S754_finite s m e =>
      let h := hundredths m e in
      minus s ++ groupThousands (decimal (Z.to_N (h / 100))) ++ [46%N] ++ twoDigits (h mod 100)
  end.


(** [isNaN(x)] *)
Definition isNaN (x : spec_float) : bool :=
  match x with
  | S754_nan => true
  | _ => false
  end.

(** The integer a number is, when it is finite and an integer. *)
Definition toInteger (x : spec_float) : option Z :=
  match x with
  | S754_zero _ => Some 0
  | S754_finite s m e =>
      if 0 <=? e then Some ((if s then -1 else 1) * (Zpos m * 2 ^ e))
      else if Zpos m mod 2 ^ (- e) =? 0
           then Some ((if s then -1 else 1) * (Zpos m / 2 ^ (- e)))
           else None
  | _ => None
  end.

End Number.

(** [formatAmount(amount)] *)
Definition formatAmount (amount : jsval) : result jsstring :=
  if negb (truthy amount) then Ok []
  else
    x <- Number.parseFloat amount ;;
    Ok (Number.toLocaleStringFixed2 x).

(** ** Invoice records *)

(** The object both normalizers build.  [pageNumber] is [None] while the
    property is not set (the visible-page scan never sets it); the text fields
    hold [undefined] when the builder does not write them.  Left out are the
    [index] a row record also carries (its first [serialNumber]) and the
    other fields of an API record ([documentType], [documentVersion],
    [status], the two dates, the names and tax numbers of seller and buyer,
    [invoiceCurrency], [taxDiscount], [electronicSignature]): nothing below
    depends on their values.  Their expressions read properties of the item
    after [item.uuid] has been read, and call [formatDate], which catches
    what its conversion throws, and [parseStatus], which can throw and is
    evaluated for that in [normalizeApiItem]. *)
Record InvoiceRecord : Type := {
  serialNumber : Z;
  pageNumber : option Z;
  electronicNumber : jsval;
  internalNumber : jsval;
  totalAmount : jsval;
  invoiceValue : jsval;
  vatAmount : jsval;
  externalLink : jsval
}.

(** [isValidInvoiceData(invoice)] *)
Definition isValidInvoiceData (invoice : InvoiceRecord) : bool :=
  truthy (orElse (orElse (electronicNumber invoice) (internalNumber invoice))
                 (totalAmount invoice)).

(** ** Translating a status *)

(** The own properties of [statusMap]; the labels are Arabic words, given by
    their code units. *)
Definition statusMap : list (jsstring * jsstring) :=
  [ (lit "Valid", [1589; 1575; 1604; 1581]%N);
    (lit "Invalid", [1594; 1610; 1585; 32; 1589; 1575; 1604; 1581]%N);
    (lit "Cancelled", [1605; 1604; 1594; 1610]%N);
    (lit "Submitted", [1605; 1602; 1583; 1605]%N);
    (lit "Rejected", [1605; 1585; 1601; 1608; 1590]%N) ].

(** The properties [statusMap] inherits from [Object.prototype]: functions,
    and the prototype itself under [__proto__], all of them truthy. *)
Definition objectPrototypeNames : list jsstring :=
  [ lit "constructor"; lit "hasOwnProperty"; lit "isPrototypeOf";
    lit "propertyIsEnumerable"; lit "toLocaleString"; lit "toString"; lit "valueOf";
    lit "__proto__"; lit "__defineGetter__"; lit "__defineSetter__";
    lit "__lookupGetter__"; lit "__lookupSetter__" ].

Fixpoint labelOf (labels : list (jsstring * jsstring)) (key : jsstring) : option jsstring :=
  match labels with
  | [] => None
  | (name, label) :: rest => if JsString.eqb name key then Some label else labelOf rest key
  end.

(** The key [statusMap[status]] reads, when it can name a property.  The
    text of [undefined], of [null], of a boolean, of a number and of an
    object names none; the text of an array is the texts of its elements
    ([null] and [undefined] give the empty text) with commas between them, so
    it names none when the array is empty or holds two elements or more. *)
Fixpoint statusKey (status : jsval) : option jsstring :=
  match status with
  | VStr text => Some text
  | VArr [element] =>
      match element with
      | VUndefined | VNull => None
      | _ => statusKey element
      end
  | _ => None
  end.

(** What [parseStatus] returns: a value of the response or a label, or a
    member of [Object.prototype]. *)
Inductive Status : Type :=
| StatusValue (value : jsval)
| StatusMember (name : jsstring).

(** [parseStatus(status)]: [statusMap[status] || status || ''].  The lookup
    converts the status to its key first, which throws when [ToString]
    does. *)
Definition parseStatus (status : jsval) : result Status :=
  if toStringThrows status then Throw typeError
  else
    match statusKey status with
    | Some key =>
        match labelOf statusMap key with
        | Some label => Ok (StatusValue (orElse (VStr label) (orElse status (VStr []))))
        | None =>
            if existsb (JsString.eqb key) objectPrototypeNames
            then Ok (StatusMember key)
            else Ok (StatusValue (orElse status (VStr [])))
        end
    | None => Ok (StatusValue (orElse status (VStr [])))
    end.

(** ** Normalizing an item of the API *)

Definition externalLinkBase : jsstring :=
  lit "https://invoicing.eta.gov.eg/documents/".

(** [generateExternalLink(item)]; [substring] is a method of strings only. *)
Definition generateExternalLink (item : jsval) : result jsval :=
  uuid <- get item "uuid" ;;
  if negb (truthy uuid) then Ok (VStr [])
  else
    match uuid with
    | VStr u =>
        Ok (VStr (externalLinkBase ++ u ++ lit "/share/" ++ substring0 26 u))
    | _ => Throw typeError
    end.

(** The callback of [invoices.map] in [parseAPIResponse]: the properties of
    the record in the order of the object literal, those that can throw and
    those the record keeps. *)
Definition normalizeApiItem (resultsPerPage pageNumber : Z) (item : jsval) (index : Z)
  : result InvoiceRecord :=
  uuid <- get item "uuid" ;;
  id <- get item "id" ;;
  internalId <- get item "internalId" ;;
  status <- get item "status" ;;
  _ <- parseStatus status ;;
  total <- get item "totalAmount" ;;
  totalText <- formatAmount total ;;
  sales <- get item "totalSalesAmount" ;;
  salesText <- formatAmount sales ;;
  fees <- get item "totalTaxableFees" ;;
  feesText <- formatAmount fees ;;
  link <- generateExternalLink item ;;
  Ok {| serialNumber := ((pageNumber - 1) * resultsPerPage) + index + 1;
        pageNumber := Some pageNumber;
        electronicNumber := orElse uuid (orElse id (VStr []));
        internalNumber := orElse internalId (VStr []);
        totalAmount := VStr totalText;
        invoiceValue := VStr salesText;
        vatAmount := VStr feesText;
        externalLink := link |}.

(** [data.items || data.documents || data.data || []] *)
Definition invoicesOf (data : jsval) : result jsval :=
  items <- get data "items" ;;
  documents <- get data "documents" ;;
  inner <- get data "data" ;;
  Ok (orElse items (orElse documents (orElse inner (VArr [])))).

(** [parseAPIResponse(data, pageNumber)]; [map] is a method of arrays only. *)
Definition parseAPIResponse (resultsPerPage : Z) (data : jsval) (pageNumber : Z)
  : result (list InvoiceRecord) :=
  invoices <- invoicesOf data ;;
  match invoices with
  | VArr items => mapWithIndex (normalizeApiItem resultsPerPage pageNumber) 0 items
  | _ => Throw typeError
  end.

(** ** The rendered page *)

(** A cell of a row: an element carrying [data-automation-key], with the
    [textContent] of its first [a] descendant and of its first
    [.griCellTitleGray] descendant, when it has one. *)
Record Cell : Type := {
  automationKey : jsstring;
  anchorText : option jsstring;
  grayText : option jsstring
}.

(** A row element: the size of its bounding rectangle, the [textContent] of
    the first element matching
    [.internalId-link a, [data-automation-key="uuid"] a], and its cells in
    document order. *)
Record Row : Type := {
  rectWidth : spec_float;
  rectHeight : spec_float;
  idLinkText : option jsstring;
  cells : list Cell
}.

(** A document, by the answers it gives to the queries of the program: the
    rows [querySelectorAll] finds for [.ms-DetailsRow[role="row"]]
    ([detailsRows]), for [.ms-List-cell[role="gridcell"]] ([listCells]), for
    [[data-list-index]] ([indexedRows]) and for the first two selectors
    together ([gridRows]), each in document order; the [textContent] of every
    element in document order; and the [textContent] of the element
    [[aria-current="page"], .ms-Button--primary[aria-pressed="true"]] finds,
    when there is one. *)
Record Document : Type := {
  detailsRows : list Row;
  listCells : list Row;
  indexedRows : list Row;
  gridRows : list Row;
  elementTexts : list jsstring;
  activeButtonText : option jsstring
}.

(** [text?.trim() || ''] on the [textContent] of an element. *)
Definition trimOrEmpty (text : jsstring) : jsval := VStr (trim text).

(** One turn of the [cells.forEach] of [extractUsingDataAttributes]. *)
Definition extractCell (invoice : InvoiceRecord) (cell : Cell) : InvoiceRecord :=
  if JsString.eqb (automationKey cell) (lit "uuid") then
    match anchorText cell with
    | Some text =>
        {| serialNumber := serialNumber invoice;
           pageNumber := pageNumber invoice;
           electronicNumber := trimOrEmpty text;
           internalNumber := internalNumber invoice;
           totalAmount := totalAmount invoice;
           invoiceValue := invoiceValue invoice;
           vatAmount := vatAmount invoice;
           externalLink := externalLink invoice |}
    | None => invoice
    end
  else if JsString.eqb (automationKey cell) (lit "total") then
    match grayText cell with
    | Some text =>
        {| serialNumber := serialNumber invoice;
           pageNumber := pageNumber invoice;
           electronicNumber := electronicNumber invoice;
           internalNumber := internalNumber invoice;
           totalAmount := trimOrEmpty text;
           invoiceValue := invoiceValue invoice;
           vatAmount := vatAmount invoice;
           externalLink := externalLink invoice |}
    | None => invoice
    end
  else invoice.

(** [extractUsingDataAttributes(row, invoice)] *)
Definition extractUsingDataAttributes (row : Row) (invoice : InvoiceRecord)
  : InvoiceRecord :=
  fold_left extractCell (cells row) invoice.

(** [extractDataFromRow(row, index)] *)
Definition extractDataFromRow (row : Row) (index : Z) : InvoiceRecord :=
  extractUsingDataAttributes row
    {| serialNumber := index;
       pageNumber := None;
       electronicNumber := VStr [];
       internalNumber := VStr [];
       totalAmount := VStr [];
       invoiceValue := VUndefined;
       vatAmount := VUndefined;
       externalLink := VUndefined |}.

Definition setPage (invoice : InvoiceRecord) (page serial : Z) : InvoiceRecord :=
  {| serialNumber := serial;
     pageNumber := Some page;
     electronicNumber := electronicNumber invoice;
     internalNumber := internalNumber invoice;
     totalAmount := totalAmount invoice;
     invoiceValue := invoiceValue invoice;
     vatAmount := vatAmount invoice;
     externalLink := externalLink invoice |}.

(** The [rows.forEach] of [extractDataFromDocument], from row [index] on. *)
Fixpoint extractRowsFrom (resultsPerPage pageNumber : Z) (index : Z) (rows : list Row)
  : list InvoiceRecord :=
  match rows with
  | [] => []
  | row :: rest =>
      let invoice := extractDataFromRow row (index + 1) in
      if isValidInvoiceData invoice
      then setPage invoice pageNumber (((pageNumber - 1) * resultsPerPage) + index + 1)
             :: extractRowsFrom resultsPerPage pageNumber (index + 1) rest
      else extractRowsFrom resultsPerPage pageNumber (index + 1) rest
  end.

(** [extractDataFromDocument(doc, pageNumber)] *)
Definition extractDataFromDocument (resultsPerPage : Z) (doc : Document) (pageNumber : Z)
  : list InvoiceRecord :=
  extractRowsFrom resultsPerPage pageNumber 0 (gridRows doc).

(** ** Rounding to binary64 *)

Module Binary64.

(** The [e] with [2^e <= x < 2^(e+1)], for [0 < x]. *)
Definition exponentOf (x : Q) : Z :=
  let e0 := Z.log2 (Qnum x) - Z.log2 (Zpos (Qden x)) in
  if Qle_bool (2 ^ e0) x then e0 else e0 - 1.

(** The integer nearest to [y], the even one of two that are as near. *)
Definition roundHalfEven (y : Q) : Z :=
  let f := Qfloor y in
  match Qcompare (y - inject_Z f) (1 # 2) with
  | Lt => f
  | Gt => f + 1
  | Eq => if Z.even f then f else f + 1
  end.

(** [x] rounded to 53 significant bits, for [0 < x]. *)
Definition roundPositive (x : Q) : Q :=
  let e := exponentOf x in
  (inject_Z (roundHalfEven (x * 2 ^ (52 - e))) * 2 ^ (e - 52))%Q.

(** The binary64 value nearest to [x] (ties to even), for [x] in the range of
    the normal numbers; the quotients and products formed below lie between
    2^-53 and 2^1019. *)
Definition round (x : Q) : Q :=
  match Qnum x with
  | Z0 => 0%Q
  | Zpos _ => roundPositive x
  | Zneg _ => (- roundPositive (- x))%Q
  end.

(** The value of a finite binary64 number. *)
Definition valueOf (x : spec_float) : Q :=
  match x with
  | S754_finite s m e => ((if s then -1 else 1) * inject_Z (Zpos m) * 2 ^ e)%Q
  | _ => 0%Q
  end.

End Binary64.

(** ** The content script *)

(** The argument of the progress callback.  Its [message], a text built from
    the same two counts, is left out. *)
Record Progress : Type := {
  progressCurrentPage : Z;
  progressTotalPages : Z;
  percentage : Q
}.

(** The fields of [this].  [authHeaders] is the bearer token of the header
    bag; the progress callback may throw.  [totalCount] and [totalPages],
    which bound the loops of a run, are integers; [currentPage], which is only
    stored and reported, is the number as it was read. *)
Record ContentScript : Type := {
  invoiceData : list InvoiceRecord;
  allPagesData : list InvoiceRecord;
  totalCount : Z;
  currentPage : spec_float;
  totalPages : Z;
  resultsPerPage : Z;
  isProcessingAllPages : bool;
  progressCallback : option (Progress -> result unit);
  apiEndpoint : option jsstring;
  authHeaders : option jsstring
}.

(** The fields as the constructor leaves them. *)
Definition constructed : ContentScript :=
  {| invoiceData := [];
     allPagesData := [];
     totalCount := 0;
     currentPage := Number.ofZ 1;
     totalPages := 1;
     resultsPerPage := 50;
     isProcessingAllPages := false;
     progressCallback := None;
     apiEndpoint := None;
     authHeaders := None |}.

(** ** Pagination *)

Module Pagination.

(** The least integer that is not below [a / b], for [0 < b]. *)
Definition ceilDiv (a b : Z) : Z := - ((- a) / b).

(** [Math.ceil(count / 50)]: the quotient is rounded to binary64, and the
    least integer not below it is taken. *)
Definition pagesFor (count : Z) : Z :=
  Qceiling (Binary64.round (inject_Z count / 50)).

(** A match of [/Results:\s*(\d+)/i] that starts at the head of [s]: the
    digits it captures. *)
Definition matchResultsAt (s : jsstring) : option jsstring :=
  if startsWithIgnoreCase (lit "Results:") s then
    match takeWhile isDigit (dropWhile isWhiteSpace (skipn 8 s)) with
    | [] => None
    | ds => Some ds
    end
  else None.

(** [text.match(/Results:\s*(\d+)/i)]: the capture of the leftmost match. *)
Fixpoint matchResults (text : jsstring) : option jsstring :=
  match matchResultsAt text with
  | Some ds => Some ds
  | None =>
      match text with
      | [] => None
      | _ :: rest => matchResults rest
      end
  end.

Definition isHexDigit (c : N) : bool :=
  (isDigit c || ((97 <=? c) && (c <=? 102)) || ((65 <=? c) && (c <=? 70)))%N.

Definition hexDigitValue (c : N) : N :=
  (if isDigit c then c - 48 else if 97 <=? c then c - 87 else c - 55)%N.

Definition hexValue (ds : jsstring) : N :=
  fold_left (fun acc c => 16 * acc + hexDigitValue c)%N ds 0%N.

(** [parseInt(s)] with no radix: the binary64 number nearest to the integer
    the digits denote (ties to even), so [Infinity] when it is too large,
    [-0] for ["-0"], and [NaN] when no digit is read.  For more than 20
    decimal digits an engine may take the digits after the 20th for zeros;
    V8 does not, and neither does this definition. *)
Definition parseInt (s : jsstring) : spec_float :=
  let '(negative, r) := Number.readSign (trimStart s) in
  if startsWithIgnoreCase (lit "0x") r then
    match takeWhile isHexDigit (skipn 2 r) with
    | [] => S754_nan
    | ds => Number.ofDecimal negative (hexValue ds) 0
    end
  else
    match takeWhile isDigit r with
    | [] => S754_nan
    | ds => Number.ofDecimal negative (digitsValue ds) 0
    end.

(** The [for] loop of [extractTotalCount] over the texts of the elements. *)
Fixpoint firstResults (texts : list jsstring) : option jsstring :=
  match texts with
  | [] => None
  | text :: rest =>
      match matchResults text with
      | Some ds => Some ds
      | None => firstResults rest
      end
  end.

(** [extractTotalCount()]: [parseInt] of the capture, or 0. *)
Definition extractTotalCount (doc : Document) : spec_float :=
  match firstResults (elementTexts doc) with
  | Some ds => parseInt ds
  | None => Number.ofZ 0
  end.

(** [extractCurrentPage()] *)
Definition extractCurrentPage (doc : Document) : spec_float :=
  match activeButtonText doc with
  | Some text =>
      let pageNum := parseInt (trim text) in
      if negb (Number.isNaN pageNum) then pageNum else Number.ofZ 1
  | None => Number.ofZ 1
  end.

End Pagination.

(** [extractPaginationInfo()].  The count read from the page is an integer
    or, for some texts of 309 digits and all longer ones, [Infinity].  The
    fields [totalCount] and [totalPages] hold integers, so the content script
    after the inspection is given when the count is finite; [None] stands for
    the script whose two totals are [Infinity], which is not followed
    further. *)
Definition extractPaginationInfo (this : ContentScript) (doc : Document)
  : option ContentScript :=
  match Number.toInteger (Pagination.extractTotalCount doc) with
  | Some count =>
      Some {| invoiceData := invoiceData this;
              allPagesData := allPagesData this;
              totalCount := count;
              currentPage := Pagination.extractCurrentPage doc;
              totalPages := Pagination.pagesFor count;
              resultsPerPage := 50;
              isProcessingAllPages := isProcessingAllPages this;
              progressCallback := progressCallback this;
              apiEndpoint := apiEndpoint this;
              authHeaders := authHeaders this |}
  | None => None
  end.

(** ** The scan of the visible page *)

Definition positive64 (x : spec_float) : bool := SFltb (S754_zero false) x.

(** [isRowVisible(row)] *)
Definition isRowVisible (row : Row) : bool :=
  positive64 (rectWidth row) && positive64 (rectHeight row).

(** [hasInvoiceData(row)] *)
Definition hasInvoiceData (row : Row) : bool :=
  match idLinkText row with
  | Some text => truthy (VStr (trim text))
  | None => false
  end.

Definition visibleOf (rows : list Row) : list Row :=
  filter (fun row => isRowVisible row && hasInvoiceData row) rows.

(** [getVisibleInvoiceRows()]: the first of the three selectors that yields a
    visible row with invoice data. *)
Definition getVisibleInvoiceRows (doc : Document) : list Row :=
  match visibleOf (detailsRows doc) with
  | (_ :: _) as rows => rows
  | [] =>
      match visibleOf (listCells doc) with
      | (_ :: _) as rows => rows
      | [] => visibleOf (indexedRows doc)
      end
  end.

(** The [rows.forEach] of [scanForInvoices], from row [index] on. *)
Fixpoint scanRowsFrom (index : Z) (rows : list Row) : list InvoiceRecord :=
  match rows with
  | [] => []
  | row :: rest =>
      let invoice := extractDataFromRow row (index + 1) in
      if isValidInvoiceData invoice
      then invoice :: scanRowsFrom (index + 1) rest
      else scanRowsFrom (index + 1) rest
  end.

(** [scanForInvoices()]; [None] as for [extractPaginationInfo]. *)
Definition scanForInvoices (this : ContentScript) (doc : Document)
  : option ContentScript :=
  match extractPaginationInfo this doc with
  | Some this1 =>
      Some {| invoiceData := scanRowsFrom 0 (getVisibleInvoiceRows doc);
              allPagesData := allPagesData this1;
              totalCount := totalCount this1;
              currentPage := currentPage this1;
              totalPages := totalPages this1;
              resultsPerPage := resultsPerPage this1;
              isProcessingAllPages := isProcessingAllPages this1;
              progressCallback := progressCallback this1;
              apiEndpoint := apiEndpoint this1;
              authHeaders := authHeaders this1 |}
  | None => None
  end.

(** ** The environment of a run *)

(** How [fetch(url)] ends: it rejects, or it gives a response with a status
    and the value [response.json()] settles with. *)
Inductive FetchOutcome : Type :=
| FetchRejected (message : jsstring)
| FetchResponse (status : Z) (json : result jsval).

(** [response.ok] *)
Definition responseOk (status : Z) : bool := (200 <=? status) && (status <=? 299).

(** The url of a page of the grid: the current location with its [page]
    parameter set to the page, represented by that page. *)
Definition Url : Type := Z.

(** What the browser delivers to an invisible frame: its [load] event, with
    what reading the frame's document gives (it throws for a document of
    another origin), its [error] event, or the expiry of the timer. *)
Inductive FrameEvent : Type :=
| Load (document : result Document)
| LoadError
| TimerFired.

(** The outcomes the environment gives: to each request by its url, and to
    each frame, by the url it loads, the first event it is delivered.
    [document.body] is present throughout. *)
Record Environment : Type := {
  fetch : jsstring -> FetchOutcome;
  frameEvent : Url -> FrameEvent
}.

(** ** Fetching a page from the API *)

Definition decimalZ (z : Z) : jsstring :=
  if z <? 0 then 45%N :: decimal (Z.to_N (- z)) else decimal (Z.to_N z).

(** [buildAPIUrl(pageNumber)] *)
Definition buildAPIUrl (this : ContentScript) (pageNumber : Z) : result jsstring :=
  match apiEndpoint this with
  | None => Throw typeError
  | Some endpoint =>
      let baseUrl := takeWhile (fun c => negb (N.eqb c 63)) endpoint in
      Ok (baseUrl ++ lit "?page=" ++ decimalZ pageNumber
            ++ lit "&pageSize=" ++ decimalZ (resultsPerPage this)
            ++ lit "&sortBy=dateTimeReceived&sortOrder=desc")
  end.

(** The [try] block of [fetchPageDataViaAPI]. *)
Definition fetchPageBody (this : ContentScript) (env : Environment) (pageNumber : Z)
  : result (list InvoiceRecord) :=
  url <- buildAPIUrl this pageNumber ;;
  match fetch env url with
  | FetchRejected message => Throw message
  | FetchResponse status json =>
      if negb (responseOk status)
      then Throw (lit "API request failed: " ++ decimalZ status)
      else
        data <- json ;;
        parseAPIResponse (resultsPerPage this) data pageNumber
  end.

(** [fetchPageDataViaAPI(pageNumber)]: what its promise settles with. *)
Definition fetchPageDataViaAPI (this : ContentScript) (env : Environment) (pageNumber : Z)
  : result (list InvoiceRecord) :=
  match fetchPageBody this env pageNumber with
  | Ok records => Ok records
  | Throw _ => Ok []
  end.

(** ** Loading a page in an invisible frame *)

Module Frame.

(** The frame of one [loadPageInIframe] call: whether it is a child of
    [document.body], the delay of its timer while the timer is armed, the value
    its promise is resolved with, the number of times it was removed, and the
    number of handlers that ended with an exception. *)
Record FrameState : Type := {
  attached : bool;
  timer : option Z;
  settled : option (list InvoiceRecord);
  teardowns : nat;
  uncaught : nat
}.

(** A handler: it changes the frame and ends normally or with an exception. *)
Definition Handler (A : Type) : Type := FrameState -> result A * FrameState.

Definition andThen {A B : Type} (h : Handler A) (k : A -> Handler B) : Handler B :=
  fun s =>
    match h s with
    | (Ok a, s') => k a s'
    | (Throw m, s') => (Throw m, s')
    end.

Definition tryCatchH {A : Type} (body : Handler A) (handler : jsstring -> Handler A)
  : Handler A :=
  fun s =>
    match body s with
    | (Ok a, s') => (Ok a, s')
    | (Throw m, s') => handler m s'
    end.

Definition liftResult {A : Type} (r : result A) : Handler A := fun s => (r, s).

Definition notFoundError : jsstring := lit "NotFoundError".

(** [document.body.removeChild(iframe)] *)
Definition removeChild : Handler unit :=
  fun s =>
    if attached s
    then (Ok tt, {| attached := false; timer := timer s; settled := settled s;
                    teardowns := S (teardowns s); uncaught := uncaught s |})
    else (Throw notFoundError, s).

(** [clearTimeout(timeout)] *)
Definition clearTimeout : Handler unit :=
  fun s =>
    (Ok tt, {| attached := attached s; timer := None; settled := settled s;
               teardowns := teardowns s; uncaught := uncaught s |}).

(** [resolve(data)]: a promise keeps the first value it is resolved with. *)
Definition resolve (data : list InvoiceRecord) : Handler unit :=
  fun s =>
    (Ok tt,
     match settled s with
     | Some _ => s
     | None => {| attached := attached s; timer := timer s; settled := Some data;
                  teardowns := teardowns s; uncaught := uncaught s |}
     end).

(** The callback of [setTimeout] *)
Definition onTimeout : Handler unit :=
  andThen removeChild (fun _ => resolve []).

(** [iframe.onload] *)
Definition onload (resultsPerPage : Z) (pageNumber : Z) (document : result Document)
  : Handler unit :=
  tryCatchH
    (andThen (liftResult document) (fun iframeDoc =>
     let data := extractDataFromDocument resultsPerPage iframeDoc pageNumber in
     andThen clearTimeout (fun _ =>
     andThen removeChild (fun _ =>
     resolve data))))
    (fun _ =>
     andThen clearTimeout (fun _ =>
     andThen removeChild (fun _ =>
     resolve []))).

(** [iframe.onerror] *)
Definition onerror : Handler unit :=
  andThen clearTimeout (fun _ =>
  andThen removeChild (fun _ =>
  resolve [])).

Definition timeoutMs : Z := 10000.

(** The frame when the executor of the promise returns: the timer is armed
    and the frame has been appended. *)
Definition initial : FrameState :=
  {| attached := true; timer := Some timeoutMs; settled := None;
     teardowns := 0; uncaught := 0 |}.

(** The timer expires once: the browser disarms it before it calls back. *)
Definition expire (s : FrameState) : FrameState :=
  {| attached := attached s; timer := None; settled := settled s;
     teardowns := teardowns s; uncaught := uncaught s |}.

Definition finish (r : result unit * FrameState) : FrameState :=
  match r with
  | (Ok _, s) => s
  | (Throw _, s) =>
      {| attached := attached s; timer := timer s; settled := settled s;
         teardowns := teardowns s; uncaught := S (uncaught s) |}
  end.

(** The handler of an event runs to its end. *)
Definition dispatch (resultsPerPage pageNumber : Z) (s : FrameState) (ev : FrameEvent)
  : FrameState :=
  match ev with
  | Load document => finish (onload resultsPerPage pageNumber document s)
  | LoadError => finish (onerror s)
  | TimerFired => finish (onTimeout (expire s))
  end.

(** The browser calls a timer back only while it is armed. *)
Definition deliverable (s : FrameState) (ev : FrameEvent) : bool :=
  match ev with
  | TimerFired => match timer s with Some _ => true | None => false end
  | _ => true
  end.

(** The frame after a sequence of events, [None] when the browser cannot
    deliver the sequence. *)
Fixpoint run (resultsPerPage pageNumber : Z) (s : FrameState) (evs : list FrameEvent)
  : option FrameState :=
  match evs with
  | [] => Some s
  | ev :: rest =>
      if deliverable s ev
      then run resultsPerPage pageNumber (dispatch resultsPerPage pageNumber s ev) rest
      else None
  end.

End Frame.

(** [loadPageInIframe(url, pageNumber)]: the value its promise is resolved
    with by the first event the frame is delivered.  Every event resolves it,
    so the second branch is never taken. *)
Definition loadPageInIframe (this : ContentScript) (env : Environment)
  (url : Url) (pageNumber : Z) : list InvoiceRecord :=
  match Frame.settled
          (Frame.dispatch (resultsPerPage this) pageNumber Frame.initial (frameEvent env url))
  with
  | Some data => data
  | None => []
  end.

(** ** Acquiring all pages *)

Record AcquisitionResult : Type := {
  success : bool;
  data : list InvoiceRecord;
  totalProcessed : option Z;
  expectedTotal : option Z;
  error : option jsstring
}.

(** What a run does, in order: it starts the load of a page (the request is
    sent, or the frame is attached, when the call is made), it resumes from
    an [await] on the promises of some pages, it calls the progress callback. *)
Inductive Event : Type :=
| Started (page : Z)
| Awaited (pages : list Z)
| Reported (progress : Progress).

(** [Promise.all]: the values in the order of the promises; it rejects when
    one of them does. *)
Fixpoint promiseAll {A : Type} (promises : list (result A)) : result (list A) :=
  match promises with
  | [] => Ok []
  | p :: rest =>
      a <- p ;;
      others <- promiseAll rest ;;
      Ok (a :: others)
  end.

Definition apiBatchSize : Z := 10.

(** The inner [for] of [getAllPagesViaAPI]: the pages of the batch that
    starts at [page], from offset [i] on. *)
Fixpoint apiBatch (fuel : nat) (page i totalPages : Z) : list Z :=
  match fuel with
  | O => []
  | S fuel' =>
      if (i <? apiBatchSize) && (page + i <=? totalPages)
      then (page + i) :: apiBatch fuel' page (i + 1) totalPages
      else []
  end.

(** The outer [for] of [getAllPagesViaAPI]: the batches from [page] on. *)
Fixpoint apiBatches (fuel : nat) (page totalPages : Z) : list (list Z) :=
  match fuel with
  | O => []
  | S fuel' =>
      if page <=? totalPages
      then apiBatch (Z.to_nat apiBatchSize) page 0 totalPages
             :: apiBatches fuel' (page + apiBatchSize) totalPages
      else []
  end.

(** The batches of pages [getAllPagesViaAPI] builds.  The outer loop adds 10
    to [page] at each turn, so [totalPages] turns exhaust it. *)
Definition apiPageBatches (this : ContentScript) : list (list Z) :=
  apiBatches (Z.to_nat (totalPages this)) 1 (totalPages this).

(** [getAllPagesViaAPI(options)].  Both loops run without an [await]: each
    [fetchPageDataViaAPI(currentPage)] sends its request when it is called,
    and the only [await] is the one on [Promise.all(pagePromises)]. *)
Definition getAllPagesViaAPI (this : ContentScript) (env : Environment)
  : result AcquisitionResult * list Event :=
  let batches := apiPageBatches this in
  let pagePromises :=
    map (fun batch => promiseAll (map (fetchPageDataViaAPI this env) batch)) batches in
  let events := map Started (concat batches) ++ [Awaited (concat batches)] in
  (results <- promiseAll pagePromises ;;
   let allData := concat (concat results) in
   Ok {| success := true;
         data := allData;
         totalProcessed := Some (Z.of_nat (length allData));
         expectedTotal := Some (totalCount this);
         error := None |},
   events).

(** The [for] of [generateAllPageUrls], from [page] on. *)
Fixpoint pageUrlsFrom (fuel : nat) (page totalPages : Z) : list Url :=
  match fuel with
  | O => []
  | S fuel' =>
      if page <=? totalPages
      then page :: pageUrlsFrom fuel' (page + 1) totalPages
      else []
  end.

(** [generateAllPageUrls()] *)
Definition generateAllPageUrls (this : ContentScript) : list Url :=
  pageUrlsFrom (Z.to_nat (totalPages this)) 1 (totalPages this).

Definition domBatchSize : nat := 5.

(** [(completed / total) * 100]: the quotient is rounded, and then the
    product. *)
Definition percentageOf (completed total : Z) : Q :=
  Binary64.round (Binary64.round (inject_Z completed / inject_Z total) * 100)%Q.

(** The local state of [loadPagesInParallel]: the records gathered in
    [results], and what the run has done so far. *)
Record LoopState : Type := {
  results : list InvoiceRecord;
  events : list Event
}.

(** [batch.map((url, index) => f url index)] *)
Fixpoint mapIndexed {A B : Type} (f : A -> nat -> B) (index : nat) (xs : list A) : list B :=
  match xs with
  | [] => []
  | x :: rest => f x index :: mapIndexed f (S index) rest
  end.

(** The [for] of [loadPagesInParallel], from offset [i] on.  It ends with an
    exception when the progress callback throws. *)
Fixpoint loadPagesLoop (fuel : nat) (this : ContentScript) (env : Environment)
  (urls : list Url) (i : nat) (st : LoopState) : result unit * LoopState :=
  match fuel with
  | O => (Ok tt, st)
  | S fuel' =>
      if (i <? length urls)%nat then
        let batch := firstn domBatchSize (skipn i urls) in
        let pages := mapIndexed (fun _ index => Z.of_nat (i + index + 1)) 0 batch in
        let batchResults :=
          mapIndexed (fun url index =>
                        loadPageInIframe this env url (Z.of_nat (i + index + 1))) 0 batch in
        let st1 :=
          {| results := results st ++ concat batchResults;
             events := events st ++ map Started pages ++ [Awaited pages] |} in
        match progressCallback this with
        | Some callback =>
            let completed := Z.min (Z.of_nat (i + domBatchSize)) (Z.of_nat (length urls)) in
            let progress :=
              {| progressCurrentPage := completed;
                 progressTotalPages := Z.of_nat (length urls);
                 percentage := percentageOf completed (Z.of_nat (length urls)) |} in
            let st2 :=
              {| results := results st1;
                 events := events st1 ++ [Reported progress] |} in
            match callback progress with
            | Ok _ => loadPagesLoop fuel' this env urls (i + domBatchSize) st2
            | Throw message => (Throw message, st2)
            end
        | None => loadPagesLoop fuel' this env urls (i + domBatchSize) st1
        end
      else (Ok tt, st)
  end.

(** The loop of [loadPagesInParallel] from its start.  Each turn adds 5 to
    [i], so [urls.length] turns exhaust it. *)
Definition loadPagesRun (this : ContentScript) (env : Environment) (urls : list Url)
  : result unit * LoopState :=
  loadPagesLoop (length urls) this env urls 0 {| results := []; events := [] |}.

(** [loadPagesInParallel(urls, options)] *)
Definition loadPagesInParallel (this : ContentScript) (env : Environment) (urls : list Url)
  : result AcquisitionResult * list Event :=
  match loadPagesRun this env urls with
  | (Ok _, st) =>
      (Ok {| success := true;
             data := results st;
             totalProcessed := Some (Z.of_nat (length (results st)));
             expectedTotal := Some (totalCount this);
             error := None |},
       events st)
  | (Throw message, st) => (Throw message, events st)
  end.

(** [getAllPagesViaOptimizedDOM(options)] *)
Definition getAllPagesViaOptimizedDOM (this : ContentScript) (env : Environment)
  : result AcquisitionResult * list Event :=
  loadPagesInParallel this env (generateAllPageUrls this).

(** [this.apiEndpoint && this.authHeaders] as a condition *)
Definition apiKnown (this : ContentScript) : bool :=
  match apiEndpoint this, authHeaders this with
  | Some endpoint, Some _ => truthy (VStr endpoint)
  | _, _ => false
  end.

Definition setProcessing (this : ContentScript) (flag : bool) (pages : list InvoiceRecord)
  : ContentScript :=
  {| invoiceData := invoiceData this;
     allPagesData := pages;
     totalCount := totalCount this;
     currentPage := currentPage this;
     totalPages := totalPages this;
     resultsPerPage := resultsPerPage this;
     isProcessingAllPages := flag;
     progressCallback := progressCallback this;
     apiEndpoint := apiEndpoint this;
     authHeaders := authHeaders this |}.

(** A finished run of [getAllPagesDataFast]: the value its promise settles
    with, the fields of [this] afterwards, and what it did. *)
Record Run : Type := {
  returned : result AcquisitionResult;
  after : ContentScript;
  trace : list Event
}.

(** [getAllPagesDataFast(options)] *)
Definition getAllPagesDataFast (this : ContentScript) (env : Environment) : Run :=
  (* try *)
  let this1 := setProcessing this true [] in
  let '(body, events) :=
    if apiKnown this1 then getAllPagesViaAPI this1 env
    else getAllPagesViaOptimizedDOM this1 env in
  let value :=
    match body with
    | Ok result => Ok result
    | Throw message =>
        (* catch *)
        Ok {| success := false;
              data := allPagesData this1;
              totalProcessed := None;
              expectedTotal := None;
              error := Some message |}
    end in
  (* finally *)
  {| returned := value;
     after := setProcessing this1 false (allPagesData this1);
     trace := events |}.

(** [getAllPagesData(options)] *)
Definition getAllPagesData (this : ContentScript) (env : Environment) : Run :=
  getAllPagesDataFast this env.

(** ** Descriptions used in the statements *)

(** The records an event gives when it is the first a frame is delivered. *)
Definition firstEventData (resultsPerPage pageNumber : Z) (ev : FrameEvent)
  : list InvoiceRecord :=
  match ev with
  | Load (Ok iframeDoc) => extractDataFromDocument resultsPerPage iframeDoc pageNumber
  | _ => []
  end.

(** A frame that is done: removed once, its timer disarmed, its promise
    resolved with [data]. *)
Definition tornDown (data : list InvoiceRecord) (s : Frame.FrameState) : Prop :=
  Frame.attached s = false
  /\ Frame.timer s = None
  /\ Frame.settled s = Some data
  /\ Frame.teardowns s = 1%nat.




(** The pages [first], [first + 1], ..., [count] of them. *)
Definition range (first : Z) (count : nat) : list Z :=
  map (fun k => first + Z.of_nat k) (seq 0 count).

(** The pages 1 .. [totalPages]. *)
Definition allPages (this : ContentScript) : list Z :=
  range 1 (Z.to_nat (totalPages this)).

(** The records page [page] contributes to a run: those its fetch gives on
    the API path, those its frame gives otherwise. *)
Definition pageRecords (this : ContentScript) (env : Environment) (page : Z)
  : list InvoiceRecord :=
  if apiKnown this
  then tryCatch (fetchPageBody this env page) (fun _ => [])
  else firstEventData (resultsPerPage this) page (frameEvent env page).

(** The rows of the grid in the document of page [page], when its frame loads
    a document that can be read. *)
Definition pageRows (env : Environment) (page : Z) : list Row :=
  match frameEvent env page with
  | Load (Ok iframeDoc) => gridRows iframeDoc
  | _ => []
  end.

(** The number of items page [page] holds: the items its response lists on
    the API path (each gives one record), the rows of its grid otherwise. *)
Definition pageSize (this : ContentScript) (env : Environment) (page : Z) : nat :=
  if apiKnown this
  then length (pageRecords this env page)
  else length (pageRows env page).

(** [record] comes from the item at position [position] (1-based) of page
    [page]. *)
Definition positionInPage (this : ContentScript) (env : Environment)
  (page position : Z) (record : InvoiceRecord) : Prop :=
  if apiKnown this
  then nth_error (pageRecords this env page) (Z.to_nat (position - 1)) = Some record
  else exists row,
         nth_error (pageRows env page) (Z.to_nat (position - 1)) = Some row
         /\ record = setPage (extractDataFromRow row position) page
                       ((page - 1) * resultsPerPage this + position).

(** The pages whose load a trace starts, in order. *)
Fixpoint startedPages (events : list Event) : list Z :=
  match events with
  | [] => []
  | Started page :: rest => page :: startedPages rest
  | _ :: rest => startedPages rest
  end.

(** The progress reports of a trace, in order. *)
Fixpoint reports (events : list Event) : list Progress :=
  match events with
  | [] => []
  | Reported progress :: rest => progress :: reports rest
  | _ :: rest => reports rest
  end.

(** The pages of the batch [loadPagesInParallel] takes at offset [i]. *)
Definition batchPages (urls : list Url) (i : nat) : list Z :=
  mapIndexed (fun _ index => Z.of_nat (i + index + 1)) 0 (firstn domBatchSize (skipn i urls)).

(** The report [loadPagesInParallel] makes after the batch at offset [i]. *)
Definition progressAt (urls : list Url) (i : nat) : Progress :=
  let completed := Z.min (Z.of_nat (i + domBatchSize)) (Z.of_nat (length urls)) in
  {| progressCurrentPage := completed;
     progressTotalPages := Z.of_nat (length urls);
     percentage := percentageOf completed (Z.of_nat (length urls)) |}.

(** The local state of [loadPagesInParallel] after the batch at offset [i],
    and the report of it when a callback is registered. *)
Definition afterBatch (this : ContentScript) (env : Environment) (urls : list Url)
  (i : nat) (st : LoopState) : LoopState :=
  let batch := firstn domBatchSize (skipn i urls) in
  let batchResults :=
    mapIndexed (fun url index => loadPageInIframe this env url (Z.of_nat (i + index + 1)))
               0 batch in
  let st1 :=
    {| results := results st ++ concat batchResults;
       events := events st ++ map Started (batchPages urls i) ++ [Awaited (batchPages urls i)] |} in
  match progressCallback this with
  | Some _ =>
      {| results := results st1;
         events := events st1 ++ [Reported (progressAt urls i)] |}
  | None => st1
  end.

(** What [loadPagesInParallel] does in its turn [k] when a callback is
    registered: it starts the pages of the batch, awaits them, reports. *)
Definition turn (urls : list Url) (k : nat) : list Event :=
  map Started (batchPages urls (domBatchSize * k))
    ++ [Awaited (batchPages urls (domBatchSize * k));
        Reported (progressAt urls (domBatchSize * k))].

(** The run as the specification words it: the pagination is inspected on
    the rendered page, and the pages are acquired with the refreshed totals. *)
Definition acquireAllAsSpecified (this : ContentScript) (rendered : Document)
  (env : Environment) : option Run :=
  match extractPaginationInfo this rendered with
  | Some inspected => Some (getAllPagesData inspected env)
  | None => None
  end.

(** Whether, in a trace, every page is started only after the pages of the
    batches before its own (batches of [size] pages) have all been awaited.
    [started] and [awaited] hold the pages started and awaited so far. *)
Fixpoint awaitsEachBatch (size : Z) (started awaited : list Z) (events : list Event)
  : bool :=
  match events with
  | [] => true
  | Started page :: rest =>
      forallb (fun earlier =>
                 if (earlier - 1) / size <? (page - 1) / size
                 then existsb (Z.eqb earlier) awaited
                 else true) started
      && awaitsEachBatch size (page :: started) awaited rest
  | Awaited pages :: rest => awaitsEachBatch size started (pages ++ awaited) rest
  | Reported _ :: rest => awaitsEachBatch size started awaited rest
  end.

(** ** Inputs of the examples *)

Module Examples.

Definition endpoint : jsstring :=
  lit "https://invoicing.eta.gov.eg/api/v1/documents/recent?page=1&pageSize=50".

(** A content script that has seen the API and a token, with the given totals. *)
Definition withApi (count pages : Z) : ContentScript :=
  {| invoiceData := [];
     allPagesData := [];
     totalCount := count;
     currentPage := Number.ofZ 1;
     totalPages := pages;
     resultsPerPage := 50;
     isProcessingAllPages := false;
     progressCallback := None;
     apiEndpoint := Some endpoint;
     authHeaders := Some (lit "token") |}.

(** A content script that has seen no API, with the given totals and callback. *)
Definition withoutApi (count pages : Z) (callback : option (Progress -> result unit))
  : ContentScript :=
  {| invoiceData := [];
     allPagesData := [];
     totalCount := count;
     currentPage := Number.ofZ 1;
     totalPages := pages;
     resultsPerPage := 50;
     isProcessingAllPages := false;
     progressCallback := callback;
     apiEndpoint := None;
     authHeaders := None |}.

(** An environment whose API answers every request with [status] and [body]. *)
Definition answering (status : Z) (body : jsval) : Environment :=
  {| fetch := fun _ => FetchResponse status (Ok body);
     frameEvent := fun _ => TimerFired |}.

(** The body [{"items": [{}]}]: one item with no property. *)
Definition oneEmptyItem : jsval := VObj [(lit "items", VArr [VObj []])].

(** The item [{"id": "X1"}]: an id and no uuid. *)
Definition itemWithIdOnly : jsval := VObj [(lit "id", VStr (lit "X1"))].

(** The item [{"uuid": "ABCDEFGHIJKLMNOPQRSTUVWXYZ0123"}]. *)
Definition itemWithUuid : jsval :=
  VObj [(lit "uuid", VStr (lit "ABCDEFGHIJKLMNOPQRSTUVWXYZ0123"))].

(** The body [{"items": [{}, ..., {}]}] with [n] items. *)
Definition manyItems (n : nat) : jsval :=
  VObj [(lit "items", VArr (repeat (VObj []) n))].

Definition urlOfPage1 : jsstring :=
  lit "https://invoicing.eta.gov.eg/api/v1/documents/recent?page=1&pageSize=50&sortBy=dateTimeReceived&sortOrder=desc".

(** An API that lists 51 items on page 1 and one item on any other page. *)
Definition overfull : Environment :=
  {| fetch := fun url =>
       if JsString.eqb url urlOfPage1
       then FetchResponse 200 (Ok (manyItems 51))
       else FetchResponse 200 (Ok (manyItems 1));
     frameEvent := fun _ => TimerFired |}.

(** A rendered page that shows ["Results: 120"] and no row. *)
Definition showing120 : Document :=
  {| detailsRows := [];
     listCells := [];
     indexedRows := [];
     gridRows := [];
     elementTexts := [lit "Results: 120"];
     activeButtonText := None |}.

(** A row of the grid with its uuid cell. *)
Definition rowWithUuid : Row :=
  {| rectWidth := Number.ofZ 800;
     rectHeight := Number.ofZ 40;
     idLinkText := Some (lit "ABCDEF");
     cells := [ {| automationKey := lit "uuid";
                   anchorText := Some (lit "ABCDEF");
                   grayText := None |} ] |}.

(** A document whose grid holds that row. *)
Definition oneRow : Document :=
  {| detailsRows := [rowWithUuid];
     listCells := [];
     indexedRows := [];
     gridRows := [rowWithUuid];
     elementTexts := [lit "Results: 1"];
     activeButtonText := None |}.

(** Every frame loads the document [oneRow]. *)
Definition loading : Environment :=
  {| fetch := fun _ => FetchRejected (lit "Failed to fetch");
     frameEvent := fun _ => Load (Ok oneRow) |}.

(** A progress callback that throws, and one that returns. *)
Definition throwing : Progress -> result unit :=
  fun _ => Throw (lit "Extension context invalidated.").

Definition returning : Progress -> result unit := fun _ => Ok tt.

End Examples.

(** ** The message listener *)

(** How [chrome.runtime.sendMessage(message)] ends when it is called: it
    throws, or it returns a promise, which is rejected later or not. *)
Inductive SendOutcome : Type :=
| SendThrows (message : jsstring)
| SendReturns (rejection : option jsstring).

(** The callback the listener registers:
    [(progress) => { chrome.runtime.sendMessage({...}).catch(() => {}); }].
    A rejection of the promise is handled by its [catch]. *)
Definition listenerCallback (sendMessage : Progress -> SendOutcome)
  : Progress -> result unit :=
  fun progress =>
    match sendMessage progress with
    | SendThrows message => Throw message
    | SendReturns _ => Ok tt
    end.

(** [setProgressCallback(callback)] *)
Definition setProgressCallback (this : ContentScript)
  (callback : Progress -> result unit) : ContentScript :=
  {| invoiceData := invoiceData this;
     allPagesData := allPagesData this;
     totalCount := totalCount this;
     currentPage := currentPage this;
     totalPages := totalPages this;
     resultsPerPage := resultsPerPage this;
     isProcessingAllPages := isProcessingAllPages this;
     progressCallback := Some callback;
     apiEndpoint := apiEndpoint this;
     authHeaders := authHeaders this |}.

(** The object [getInvoiceData()] returns. *)
Record InvoiceData : Type := {
  invoices : list InvoiceRecord;
  dataTotalCount : Z;
  dataCurrentPage : spec_float;
  dataTotalPages : Z
}.

(** [getInvoiceData()] *)
Definition getInvoiceData (this : ContentScript) : InvoiceData :=
  {| invoices := invoiceData this;
     dataTotalCount := totalCount this;
     dataCurrentPage := currentPage this;
     dataTotalPages := totalPages this |}.

(** A request of the popup: its [action], and whether
    [request.options && request.options.progressCallback] is truthy. *)
Record Request : Type := {
  action : jsval;
  wantsProgress : bool
}.

(** What the listener passes to [sendResponse]. *)
Inductive Response : Type :=
| Ready
| Visible (visible : InvoiceData)
| Acquired (acquired : AcquisitionResult)
| Rejected (message : jsstring)
| UnknownAction.

Definition isAction (request : Request) (name : string) : bool :=
  match action request with
  | VStr s => JsString.eqb s (lit name)
  | _ => false
  end.

(** The listener of [chrome.runtime.onMessage]: the response it sends and the
    content script afterwards. *)
Definition onMessage (script : ContentScript) (env : Environment)
  (sendMessage : Progress -> SendOutcome) (request : Request)
  : Response * ContentScript :=
  if isAction request "ping" then (Ready, script)
  else if isAction request "getInvoiceData" then (Visible (getInvoiceData script), script)
  else if isAction request "getAllPagesData" then
    let script1 :=
      if wantsProgress request
      then setProgressCallback script (listenerCallback sendMessage)
      else script in
    let run := getAllPagesData script1 env in
    (match returned run with
     | Ok acquired => Acquired acquired
     | Throw message => Rejected message
     end,
     after run)
  else (UnknownAction, script).

(** What [loadPagesInParallel] does in its turn [k]: it starts the pages of
    the batch, awaits them, and reports when a callback is registered. *)
Definition turnOf (this : ContentScript) (urls : list Url) (k : nat) : list Event :=
  map Started (batchPages urls (domBatchSize * k))
    ++ [Awaited (batchPages urls (domBatchSize * k))]
    ++ match progressCallback this with
       | Some _ => [Reported (progressAt urls (domBatchSize * k))]
       | None => []
       end.

(** Inputs of the examples: a request for all pages with progress updates,
    and a messaging channel whose deliveries are all rejected later. *)
Definition allPagesWithProgress : Request :=
  {| action := VStr (lit "getAllPagesData"); wantsProgress := true |}.

Definition disconnected : Progress -> SendOutcome :=
  fun _ => SendReturns (Some (lit "Could not establish connection.")).

(** ** Observing the requests of the page *)

(** [s.includes(p)] *)
Fixpoint includes (p s : jsstring) : bool :=
  startsWith p s
  || match s with
     | [] => false
     | _ :: rest => includes p rest
     end.

(** [s.split(c)] for a separator [c] of one code unit: the first piece and
    the pieces after it (the array is never empty). *)
Fixpoint splitOn (c : N) (s : jsstring) : jsstring * list jsstring :=
  match s with
  | [] => ([], [])
  | x :: rest =>
      let '(piece, pieces) := splitOn c rest in
      if N.eqb x c then ([], piece :: pieces) else (x :: piece, pieces)
  end.

(** The [for] of [extractTokenFromCookies]:
    [const [name, value] = cookie.trim().split('=')] takes the first two
    pieces, and [value] is undefined when there is one piece only. *)
Fixpoint tokenAmong (cookies : list jsstring) : jsval :=
  match cookies with
  | [] => VNull
  | cookie :: rest =>
      let '(name, fields) := splitOn 61 (trim cookie) in
      if includes (lit "token") name || includes (lit "auth") name
      then match fields with
           | value :: _ => VStr value
           | [] => VUndefined
           end
      else tokenAmong rest
  end.

(** [extractTokenFromCookies()], of [document.cookie] *)
Definition extractTokenFromCookies (cookie : jsstring) : jsval :=
  let '(first, others) := splitOn 59 cookie in
  tokenAmong (first :: others).

(** What the page holds when a request is observed: the item [authToken] of
    [localStorage] and of [sessionStorage], when there is one, and
    [document.cookie]. *)
Record Page : Type := {
  localAuthToken : option jsstring;
  sessionAuthToken : option jsstring;
  cookie : jsstring
}.

(** [storage.getItem('authToken')] *)
Definition getItem (item : option jsstring) : jsval :=
  match item with
  | Some text => VStr text
  | None => VNull
  end.

(** The [token] of [extractAuthHeaders]. *)
Definition tokenOf (page : Page) : jsval :=
  orElse (getItem (localAuthToken page))
         (orElse (getItem (sessionAuthToken page))
                 (extractTokenFromCookies (cookie page))).

(** [extractAuthHeaders()].  The token is a string, null or undefined, so it
    is truthy exactly when it is a string that is not empty. *)
Definition extractAuthHeaders (this : ContentScript) (page : Page) : ContentScript :=
  match tokenOf page with
  | VStr ((_ :: _) as token) =>
      {| invoiceData := invoiceData this;
         allPagesData := allPagesData this;
         totalCount := totalCount this;
         currentPage := currentPage this;
         totalPages := totalPages this;
         resultsPerPage := resultsPerPage this;
         isProcessingAllPages := isProcessingAllPages this;
         progressCallback := progressCallback this;
         apiEndpoint := apiEndpoint this;
         authHeaders := Some token |}
  | _ => this
  end.

(** [analyzeRequest(url, options)] *)
Definition analyzeRequest (this : ContentScript) (page : Page) (url : jsval)
  : ContentScript :=
  match url with
  | VStr text =>
      if includes (lit "/api/") text && includes (lit "documents") text
      then
        extractAuthHeaders
          {| invoiceData := invoiceData this;
             allPagesData := allPagesData this;
             totalCount := totalCount this;
             currentPage := currentPage this;
             totalPages := totalPages this;
             resultsPerPage := resultsPerPage this;
             isProcessingAllPages := isProcessingAllPages this;
             progressCallback := progressCallback this;
             apiEndpoint := Some text;
             authHeaders := authHeaders this |}
          page
      else this
  | _ => this
  end.

(** A call of a method that writes fields of the content script: a request is
    analyzed, the visible page is scanned, a message of the popup is handled. *)
Inductive Call : Type :=
| Observe (page : Page) (url : jsval)
| Scan (doc : Document)
| Message (env : Environment) (sendMessage : Progress -> SendOutcome) (request : Request).

(** The content script after a call; [None] as for [scanForInvoices]. *)
Definition perform (this : ContentScript) (call : Call) : option ContentScript :=
  match call with
  | Observe page url => Some (analyzeRequest this page url)
  | Scan doc => scanForInvoices this doc
  | Message env sendMessage request => Some (snd (onMessage this env sendMessage request))
  end.

(** The content script after a sequence of calls. *)
Fixpoint performAll (calls : list Call) (this : ContentScript) : option ContentScript :=
  match calls with
  | [] => Some this
  | call :: rest =>
      match perform this call with
      | Some next => performAll rest next
      | None => None
      end
  end.

(** A page with a token in a cookie only. *)
Definition pageWithCookie : Page :=
  {| localAuthToken := None;
     sessionAuthToken := None;
     cookie := lit "lang=ar; authToken=YWJj=; theme=dark" |}.

(** ** Descriptions used in the further statements *)

(** A text with no white space at either end. *)
Definition trimmedText (v : jsval) : Prop :=
  exists text, v = VStr text /\ trim text = text.

(** What a record read from a row of a rendered page holds: its number and
    its total are trimmed texts, and nothing else is read. *)
Definition readFromRow (record : InvoiceRecord) : Prop :=
  trimmedText (electronicNumber record)
  /\ trimmedText (totalAmount record)
  /\ internalNumber record = VStr []
  /\ invoiceValue record = VUndefined
  /\ vatAmount record = VUndefined
  /\ externalLink record = VUndefined.

(** A body that lists a well-formed item and [null]. *)
Definition itemAndNull : jsval :=
  VObj [(lit "items", VArr [Examples.itemWithUuid; VNull])].

(** A request for all pages that asks for no progress updates. *)
Definition allPagesWithoutProgress : Request :=
  {| action := VStr (lit "getAllPagesData"); wantsProgress := false |}.
(** * Properties *)

(** ** Decimal digits *)

Lemma uintDigits_digits (u : Decimal.uint) : Forall (fun c => isDigit c = true) (uintDigits u).
Proof.
  induction u; simpl; constructor; auto.
Qed.

Lemma decimal_digits (n : N) : Forall (fun c => isDigit c = true) (decimal n).
Proof.
  apply uintDigits_digits.
Qed.

Lemma decimal_nonempty (n : N) : decimal n <> [].
Proof.
  unfold decimal. destruct n as [|p]; [discriminate|].
  cbn [N.to_uint]. pose proof (DecimalPos.Unsigned.to_uint_nonnil p) as H.
  destruct (Pos.to_uint p); [congruence | discriminate ..].
Qed.



Lemma digitsValue_uintDigits_acc (d : Decimal.uint) (acc : positive) :
  fold_left (fun a c => 10 * a + (c - 48))%N (uintDigits d) (Npos acc)
  = Npos (Pos.of_uint_acc d acc).
Proof.
  revert acc. induction d; intros acc; cbn [uintDigits fold_left Pos.of_uint_acc];
    [reflexivity | rewrite <- IHd; f_equal; lia ..].
Qed.

Lemma digitsValue_uintDigits (d : Decimal.uint) :
  digitsValue (uintDigits d) = Pos.of_uint d.
Proof.
  unfold digitsValue. induction d; cbn [uintDigits fold_left Pos.of_uint];
    [reflexivity | exact IHd | apply (digitsValue_uintDigits_acc d 1) | ..].
  all: rewrite <- digitsValue_uintDigits_acc; reflexivity.
Qed.

(** Reading the decimal digits of a number gives the number back. *)
Lemma digitsValue_decimal (n : N) : digitsValue (decimal n) = n.
Proof.
  unfold decimal. rewrite digitsValue_uintDigits. destruct n as [|p]; [reflexivity|].
  apply DecimalPos.Unsigned.of_to.
Qed.

Lemma decimal_inj (a b : N) : decimal a = decimal b -> a = b.
Proof.
  intros H. rewrite <- (digitsValue_decimal a), <- (digitsValue_decimal b). now rewrite H.
Qed.

Lemma decimal_head (n : N) :
  exists c rest, decimal n = c :: rest /\ isDigit c = true.
Proof.
  pose proof (decimal_nonempty n) as Hne. pose proof (decimal_digits n) as Hd.
  destruct (decimal n) as [|c rest]; [congruence|].
  exists c, rest. split; [reflexivity|]. now inversion Hd.
Qed.

Lemma decimalZ_inj (a b : Z) : decimalZ a = decimalZ b -> a = b.
Proof.
  unfold decimalZ. intros H.
  destruct (Z.ltb_spec a 0) as [Ha|Ha], (Z.ltb_spec b 0) as [Hb|Hb].
  - injection H as H. apply decimal_inj in H. lia.
  - destruct (decimal_head (Z.to_N b)) as (c & rest & E & Hc). rewrite E in H.
    injection H as <- _. discriminate.
  - destruct (decimal_head (Z.to_N a)) as (c & rest & E & Hc). rewrite E in H.
    injection H as -> _. discriminate.
  - apply decimal_inj in H. lia.
Qed.

Lemma dropWhile_app_all (p : N -> bool) (s r : jsstring) :
  Forall (fun c => p c = true) s -> dropWhile p (s ++ r) = dropWhile p r.
Proof.
  induction 1 as [|c s Hc _ IH]; [reflexivity|]. cbn [app dropWhile]. now rewrite Hc.
Qed.

Lemma takeWhile_app_all (p : N -> bool) (s r : jsstring) :
  Forall (fun c => p c = true) s ->
  (forall c rest, r = c :: rest -> p c = false) ->
  takeWhile p (s ++ r) = s.
Proof.
  intros Hs Hr. induction Hs as [|c s Hc _ IH].
  - destruct r as [|c rest]; [reflexivity|]. cbn. now rewrite (Hr c rest eq_refl).
  - cbn [app takeWhile]. now rewrite Hc, IH.
Qed.

Lemma digit_not_whiteSpace (c : N) : isDigit c = true -> isWhiteSpace c = false.
Proof.
  unfold isDigit. intros H. apply andb_prop in H. destruct H as [H1 H2].
  apply N.leb_le in H1, H2.
  assert (c = 48 \/ c = 49 \/ c = 50 \/ c = 51 \/ c = 52 \/ c = 53 \/ c = 54
          \/ c = 55 \/ c = 56 \/ c = 57)%N as Hc by lia.
  repeat (destruct Hc as [->|Hc]; [reflexivity|]). now subst.
Qed.

Lemma dropWhile_fixed (p : N -> bool) (s : jsstring) :
  (forall c rest, s = c :: rest -> p c = false) -> dropWhile p s = s.
Proof.
  destruct s as [|c rest]; [reflexivity|]. intros H. cbn. now rewrite (H c rest eq_refl).
Qed.

Lemma dropWhile_head (p : N -> bool) (s : jsstring) (c : N) (rest : jsstring) :
  dropWhile p s = c :: rest -> p c = false.
Proof.
  induction s as [|x s IH]; [discriminate|]. cbn [dropWhile].
  destruct (p x) eqn:E; [exact IH|]. now intros [= <- _].
Qed.

Lemma digit_cases (c : N) :
  isDigit c = true ->
  (c = 48 \/ c = 49 \/ c = 50 \/ c = 51 \/ c = 52 \/ c = 53 \/ c = 54
   \/ c = 55 \/ c = 56 \/ c = 57)%N.
Proof.
  unfold isDigit. intros H. apply andb_prop in H. destruct H as [H1 H2].
  apply N.leb_le in H1, H2. lia.
Qed.

Lemma digits_head_fixed (ds : jsstring) :
  Forall (fun c => isDigit c = true) ds -> trimStart ds = ds.
Proof.
  intros H. apply dropWhile_fixed. intros c rest ->.
  apply digit_not_whiteSpace. now inversion H.
Qed.

Lemma readSign_digit (c : N) (rest : jsstring) :
  isDigit c = true -> Number.readSign (c :: rest) = (false, c :: rest).
Proof.
  intros H. apply digit_cases in H.
  repeat (destruct H as [->|H]; [reflexivity|]). now subst.
Qed.

(** ** Integers in binary64 *)

Lemma digits2_pos_bounds (p : positive) :
  2 ^ (Zpos (digits2_pos p) - 1) <= Zpos p < 2 ^ Zpos (digits2_pos p).
Proof.
  induction p as [p IH|p IH|]; cbn [digits2_pos]; [| |cbn; lia].
  all: rewrite Pos2Z.inj_succ;
    replace (Z.succ (Zpos (digits2_pos p)) - 1) with (Zpos (digits2_pos p)) by lia;
    rewrite Z.pow_succ_r by lia;
    assert (2 ^ Zpos (digits2_pos p) = 2 * 2 ^ (Zpos (digits2_pos p) - 1)) as E
      by (rewrite <- Z.pow_succ_r by lia; f_equal; lia);
    lia.
Qed.

Lemma shifted_value (p k : positive) : Zpos (Pos.iter xO p k) = Zpos p * 2 ^ Zpos k.
Proof.
  induction k as [|k IH] using Pos.peano_ind.
  - cbn [Pos.iter]. change (2 ^ 1) with 2. lia.
  - rewrite Pos.iter_succ, Pos2Z.inj_succ, Z.pow_succ_r by lia.
    rewrite Pos2Z.inj_xO, IH. lia.
Qed.

Lemma shifted_digits (p k : positive) :
  digits2_pos (Pos.iter xO p k) = (digits2_pos p + k)%positive.
Proof.
  induction k as [|k IH] using Pos.peano_ind.
  - cbn [Pos.iter digits2_pos]. lia.
  - rewrite Pos.iter_succ. cbn [digits2_pos]. rewrite IH. lia.
Qed.

(** An integer of at most 53 bits is a binary64 number: it is kept as it is,
    with its bits shifted to the top of the mantissa. *)
Lemma binary_round_exact (s : bool) (p : positive) :
  Zpos p < 2 ^ 53 ->
  exists m e,
    binary_round Number.prec Number.emax s p 0 = S754_finite s m e
    /\ e <= 0
    /\ Zpos m = Zpos p * 2 ^ (- e).
Proof.
  intros Hp. pose proof (digits2_pos_bounds p) as [Hlow _].
  assert (Zpos (digits2_pos p) <= 53) as Hd.
  { destruct (Z.le_gt_cases (Zpos (digits2_pos p)) 53) as [H|H]; [exact H|].
    assert (2 ^ 53 <= 2 ^ (Zpos (digits2_pos p) - 1)) by (apply Z.pow_le_mono_r; lia).
    lia. }
  unfold binary_round, shl_align, fexp, emin, Number.prec, Number.emax.
  destruct (Z.eq_dec (Zpos (digits2_pos p)) 53) as [E|Hne].
  - exists p, 0.
    replace (Z.max (Zpos (digits2_pos p) + 0 - 53) (3 - 1024 - 53) - 0) with 0 by lia.
    unfold binary_round_aux, shr_fexp, shr, fexp, emin. cbn [Zdigits2 shr_record_of_loc].
    replace (Z.max (Zpos (digits2_pos p) + 0 - 53) (3 - 1024 - 53) - 0) with 0 by lia.
    cbn [shr_m loc_of_shr_record round_nearest_even Zdigits2 shr_record_of_loc].
    replace (Z.max (Zpos (digits2_pos p) + 0 - 53) (3 - 1024 - 53) - 0) with 0 by lia.
    cbn [shr_m]. split; [reflexivity|]. split; [lia|]. cbn. lia.
  - assert (exists k, 53 - Zpos (digits2_pos p) = Zpos k) as (k & Hk).
    { destruct (53 - Zpos (digits2_pos p)) as [|k|k] eqn:E; try lia. now exists k. }
    replace (Z.max (Zpos (digits2_pos p) + 0 - 53) (3 - 1024 - 53) - 0) with (Zneg k) by lia.
    replace (Z.max (Zpos (digits2_pos p) + 0 - 53) (3 - 1024 - 53)) with (Zneg k) by lia.
    exists (Pos.iter xO p k), (Zneg k).
    unfold binary_round_aux, shr_fexp, shr, fexp, emin. cbn [Zdigits2 shr_record_of_loc].
    rewrite shifted_digits.
    replace (Z.max (Zpos (digits2_pos p + k) + Zneg k - 53) (3 - 1024 - 53) - Zneg k)
      with 0 by lia.
    cbn [shr_m loc_of_shr_record round_nearest_even Zdigits2 shr_record_of_loc].
    rewrite shifted_digits.
    replace (Z.max (Zpos (digits2_pos p + k) + Zneg k - 53) (3 - 1024 - 53) - Zneg k)
      with 0 by lia.
    cbn [shr_m]. split; [reflexivity|]. split; [lia|].
    rewrite shifted_value. reflexivity.
Qed.

Lemma ofDecimal_integer (s : bool) (n : N) :
  (n <= 2 ^ 53)%N ->
  Number.toInteger (Number.ofDecimal s n 0) = Some ((if s then -1 else 1) * Z.of_N n).
Proof.
  intros Hn. destruct n as [|p]; [destruct s; reflexivity|].
  unfold Number.ofDecimal. cbn [Z.leb Z.compare].
  replace (Z.to_pos (Zpos p * 10 ^ 0)) with p by (rewrite Z.pow_0_r, Z.mul_1_r; reflexivity).
  assert (Zpos p < 2 ^ 53 \/ p = (2 ^ 53)%positive) as [Hp| ->] by lia.
  - destruct (binary_round_exact s p Hp) as (m & e & -> & He & Hm).
    unfold Number.toInteger.
    destruct (Z.leb_spec 0 e).
    + replace e with 0 in * by lia. cbn in Hm. f_equal. cbn [Z.pow]. lia.
    + assert (0 < 2 ^ (- e)) by (apply Z.pow_pos_nonneg; lia).
      rewrite Hm, Z.mod_mul, Z.eqb_refl, Z.div_mul by lia. reflexivity.
  - destruct s; vm_compute; reflexivity.
Qed.

Lemma binary_round_aux_sign (s : bool) (m e : Z) (l : location) :
  match binary_round_aux Number.prec Number.emax s m e l with
  | S754_zero s' | S754_infinity s' | S754_finite s' _ _ => s' = s
  | S754_nan => True
  end.
Proof.
  unfold binary_round_aux.
  destruct (shr_fexp _ _ _ _ _) as [mrs' e'].
  destruct (shr_fexp _ _ _ _ loc_Exact) as [mrs'' e''].
  destruct (shr_m mrs''); try exact I; [reflexivity|].
  destruct (_ <=? _); reflexivity.
Qed.

Lemma shr_1_nonneg (mrs : shr_record) : 0 <= shr_m mrs -> 0 <= shr_m (shr_1 mrs).
Proof.
  destruct mrs as [m r s]. cbn [shr_m]. intros H.
  destruct m as [|[p|p|]|p]; cbn; lia.
Qed.

Lemma shr_nonneg (mrs : shr_record) (e n : Z) :
  0 <= shr_m mrs -> 0 <= shr_m (fst (shr mrs e n)) /\ e <= snd (shr mrs e n).
Proof.
  intros H. unfold shr. destruct n as [|p|p]; cbn [fst snd]; try (split; [exact H | lia]).
  split; [|lia]. revert mrs H.
  induction p as [p IH|p IH|]; intros mrs H; cbn [iter_pos].
  - apply IH, IH. now apply shr_1_nonneg.
  - now apply IH, IH.
  - now apply shr_1_nonneg.
Qed.

Lemma round_nearest_even_nonneg (m : Z) (l : location) :
  0 <= m -> 0 <= round_nearest_even m l.
Proof.
  intros H. unfold round_nearest_even.
  destruct l as [|[| |]]; try destruct (Z.even m); lia.
Qed.

(** Rounding an integer to binary64 gives a number of the same sign, never
    [NaN], and an integer when it is finite. *)
Lemma binary_round_integer (s : bool) (p : positive) :
  match binary_round Number.prec Number.emax s p 0 with
  | S754_zero s' => s' = s
  | S754_infinity s' => s' = s
  | S754_finite s' m e => s' = s /\ (0 <= e \/ Zpos m mod 2 ^ (- e) = 0)
  | S754_nan => False
  end.
Proof.
  destruct (Z.lt_ge_cases (Zpos p) (2 ^ 53)) as [Hp|Hp].
  - destruct (binary_round_exact s p Hp) as (m & e & -> & He & Hm).
    split; [reflexivity|]. right. rewrite Hm. apply Z.mod_mul.
    apply Z.pow_nonzero; lia.
  - pose proof (digits2_pos_bounds p) as [_ Hhigh].
    assert (53 < Zpos (digits2_pos p)) as Hd.
    { destruct (Z.lt_ge_cases 53 (Zpos (digits2_pos p))) as [H|H]; [exact H|].
      assert (2 ^ Zpos (digits2_pos p) <= 2 ^ 53) by (apply Z.pow_le_mono_r; lia).
      lia. }
    unfold binary_round, shl_align, fexp, emin, Number.prec, Number.emax.
    assert (exists k, Z.max (Zpos (digits2_pos p) + 0 - 53) (3 - 1024 - 53) - 0 = Zpos k)
      as (k & ->).
    { destruct (Z.max (Zpos (digits2_pos p) + 0 - 53) (3 - 1024 - 53) - 0) as [|k|k] eqn:E;
        try lia. now exists k. }
    unfold binary_round_aux, shr_fexp.
    match goal with
    | |- context [shr ?a 0 ?n] =>
        pose proof (shr_nonneg a 0 n ltac:(cbn; lia)) as [Hm1 _];
        assert (0 < snd (shr a 0 n)) as He1;
        [ unfold SpecFloat.fexp, emin; cbn [Zdigits2]; unfold shr;
          destruct (Z.max (Zpos (digits2_pos p) + 0 - 53) (3 - 1024 - 53) - 0)
            as [|k'|k'] eqn:E; try lia; cbn [snd]; lia
        | destruct (shr a 0 n) as [mrs' e'] ]
    end.
    cbn [fst snd] in Hm1, He1.
    match goal with
    | |- context [shr ?a e' ?n] =>
        pose proof (shr_nonneg a e' n
                      ltac:(cbn [shr_record_of_loc shr_m];
                            now apply round_nearest_even_nonneg)) as [Hm2 He2];
        destruct (shr a e' n) as [mrs'' e'']
    end.
    cbn [fst snd] in Hm2, He2.
    destruct (shr_m mrs'') as [|m|m]; [reflexivity| |lia].
    destruct (e'' <=? 1024 - 53); [|reflexivity].
    split; [reflexivity|]. left. lia.
Qed.

Lemma ofDecimal_integer_or_infinite (s : bool) (n : N) :
  (exists z, Number.toInteger (Number.ofDecimal s n 0) = Some z
             /\ if s then z <= 0 else 0 <= z)
  \/ Number.ofDecimal s n 0 = S754_infinity s.
Proof.
  destruct n as [|p]; [left; exists 0; split; [reflexivity | destruct s; lia]|].
  unfold Number.ofDecimal. cbn [Z.leb Z.compare].
  replace (Z.to_pos (Zpos p * 10 ^ 0)) with p by (rewrite Z.pow_0_r, Z.mul_1_r; reflexivity).
  pose proof (binary_round_integer s p) as H.
  destruct (binary_round Number.prec Number.emax s p 0) as [s'|s'| |s' m e].
  - left. exists 0. split; [reflexivity | destruct s; lia].
  - right. now subst.
  - destruct H.
  - left. destruct H as (-> & H). unfold Number.toInteger.
    destruct (Z.leb_spec 0 e) as [He|He].
    + eexists. split; [reflexivity|].
      assert (0 <= 2 ^ e) by (apply Z.pow_nonneg; lia). destruct s; nia.
    + destruct H as [H|H]; [lia|]. rewrite H, Z.eqb_refl.
      eexists. split; [reflexivity|].
      assert (0 <= Zpos m / 2 ^ (- e)) by (apply Z.div_pos; [lia | apply Z.pow_pos_nonneg; lia]).
      destruct s; lia.
Qed.

(** ** Rounding to binary64 *)

Section Rounding.

Local Open Scope Q_scope.

Lemma two_neq0 : ~ 2 == 0.
Proof.
  intro H. discriminate H.
Qed.

Lemma pow2_pos (e : Z) : 0 < 2 ^ e.
Proof.
  apply Qpower_0_lt. reflexivity.
Qed.

Lemma pow2_succ (e : Z) : 2 ^ (e + 1) == 2 * 2 ^ e.
Proof.
  rewrite Qpower_plus by apply two_neq0. rewrite Qpower_1_r. ring.
Qed.

Lemma exponentOf_spec (x : Q) :
  0 < x -> 2 ^ Binary64.exponentOf x <= x /\ x < 2 ^ (Binary64.exponentOf x + 1).
Proof.
  intros Hx. destruct x as [a b]. 
  assert (0 < a)%Z as Ha by (unfold Qlt in Hx; simpl in Hx; lia).
  unfold Binary64.exponentOf. cbn [Qnum Qden].
  set (la := Z.log2 a). set (lb := Z.log2 (Zpos b)).
  assert (0 <= la)%Z by apply Z.log2_nonneg.
  assert (0 <= lb)%Z by apply Z.log2_nonneg.
  destruct (Z.log2_spec a Ha) as [Ha1 Ha2]. fold la in Ha1, Ha2.
  destruct (Z.log2_spec (Zpos b) eq_refl) as [Hb1 Hb2]. fold lb in Hb1, Hb2.
  set (P := 2 ^ (la - lb)).
  assert (0 < P) as HP by apply pow2_pos.
  assert (P * inject_Z (2 ^ lb) == inject_Z (2 ^ la)) as HPB.
  { rewrite !Zpower_Qpower by assumption. unfold P.
    rewrite <- Qpower_plus by apply two_neq0. 
    replace (la - lb + lb)%Z with la by lia. reflexivity. }
  assert ((a # b) * inject_Z (Zpos b) == inject_Z a) as Hxb.
  { unfold Qeq, Qmult, inject_Z. simpl. lia. }
  rewrite Z.pow_succ_r in Ha2, Hb2 by assumption.
  assert (inject_Z (2 ^ la) <= inject_Z a) as Qa1 by (rewrite <- Zle_Qle; exact Ha1).
  assert (inject_Z a < 2 * inject_Z (2 ^ la)) as Qa2.
  { change 2 with (inject_Z 2). rewrite <- inject_Z_mult, <- Zlt_Qlt. exact Ha2. }
  assert (inject_Z (2 ^ lb) <= inject_Z (Zpos b)) as Qb1 by (rewrite <- Zle_Qle; exact Hb1).
  assert (inject_Z (Zpos b) < 2 * inject_Z (2 ^ lb)) as Qb2.
  { change 2 with (inject_Z 2). rewrite <- inject_Z_mult, <- Zlt_Qlt. exact Hb2. }
  assert (0 < inject_Z (2 ^ lb)) as QB0.
  { change 0 with (inject_Z 0). rewrite <- Zlt_Qlt. apply Z.pow_pos_nonneg; lia. }
  set (x := a # b) in *. set (A := inject_Z (2 ^ la)) in *. set (B := inject_Z (2 ^ lb)) in *.
  set (qa := inject_Z a) in *. set (qb := inject_Z (Zpos b)) in *.
  assert (x < 2 * P) as Hup.
  { apply Qnot_le_lt. intros Hc. 
    assert (2 * P * qb <= x * qb) by (apply Qmult_le_compat_r; lra).
    assert (P * B <= P * qb) by (apply Qmult_le_l; lra). lra. }
  assert (P < 2 * x) as Hlo.
  { apply Qnot_le_lt. intros Hc.
    assert (2 * x * qb <= P * qb) by (apply Qmult_le_compat_r; lra).
    assert (P * qb < P * (2 * B)) by (apply Qmult_lt_l; lra). lra. }
  destruct (Qle_bool P x) eqn:E.
  - apply Qle_bool_iff in E. split; [exact E|]. rewrite pow2_succ. exact Hup.
  - assert (x < P) as Hlt.
    { apply Qnot_le_lt. intros Hc. apply Qle_bool_iff in Hc. congruence. }
    replace (la - lb - 1 + 1)%Z with (la - lb)%Z by lia. split; [|exact Hlt].
    assert (2 * 2 ^ (la - lb - 1) == P) as HP2.
    { rewrite <- pow2_succ. unfold P. replace (la - lb - 1 + 1)%Z with (la - lb)%Z by lia. reflexivity. }
    lra.
Qed.

Lemma exponentOf_mono (x y : Q) : 0 < x -> x <= y -> (Binary64.exponentOf x <= Binary64.exponentOf y)%Z.
Proof.
  intros Hx Hxy.
  destruct (exponentOf_spec x Hx) as [Hx1 _].
  destruct (exponentOf_spec y) as [_ Hy2]; [lra|].
  assert (2 ^ Binary64.exponentOf x < 2 ^ (Binary64.exponentOf y + 1)) as H by lra.
  apply Qpower_lt_compat_l_inv in H; [lia | reflexivity].
Qed.

Lemma roundHalfEven_bounds (y : Q) :
  (Qfloor y <= Binary64.roundHalfEven y <= Qfloor y + 1)%Z.
Proof.
  unfold Binary64.roundHalfEven. destruct (Qcompare _ _); [destruct (Z.even _)| |]; lia.
Qed.

Lemma roundHalfEven_mono (y1 y2 : Q) : y1 <= y2 -> (Binary64.roundHalfEven y1 <= Binary64.roundHalfEven y2)%Z.
Proof.
  intros H. pose proof (Qfloor_resp_le _ _ H) as Hf.
  pose proof (roundHalfEven_bounds y1) as B1. pose proof (roundHalfEven_bounds y2) as B2.
  destruct (Z.eq_dec (Qfloor y1) (Qfloor y2)) as [E|NE]; [|lia].
  unfold Binary64.roundHalfEven. rewrite <- E.
  assert (y1 - inject_Z (Qfloor y1) <= y2 - inject_Z (Qfloor y1)) as Hd by lra.
  destruct (Qcompare_spec (y1 - inject_Z (Qfloor y1)) (1 # 2));
    destruct (Qcompare_spec (y2 - inject_Z (Qfloor y1)) (1 # 2));
    try (destruct (Z.even (Qfloor y1))); try lia; lra.
Qed.

Lemma roundHalfEven_Z (z : Z) : Binary64.roundHalfEven (inject_Z z) = z.
Proof.
  unfold Binary64.roundHalfEven. rewrite Qfloor_Z.
  destruct (Qcompare_spec (inject_Z z - inject_Z z) (1 # 2)); [lra | reflexivity | lra].
Qed.

Lemma pow2_split (a b : Z) : 2 ^ a * 2 ^ b == 2 ^ (a + b).
Proof.
  symmetry. apply Qpower_plus, two_neq0.
Qed.

Lemma roundPositive_bounds (x : Q) :
  0 < x -> 2 ^ Binary64.exponentOf x <= Binary64.roundPositive x /\ Binary64.roundPositive x <= 2 ^ (Binary64.exponentOf x + 1).
Proof.
  intros Hx. destruct (exponentOf_spec x Hx) as [H1 H2].
  set (e := Binary64.exponentOf x) in *. unfold Binary64.roundPositive. fold e.
  pose proof (pow2_pos (52 - e)) as Hs. pose proof (pow2_pos (e - 52)) as Hu.
  assert (inject_Z (2 ^ 52) <= x * 2 ^ (52 - e)) as L.
  { rewrite Zpower_Qpower by lia. change (inject_Z 2) with 2.
    setoid_replace (2 ^ 52) with (2 ^ e * 2 ^ (52 - e)).
    - apply Qmult_le_compat_r; lra.
    - rewrite pow2_split. replace (e + (52 - e))%Z with 52%Z by lia. reflexivity. }
  assert (x * 2 ^ (52 - e) <= inject_Z (2 ^ 53)) as U.
  { rewrite Zpower_Qpower by lia. change (inject_Z 2) with 2.
    setoid_replace (2 ^ 53) with (2 ^ (e + 1) * 2 ^ (52 - e)).
    - apply Qmult_le_compat_r; lra.
    - rewrite pow2_split. replace (e + 1 + (52 - e))%Z with 53%Z by lia. reflexivity. }
  apply roundHalfEven_mono in L, U. rewrite roundHalfEven_Z in L, U.
  rewrite Zle_Qle in L, U. rewrite Zpower_Qpower in L, U by lia. change (inject_Z 2) with 2 in L, U.
  split.
  - setoid_replace (2 ^ e) with (2 ^ 52 * 2 ^ (e - 52)).
    + apply Qmult_le_compat_r; lra.
    + rewrite pow2_split. replace (52 + (e - 52))%Z with e by lia. reflexivity.
  - setoid_replace (2 ^ (e + 1)) with (2 ^ 53 * 2 ^ (e - 52)).
    + apply Qmult_le_compat_r; lra.
    + rewrite pow2_split. replace (53 + (e - 52))%Z with (e + 1)%Z by lia. reflexivity.
Qed.

Lemma roundPositive_mono (x y : Q) : 0 < x -> x <= y -> Binary64.roundPositive x <= Binary64.roundPositive y.
Proof.
  intros Hx Hxy. assert (0 < y) as Hy by lra.
  pose proof (exponentOf_mono x y Hx Hxy) as He.
  destruct (Z.eq_dec (Binary64.exponentOf x) (Binary64.exponentOf y)) as [E|NE].
  - unfold Binary64.roundPositive. rewrite <- E. set (e := Binary64.exponentOf x).
    pose proof (pow2_pos (52 - e)) as Hs. pose proof (pow2_pos (e - 52)) as Hu.
    apply Qmult_le_compat_r; [|lra]. rewrite <- Zle_Qle.
    apply roundHalfEven_mono. apply Qmult_le_compat_r; lra.
  - destruct (roundPositive_bounds x Hx) as [_ Ux].
    destruct (roundPositive_bounds y Hy) as [Ly _].
    assert (2 ^ (Binary64.exponentOf x + 1) <= 2 ^ Binary64.exponentOf y).
    { apply Qpower_le_compat_l; [lia | discriminate]. }
    lra.
Qed.

Lemma round_positive (x : Q) : 0 < x -> Binary64.round x = Binary64.roundPositive x.
Proof.
  destruct x as [[|a|a] b]; unfold Qlt; simpl; intros H; try lia. reflexivity.
Qed.

Lemma round_pos (x : Q) : 0 < x -> 0 < Binary64.round x.
Proof.
  intros Hx. rewrite round_positive by assumption.
  destruct (roundPositive_bounds x Hx) as [L _].
  pose proof (pow2_pos (Binary64.exponentOf x)). lra.
Qed.

(** Rounding is monotone. *)
Lemma round_mono (x y : Q) : 0 < x -> x <= y -> Binary64.round x <= Binary64.round y.
Proof.
  intros Hx Hxy. rewrite !round_positive by lra. now apply roundPositive_mono.
Qed.

Lemma round_eq (x y : Q) : 0 < x -> x == y -> Binary64.round x == Binary64.round y.
Proof.
  intros Hx E. apply Qle_antisym; apply round_mono; lra.
Qed.

Lemma quotient_le (c n a : Z) (b : positive) :
  (0 < n)%Z -> (c * Zpos b <= a * n)%Z -> inject_Z c / inject_Z n <= a # b.
Proof.
  intros Hn H. apply Qle_shift_div_r.
  - change 0 with (inject_Z 0). now rewrite <- Zlt_Qlt.
  - unfold Qle, Qmult, inject_Z. simpl. lia.
Qed.

Lemma quotient_pos (c n : Z) : (0 < c)%Z -> (0 < n)%Z -> 0 < inject_Z c / inject_Z n.
Proof.
  intros Hc Hn. apply Qlt_shift_div_l.
  - change 0 with (inject_Z 0). now rewrite <- Zlt_Qlt.
  - rewrite Qmult_0_l. change 0 with (inject_Z 0). now rewrite <- Zlt_Qlt.
Qed.

Lemma quotient_mono (c c' n : Z) :
  (0 < n)%Z -> (c <= c')%Z -> inject_Z c / inject_Z n <= inject_Z c' / inject_Z n.
Proof.
  intros Hn H. unfold Qdiv. apply Qmult_le_compat_r.
  - now rewrite <- Zle_Qle.
  - apply Qinv_le_0_compat. change 0 with (inject_Z 0). rewrite <- Zle_Qle. lia.
Qed.

(** A report of all the pages is a report of exactly 100. *)
Lemma percentageOf_all (n : Z) : (0 < n)%Z -> percentageOf n n == 100.
Proof.
  intros Hn. unfold percentageOf.
  assert (inject_Z n / inject_Z n == 1) as E1.
  { apply Qmult_inv_r. intros H. apply (inject_Z_injective n 0%Z) in H. lia. }
  assert (Binary64.round (inject_Z n / inject_Z n) == 1) as E2.
  { rewrite (round_eq _ 1); [vm_compute; reflexivity | lra | exact E1]. }
  rewrite (round_eq _ 100); [vm_compute; reflexivity | lra | lra].
Qed.

(** The percentage does not decrease when more pages are completed. *)
Lemma percentageOf_mono (c c' n : Z) :
  (0 < c)%Z -> (c <= c')%Z -> (0 < n)%Z -> percentageOf c n <= percentageOf c' n.
Proof.
  intros Hc H Hn. unfold percentageOf.
  pose proof (quotient_pos c n Hc Hn) as Hq.
  pose proof (round_pos _ Hq) as Hr.
  apply round_mono; [lra|].
  apply Qmult_le_compat_r; [|lra].
  apply round_mono; [exact Hq|]. now apply quotient_mono.
Qed.

(** A report of fewer than all the pages is a report of less than 100, for
    at most 2^53 pages. *)
Lemma percentageOf_part (c n : Z) :
  (0 < c)%Z -> (c < n)%Z -> (n <= 2 ^ 53)%Z -> percentageOf c n < 100.
Proof.
  intros Hc H Hn. unfold percentageOf.
  pose proof (quotient_pos c n Hc ltac:(lia)) as Hq.
  pose proof (round_pos _ Hq) as Hr.
  assert (inject_Z c / inject_Z n <= 9007199254740991 # 9007199254740992) as Hle.
  { apply quotient_le; [lia|]. change (Zpos 9007199254740992) with (2 ^ 53)%Z. nia. }
  assert (Binary64.round (inject_Z c / inject_Z n) <= 9007199254740991 # 9007199254740992)
    as Hr1.
  { eapply Qle_trans; [apply round_mono; [exact Hq | exact Hle]|].
    vm_compute. discriminate. }
  eapply Qle_lt_trans.
  - apply round_mono; [lra|].
    apply Qmult_le_compat_r; [exact Hr1 | lra].
  - vm_compute. reflexivity.
Qed.

Lemma roundHalfEven_near (y : Q) : y - (1 # 2) <= inject_Z (Binary64.roundHalfEven y).
Proof.
  unfold Binary64.roundHalfEven.
  pose proof (Qfloor_le y) as Hlow. pose proof (Qlt_floor y) as Hhigh.
  rewrite inject_Z_plus in Hhigh. change (inject_Z 1) with 1 in Hhigh.
  destruct (Qcompare_spec (y - inject_Z (Qfloor y)) (1 # 2)) as [E|E|E].
  - destruct (Z.even (Qfloor y)); [lra|].
    rewrite inject_Z_plus. change (inject_Z 1) with 1. lra.
  - lra.
  - rewrite inject_Z_plus. change (inject_Z 1) with 1. lra.
Qed.

(** Rounding moves a number by at most half a unit of its last place. *)
Lemma round_near (x : Q) :
  0 < x -> x - 2 ^ (Binary64.exponentOf x - 53) <= Binary64.round x.
Proof.
  intros Hx. rewrite round_positive by exact Hx. unfold Binary64.roundPositive.
  set (e := Binary64.exponentOf x).
  pose proof (pow2_pos (e - 52)) as Hu.
  pose proof (roundHalfEven_near (x * 2 ^ (52 - e))) as Hnear.
  assert ((x * 2 ^ (52 - e) - (1 # 2)) * 2 ^ (e - 52) == x - 2 ^ (e - 53)) as E.
  { setoid_replace ((x * 2 ^ (52 - e) - (1 # 2)) * 2 ^ (e - 52))
      with (x * (2 ^ (52 - e) * 2 ^ (e - 52)) - (1 # 2) * 2 ^ (e - 52)) by ring.
    rewrite pow2_split. replace (52 - e + (e - 52))%Z with 0%Z by lia.
    replace (e - 52)%Z with (e - 53 + 1)%Z by lia. rewrite pow2_succ.
    change (2 ^ 0) with 1. field. }
  rewrite <- E. apply Qmult_le_compat_r; lra.
Qed.

(** An integer of at most 53 bits is kept by rounding. *)
Lemma round_integer (z : Z) :
  (0 < z)%Z -> (z <= 2 ^ 53)%Z -> Binary64.round (inject_Z z) == inject_Z z.
Proof.
  intros Hz Hmax.
  assert (0 < inject_Z z) as Hx by (change 0 with (inject_Z 0); now rewrite <- Zlt_Qlt).
  rewrite round_positive by exact Hx. unfold Binary64.roundPositive.
  destruct (exponentOf_spec _ Hx) as [Hlow Hhigh].
  set (e := Binary64.exponentOf (inject_Z z)) in *.
  assert (inject_Z z <= 2 ^ 53) as Hq.
  { change 2 with (inject_Z 2). rewrite <- Zpower_Qpower by lia. now rewrite <- Zle_Qle. }
  assert (e <= 53)%Z as He.
  { assert (2 ^ e < 2 ^ 54) as H.
    { eapply Qle_lt_trans; [exact Hlow|]. eapply Qle_lt_trans; [exact Hq|].
      vm_compute. reflexivity. }
    apply Qpower_lt_compat_l_inv in H; [lia | reflexivity]. }
  destruct (Z.eq_dec e 53) as [E|Hne].
  - assert (inject_Z z == 2 ^ 53) as Ez.
    { rewrite E in Hlow. lra. }
    rewrite E.
    assert (Binary64.roundHalfEven (inject_Z z * 2 ^ (52 - 53))
            = Binary64.roundHalfEven (inject_Z (2 ^ 52))) as ->.
    { apply Z.le_antisymm; apply roundHalfEven_mono; rewrite Ez; vm_compute; discriminate. }
    rewrite roundHalfEven_Z, Ez. vm_compute. reflexivity.
  - assert (inject_Z z * 2 ^ (52 - e) == inject_Z (z * 2 ^ (52 - e))) as Ey.
    { rewrite inject_Z_mult, Zpower_Qpower by lia. reflexivity. }
    assert (Binary64.roundHalfEven (inject_Z z * 2 ^ (52 - e))
            = Binary64.roundHalfEven (inject_Z (z * 2 ^ (52 - e)))) as ->.
    { apply Z.le_antisymm; apply roundHalfEven_mono; rewrite Ey; apply Qle_refl. }
    rewrite roundHalfEven_Z, <- Ey.
    setoid_replace (inject_Z z * 2 ^ (52 - e) * 2 ^ (e - 52))
      with (inject_Z z * (2 ^ (52 - e) * 2 ^ (e - 52))) by ring.
    rewrite pow2_split. replace (52 - e + (e - 52))%Z with 0%Z by lia.
    change (2 ^ 0) with 1. ring.
Qed.

Lemma ceilDiv_spec (a b : Z) :
  (0 < b -> b * (Pagination.ceilDiv a b - 1) < a <= b * Pagination.ceilDiv a b)%Z.
Proof.
  intros Hb. unfold Pagination.ceilDiv.
  pose proof (Z.div_mod (- a) b ltac:(lia)) as E.
  pose proof (Z.mod_pos_bound (- a) b Hb) as M. nia.
Qed.

(** Up to 2^53 results, the quotient rounded to binary64 has the ceiling of
    the exact quotient. *)
Lemma pagesFor_exact (count : Z) :
  (0 <= count)%Z -> (count <= 2 ^ 53)%Z ->
  Pagination.pagesFor count = Pagination.ceilDiv count 50.
Proof.
  intros Hcount Hmax. unfold Pagination.pagesFor.
  destruct (Z.eq_dec count 0) as [->|Hne]; [reflexivity|].
  pose proof (ceilDiv_spec count 50 ltac:(lia)) as [Hlow Hhigh].
  set (k := Pagination.ceilDiv count 50) in *.
  set (x := inject_Z count / 50).
  assert (0 < x) as Hx by (apply (quotient_pos count 50); lia).
  assert (inject_Z (k - 1) + (1 # 50) <= x) as Hlowq.
  { unfold x. apply Qle_shift_div_l; [reflexivity|].
    assert (50 * (k - 1) + 1 <= count)%Z as H by lia.
    rewrite Zle_Qle in H. rewrite inject_Z_plus, inject_Z_mult in H.
    change (inject_Z 50) with 50 in H. change (inject_Z 1) with 1 in H.
    setoid_replace ((inject_Z (k - 1) + (1 # 50)) * 50)
      with (50 * inject_Z (k - 1) + 1) by ring.
    exact H. }
  assert (x <= inject_Z k) as Hhighq.
  { unfold x. apply Qle_shift_div_r; [reflexivity|].
    rewrite Zle_Qle in Hhigh. rewrite inject_Z_mult in Hhigh.
    change (inject_Z 50) with 50 in Hhigh. lra. }
  assert (k <= 180143985094820)%Z as Hk.
  { change (2 ^ 53)%Z with 9007199254740992%Z in Hmax. lia. }
  assert (Binary64.round x <= inject_Z k) as Hup.
  { rewrite <- (round_integer k); [now apply round_mono | lia |].
    change (2 ^ 53)%Z with 9007199254740992%Z. lia. }
  assert (inject_Z (k - 1) < Binary64.round x) as Hdown.
  { destruct (exponentOf_spec x Hx) as [He _].
    assert (Binary64.exponentOf x <= 47)%Z as He47.
    { assert (2 ^ Binary64.exponentOf x < 2 ^ 48) as H.
      { eapply Qle_lt_trans; [exact He|]. eapply Qle_lt_trans; [exact Hhighq|].
        rewrite Zle_Qle in Hk. eapply Qle_lt_trans; [exact Hk|]. vm_compute. reflexivity. }
      apply Qpower_lt_compat_l_inv in H; [lia | reflexivity]. }
    assert (2 ^ (Binary64.exponentOf x - 53) <= 1 # 64) as Hulp.
    { change (1 # 64) with (2 ^ (-6)). apply Qpower_le_compat_l; [lia | discriminate]. }
    pose proof (round_near x Hx) as Hnear. lra. }
  apply Z.le_antisymm.
  - pose proof (Qceiling_lt (Binary64.round x)) as H.
    assert (inject_Z (Qceiling (Binary64.round x) - 1) < inject_Z k) as H' by lra.
    rewrite <- Zlt_Qlt in H'. lia.
  - pose proof (Qle_ceiling (Binary64.round x)) as H.
    assert (inject_Z (k - 1) < inject_Z (Qceiling (Binary64.round x))) as H' by lra.
    rewrite <- Zlt_Qlt in H'. lia.
Qed.

End Rounding.

(** ** Numbers read from the page *)

Lemma takeWhile_all (p : N -> bool) (s : jsstring) :
  Forall (fun c => p c = true) (takeWhile p s).
Proof.
  induction s as [|c s IH]; [constructor|]. cbn [takeWhile].
  destruct (p c) eqn:E; constructor; assumption.
Qed.

Lemma digits_not_hexadecimal (ds : jsstring) :
  Forall (fun c => isDigit c = true) ds -> startsWithIgnoreCase (lit "0x") ds = false.
Proof.
  intros Hd. unfold startsWithIgnoreCase. change (length (lit "0x")) with 2%nat.
  destruct ds as [|c [|d rest]]; cbn [firstn map startsWith lit list_ascii_of_string].
  - reflexivity.
  - apply andb_false_r.
  - assert (isDigit d = true) as Hdigit
      by (inversion Hd as [|? ? _ Hrest]; now inversion Hrest).
    apply digit_cases in Hdigit.
    repeat (destruct Hdigit as [->|Hdigit]; [apply andb_false_r|]).
    subst. apply andb_false_r.
Qed.

(** [parseInt] of decimal digits: the binary64 number nearest to their value. *)
Lemma parseInt_digits (ds : jsstring) :
  ds <> [] ->
  Forall (fun c => isDigit c = true) ds ->
  Pagination.parseInt ds = Number.ofDecimal false (digitsValue ds) 0.
Proof.
  intros Hne Hd. unfold Pagination.parseInt. rewrite (digits_head_fixed _ Hd).
  destruct ds as [|c rest]; [congruence|].
  rewrite (readSign_digit c rest) by now inversion Hd.
  rewrite (digits_not_hexadecimal _ Hd).
  rewrite <- (app_nil_r (c :: rest)) at 1.
  rewrite takeWhile_app_all; [reflexivity | exact Hd | discriminate].
Qed.

Lemma matchResultsAt_digits (s ds : jsstring) :
  Pagination.matchResultsAt s = Some ds ->
  ds <> [] /\ Forall (fun c => isDigit c = true) ds.
Proof.
  unfold Pagination.matchResultsAt. destruct (startsWithIgnoreCase _ s); [|discriminate].
  pose proof (takeWhile_all isDigit (dropWhile isWhiteSpace (skipn 8 s))) as H.
  destruct (takeWhile _ _) as [|c rest]; [discriminate|].
  intros [= <-]. split; [discriminate | exact H].
Qed.

Lemma matchResults_digits (text ds : jsstring) :
  Pagination.matchResults text = Some ds ->
  ds <> [] /\ Forall (fun c => isDigit c = true) ds.
Proof.
  induction text as [|c text IH]; cbn [Pagination.matchResults];
    destruct (Pagination.matchResultsAt _) as [found|] eqn:E;
    try discriminate; try exact IH.
  all: intros [= <-]; exact (matchResultsAt_digits _ _ E).
Qed.

Lemma firstResults_digits (texts : list jsstring) (ds : jsstring) :
  Pagination.firstResults texts = Some ds ->
  ds <> [] /\ Forall (fun c => isDigit c = true) ds.
Proof.
  induction texts as [|text texts IH]; [discriminate|]. cbn [Pagination.firstResults].
  destruct (Pagination.matchResults text) as [found|] eqn:E; [|exact IH].
  intros [= <-]. exact (matchResults_digits _ _ E).
Qed.

(** The count read from the page is an integer that is not negative, or
    [Infinity]. *)
Lemma extractTotalCount_integer_or_infinite (doc : Document) :
  (exists count, Number.toInteger (Pagination.extractTotalCount doc) = Some count
                 /\ 0 <= count)
  \/ Pagination.extractTotalCount doc = S754_infinity false.
Proof.
  unfold Pagination.extractTotalCount.
  destruct (Pagination.firstResults (elementTexts doc)) as [ds|] eqn:E.
  - destruct (firstResults_digits _ _ E) as (Hne & Hd).
    rewrite (parseInt_digits ds Hne Hd).
    exact (ofDecimal_integer_or_infinite false (digitsValue ds)).
  - left. exists 0. split; [reflexivity | lia].
Qed.

(** ** Amounts *)














Example groupThousands_examples :
  map Number.groupThousands
      [lit "7"; lit "123"; lit "1234"; lit "123456"; lit "1234567"]
  = [lit "7"; lit "123"; lit "1,234"; lit "123,456"; lit "1,234,567"].
Proof.
  reflexivity.
Qed.

Example formatAmount_examples :
  map formatAmount
      [VStr (lit "1234.5"); VNum (Number.ofZ 1000); VStr (lit " -12.345e2 EGP");
       VStr (lit ".5"); VStr (lit "0.125"); VUndefined; VStr []; VBool true;
       VArr [VNum (Number.ofZ 5); VObj []];
       VArr [VNum (Number.ofZ 5); VObj [(lit "toString", VNum (Number.ofZ 1))]]]
  = [Ok (lit "1,234.50"); Ok (lit "1,000.00"); Ok (lit "-1,234.50");
     Ok (lit "0.50"); Ok (lit "0.13"); Ok []; Ok []; Ok (lit "NaN");
     Ok (lit "5.00"); Throw typeError].
Proof.
  vm_compute. reflexivity.
Qed.




(** ** Normalizing an item of the API *)

Lemma get_ok_inv (item : jsval) (key : string) (v : jsval) :
  get item key = Ok v -> forall key', exists v', get item key' = Ok v'.
Proof.
  destruct item; simpl; intros H key'; try discriminate; eauto.
Qed.

Lemma normalizeApiItem_ok_inv (rpp page index : Z) (item : jsval) (record : InvoiceRecord) :
  normalizeApiItem rpp page item index = Ok record ->
  exists uuid id internalId total link,
    get item "uuid" = Ok uuid
    /\ get item "id" = Ok id
    /\ get item "internalId" = Ok internalId
    /\ get item "totalAmount" = Ok total
    /\ generateExternalLink item = Ok link
    /\ serialNumber record = (page - 1) * rpp + index + 1
    /\ pageNumber record = Some page
    /\ electronicNumber record = orElse uuid (orElse id (VStr []))
    /\ internalNumber record = orElse internalId (VStr [])
    /\ (exists text, formatAmount total = Ok text /\ totalAmount record = VStr text)
    /\ externalLink record = link.
Proof.
  unfold normalizeApiItem, bind. intros H.
  destruct (get item "uuid") as [uuid|] eqn:E1; [|discriminate].
  destruct (get item "id") as [id|] eqn:E2; [|discriminate].
  destruct (get item "internalId") as [internalId|] eqn:E3; [|discriminate].
  destruct (get item "status") as [status|] eqn:E4; [|discriminate].
  destruct (parseStatus status) as [translated|] eqn:E5; [|discriminate].
  destruct (get item "totalAmount") as [total|] eqn:E6; [|discriminate].
  destruct (formatAmount total) as [totalText|] eqn:E7; [|discriminate].
  destruct (get item "totalSalesAmount") as [sales|] eqn:E8; [|discriminate].
  destruct (formatAmount sales) as [salesText|] eqn:E9; [|discriminate].
  destruct (get item "totalTaxableFees") as [fees|] eqn:E10; [|discriminate].
  destruct (formatAmount fees) as [feesText|] eqn:E11; [|discriminate].
  destruct (generateExternalLink item) as [link|] eqn:E12; [|discriminate].
  injection H as <-. exists uuid, id, internalId, total, link. cbn.
  repeat split; auto. now exists totalText.
Qed.

(** C10, as the code has it: the link is built from the item's [uuid] alone.
    When the uuid is present the record's electronicNumber is that uuid and
    the link is the base path, the uuid, ["/share/"] and the first 26 code
    units of the uuid; when the uuid is absent the link is empty, whatever the
    electronicNumber is. *)
Theorem externalLink_built_from_uuid (rpp page index : Z) (item : jsval)
  (record : InvoiceRecord) :
  normalizeApiItem rpp page item index = Ok record ->
  exists uuid,
    get item "uuid" = Ok uuid
    /\ (truthy uuid = true ->
        exists u,
          uuid = VStr u
          /\ electronicNumber record = VStr u
          /\ externalLink record
             = VStr (externalLinkBase ++ u ++ lit "/share/" ++ substring0 26 u))
    /\ (truthy uuid = false -> externalLink record = VStr [])
    /\ truthy (externalLink record) = truthy uuid.
Proof.
  intros H. apply normalizeApiItem_ok_inv in H.
  destruct H as (uuid & id & internalId & total & link & E1 & _ & _ & _ & E7 & _ & _ & En & _ & _ & El).
  exists uuid. split; [exact E1|].
  unfold generateExternalLink, bind in E7. rewrite E1 in E7.
  destruct (truthy uuid) eqn:T; cbn [negb] in E7.
  - destruct uuid as [| |b|x|u|l|o]; try discriminate.
    injection E7 as <-. repeat split.
    + intros _. exists u. repeat split; auto.
      rewrite En. unfold orElse. now rewrite T.
    + discriminate.
    + rewrite El. reflexivity.
  - injection E7 as <-. repeat split; try discriminate; rewrite El; reflexivity.
Qed.

Lemma externalLink_built_from_uuid_witness :
  exists record,
    normalizeApiItem 50 1 Examples.itemWithUuid 0 = Ok record
    /\ externalLink record
       = VStr (lit "https://invoicing.eta.gov.eg/documents/ABCDEFGHIJKLMNOPQRSTUVWXYZ0123/share/ABCDEFGHIJKLMNOPQRSTUVWXYZ").
Proof.
  destruct (normalizeApiItem 50 1 Examples.itemWithUuid 0) as [record|] eqn:E;
    [|discriminate E].
  exists record. split; [reflexivity|].
  destruct (externalLink_built_from_uuid 50 1 0 Examples.itemWithUuid record E)
    as (uuid & Hget & Hpresent & _).
  injection Hget as <-.
  destruct (Hpresent eq_refl) as (u & Hu & _ & Hlink).
  injection Hu as <-. exact Hlink.
Defined.

(** C10 as stated fails: an item with an [id] and no [uuid] gives a record
    whose electronicNumber is present and whose link is empty. *)
Lemma externalLink_absent_with_id_present :
  exists record,
    normalizeApiItem 50 1 Examples.itemWithIdOnly 0 = Ok record
    /\ electronicNumber record = VStr (lit "X1")
    /\ truthy (electronicNumber record) = true
    /\ externalLink record = VStr [].
Proof.
  eexists. repeat split.
Qed.

(** ** Fetching a page from the API *)

Lemma fetchPageDataViaAPI_eq (this : ContentScript) (env : Environment) (pageNumber : Z) :
  fetchPageDataViaAPI this env pageNumber
  = Ok (tryCatch (fetchPageBody this env pageNumber) (fun _ => [])).
Proof.
  unfold fetchPageDataViaAPI, tryCatch. now destruct (fetchPageBody this env pageNumber).
Qed.

Lemma promiseAll_settled {A : Type} (f : Z -> result A) (g : Z -> A) (pages : list Z) :
  (forall page, f page = Ok (g page)) ->
  promiseAll (map f pages) = Ok (map g pages).
Proof.
  intros H. induction pages as [|page rest IH]; simpl; [reflexivity|].
  rewrite H, IH. reflexivity.
Qed.

(** C6: the promise of [fetchPageDataViaAPI] is never rejected.  It is
    resolved with the empty sequence whenever its body fails: when [fetch]
    rejects, when the status of the response is not one of 200..299, when the
    body of the response is not JSON, when the JSON has not the expected shape.
    A batch of such promises is therefore never rejected either, and holds for
    each page the records of that page, none for a page that failed. *)
Theorem fetchPageDataViaAPI_never_raises (this : ContentScript) (env : Environment)
  (pageNumber : Z) :
  (exists records, fetchPageDataViaAPI this env pageNumber = Ok records)
  /\ (forall message,
        fetchPageBody this env pageNumber = Throw message ->
        fetchPageDataViaAPI this env pageNumber = Ok [])
  /\ (forall url message,
        buildAPIUrl this pageNumber = Ok url ->
        fetch env url = FetchRejected message ->
        fetchPageDataViaAPI this env pageNumber = Ok [])
  /\ (forall url status json,
        buildAPIUrl this pageNumber = Ok url ->
        fetch env url = FetchResponse status json ->
        status < 200 \/ 299 < status ->
        fetchPageDataViaAPI this env pageNumber = Ok [])
  /\ (forall url status message,
        buildAPIUrl this pageNumber = Ok url ->
        fetch env url = FetchResponse status (Throw message) ->
        fetchPageDataViaAPI this env pageNumber = Ok [])
  /\ (forall batch,
        promiseAll (map (fetchPageDataViaAPI this env) batch)
        = Ok (map (fun page => tryCatch (fetchPageBody this env page) (fun _ => [])) batch)).
Proof.
  repeat apply conj.
  - rewrite fetchPageDataViaAPI_eq. eauto.
  - intros message H. unfold fetchPageDataViaAPI. now rewrite H.
  - intros url message Hurl Hfetch.
    unfold fetchPageDataViaAPI, fetchPageBody, bind. now rewrite Hurl, Hfetch.
  - intros url status json Hurl Hfetch Hstatus.
    unfold fetchPageDataViaAPI, fetchPageBody, bind. rewrite Hurl, Hfetch.
    assert (responseOk status = false) as ->; [|reflexivity].
    unfold responseOk. apply andb_false_iff.
    destruct Hstatus; [left|right]; apply Z.leb_gt; lia.
  - intros url status message Hurl Hfetch.
    unfold fetchPageDataViaAPI, fetchPageBody, bind. rewrite Hurl, Hfetch.
    now destruct (negb (responseOk status)).
  - intros batch. apply promiseAll_settled. intros page. apply fetchPageDataViaAPI_eq.
Qed.

Lemma fetchPageDataViaAPI_never_raises_witness :
  fetchPageDataViaAPI (Examples.withApi 1 1) (Examples.answering 500 Examples.oneEmptyItem) 1
  = Ok [].
Proof.
  refine (proj1 (proj2 (proj2 (proj2
            (fetchPageDataViaAPI_never_raises
               (Examples.withApi 1 1) (Examples.answering 500 Examples.oneEmptyItem) 1))))
            _ 500 (Ok Examples.oneEmptyItem) _ _ _).
  - vm_compute. reflexivity.
  - reflexivity.
  - right. lia.
Defined.

(** ** Validity of the records *)

Lemma scanRowsFrom_valid (index : Z) (rows : list Row) :
  Forall (fun record => isValidInvoiceData record = true) (scanRowsFrom index rows).
Proof.
  revert index. induction rows as [|row rest IH]; intros index; simpl; [constructor|].
  destruct (isValidInvoiceData (extractDataFromRow row (index + 1))) eqn:E; auto.
Qed.

(** What the inspection stores, when the count it reads is finite. *)
Lemma extractPaginationInfo_some (this : ContentScript) (doc : Document)
  (inspected : ContentScript) :
  extractPaginationInfo this doc = Some inspected ->
  Number.toInteger (Pagination.extractTotalCount doc) = Some (totalCount inspected)
  /\ totalPages inspected = Pagination.pagesFor (totalCount inspected)
  /\ resultsPerPage inspected = 50
  /\ currentPage inspected = Pagination.extractCurrentPage doc
  /\ invoiceData inspected = invoiceData this
  /\ progressCallback inspected = progressCallback this
  /\ apiEndpoint inspected = apiEndpoint this
  /\ authHeaders inspected = authHeaders this.
Proof.
  unfold extractPaginationInfo.
  destruct (Number.toInteger (Pagination.extractTotalCount doc)) as [count|]; [|discriminate].
  intros [= <-]. repeat split.
Qed.

(** What the scan stores. *)
Lemma scanForInvoices_some (this : ContentScript) (doc : Document)
  (scanned : ContentScript) :
  scanForInvoices this doc = Some scanned ->
  exists inspected,
    extractPaginationInfo this doc = Some inspected
    /\ invoiceData scanned = scanRowsFrom 0 (getVisibleInvoiceRows doc)
    /\ totalCount scanned = totalCount inspected
    /\ totalPages scanned = totalPages inspected
    /\ resultsPerPage scanned = resultsPerPage inspected
    /\ currentPage scanned = currentPage inspected
    /\ progressCallback scanned = progressCallback inspected
    /\ apiEndpoint scanned = apiEndpoint inspected
    /\ authHeaders scanned = authHeaders inspected.
Proof.
  unfold scanForInvoices.
  destruct (extractPaginationInfo this doc) as [inspected|]; [|discriminate].
  intros [= <-]. exists inspected. repeat split.
Qed.

(** The scan stores no finite totals exactly when the inspection stores
    none. *)
Lemma scanForInvoices_none (this : ContentScript) (doc : Document) :
  scanForInvoices this doc = None <-> extractPaginationInfo this doc = None.
Proof.
  unfold scanForInvoices. destruct (extractPaginationInfo this doc); split;
    congruence.
Qed.

(** A scan keeps the callback, the endpoint and the token. *)
Lemma scanForInvoices_keeps (this : ContentScript) (doc : Document)
  (scanned : ContentScript) :
  scanForInvoices this doc = Some scanned ->
  progressCallback scanned = progressCallback this
  /\ apiEndpoint scanned = apiEndpoint this
  /\ authHeaders scanned = authHeaders this.
Proof.
  intros H.
  destruct (scanForInvoices_some this doc scanned H)
    as (inspected & Hinspected & _ & _ & _ & _ & _ & -> & -> & ->).
  destruct (extractPaginationInfo_some this doc inspected Hinspected)
    as (_ & _ & _ & _ & _ & -> & -> & ->).
  repeat split.
Qed.

(** The records of the visible-page scan are valid. *)
Lemma scanForInvoices_valid (this : ContentScript) (doc : Document)
  (scanned : ContentScript) :
  scanForInvoices this doc = Some scanned ->
  Forall (fun record => isValidInvoiceData record = true) (invoiceData scanned).
Proof.
  intros H. destruct (scanForInvoices_some this doc scanned H) as (_ & _ & -> & _).
  apply scanRowsFrom_valid.
Qed.

Lemma setPage_valid (invoice : InvoiceRecord) (page serial : Z) :
  isValidInvoiceData (setPage invoice page serial) = isValidInvoiceData invoice.
Proof.
  reflexivity.
Qed.

Lemma extractRowsFrom_valid (rpp page index : Z) (rows : list Row) :
  Forall (fun record => isValidInvoiceData record = true)
         (extractRowsFrom rpp page index rows).
Proof.
  revert index. induction rows as [|row rest IH]; intros index; simpl; [constructor|].
  destruct (isValidInvoiceData (extractDataFromRow row (index + 1))) eqn:E; auto.
Qed.

Lemma pageRecords_valid (this : ContentScript) (env : Environment) (page : Z) :
  apiKnown this = false ->
  Forall (fun record => isValidInvoiceData record = true) (pageRecords this env page).
Proof.
  intros K. unfold pageRecords, firstEventData. rewrite K.
  destruct (frameEvent env page) as [[iframeDoc|]| |]; try constructor.
  apply extractRowsFrom_valid.
Qed.

(** C1 fails on the API path: the body [{"items": [{}]}] of the only page
    gives a successful result that holds a record whose electronicNumber,
    internalNumber and totalAmount are all empty.  [parseAPIResponse] keeps
    every item; the two paths that read the rendered page drop such a record
    ([isValidInvoiceData]). *)
Theorem api_path_returns_invalid_record :
  exists acquired record,
    returned (getAllPagesData (Examples.withApi 1 1)
                (Examples.answering 200 Examples.oneEmptyItem)) = Ok acquired
    /\ success acquired = true
    /\ data acquired = [record]
    /\ electronicNumber record = VStr []
    /\ internalNumber record = VStr []
    /\ totalAmount record = VStr []
    /\ isValidInvoiceData record = false.
Proof.
  eexists. eexists. split; [vm_compute; reflexivity|]. repeat split.
Qed.

(** ** Loading a page in an invisible frame *)

Lemma dispatch_initial (rpp page : Z) (ev : FrameEvent) :
  Frame.dispatch rpp page Frame.initial ev
  = {| Frame.attached := false;
       Frame.timer := None;
       Frame.settled := Some (firstEventData rpp page ev);
       Frame.teardowns := 1;
       Frame.uncaught := 0 |}.
Proof.
  destruct ev as [[iframeDoc|message]| |]; reflexivity.
Qed.

Lemma dispatch_tornDown (rpp page : Z) (data : list InvoiceRecord)
  (s : Frame.FrameState) (ev : FrameEvent) :
  tornDown data s ->
  Frame.deliverable s ev = true ->
  tornDown data (Frame.dispatch rpp page s ev).
Proof.
  intros (Ha & Ht & Hs & Hn) Hd. destruct s as [a t st n u]. simpl in *. subst.
  destruct ev as [[iframeDoc|message]| |]; simpl in Hd; try discriminate;
    repeat split.
Qed.

Lemma run_tornDown (rpp page : Z) (data : list InvoiceRecord)
  (evs : list FrameEvent) (s s' : Frame.FrameState) :
  tornDown data s ->
  Frame.run rpp page s evs = Some s' ->
  tornDown data s'.
Proof.
  revert s. induction evs as [|ev rest IH]; intros s Hs Hrun; simpl in Hrun.
  - now injection Hrun as <-.
  - destruct (Frame.deliverable s ev) eqn:Hd; [|discriminate].
    eapply IH; [|exact Hrun]. now apply dispatch_tornDown.
Qed.

(** C7: a frame is created attached with its timer armed for 10000 ms.
    Whatever sequence of events the browser delivers to it, the frame is
    removed at most once; after the first event, whichever it is (a load whose
    document is read and extracted, a load whose document cannot be read, a
    load error, the expiry of the timer), it has been removed exactly once and
    is no longer attached, its timer is disarmed, and its promise is resolved:
    with the records extracted when the load succeeded, with the empty
    sequence otherwise, so with the empty sequence when the timer expires
    before the load. *)
Theorem loadPageInIframe_tears_down_once (rpp page : Z) (evs : list FrameEvent)
  (s : Frame.FrameState) :
  Frame.run rpp page Frame.initial evs = Some s ->
  Frame.attached Frame.initial = true
  /\ Frame.timer Frame.initial = Some 10000
  /\ (Frame.teardowns s <= 1)%nat
  /\ (forall ev rest,
        evs = ev :: rest ->
        Frame.attached s = false
        /\ Frame.teardowns s = 1%nat
        /\ Frame.timer s = None
        /\ Frame.settled s = Some (firstEventData rpp page ev))
  /\ (forall rest, evs = TimerFired :: rest -> Frame.settled s = Some [])
  /\ (forall iframeDoc rest,
        evs = Load (Ok iframeDoc) :: rest ->
        Frame.settled s = Some (extractDataFromDocument rpp iframeDoc page)).
Proof.
  intros Hrun.
  assert (forall ev rest, evs = ev :: rest -> tornDown (firstEventData rpp page ev) s)
    as Hdone.
  { intros ev rest ->. simpl in Hrun.
    assert (Frame.deliverable Frame.initial ev = true) as Hd by (now destruct ev).
    rewrite Hd in Hrun.
    eapply run_tornDown; [|exact Hrun].
    rewrite dispatch_initial. repeat split. }
  repeat apply conj; try reflexivity.
  - destruct evs as [|ev rest].
    + simpl in Hrun. injection Hrun as <-. simpl. lia.
    + destruct (Hdone ev rest eq_refl) as (_ & _ & _ & ->). lia.
  - intros ev rest E. destruct (Hdone ev rest E) as (Ha & Ht & Hs & Hn). auto.
  - intros rest E. now destruct (Hdone _ _ E) as (_ & _ & Hs & _).
  - intros iframeDoc rest E. now destruct (Hdone _ _ E) as (_ & _ & Hs & _).
Qed.

Lemma loadPageInIframe_tears_down_once_witness :
  Frame.settled (Frame.dispatch 50 3 Frame.initial TimerFired) = Some [].
Proof.
  refine (proj1 (proj2 (proj2 (proj2 (proj2
            (loadPageInIframe_tears_down_once 50 3 [TimerFired]
               (Frame.dispatch 50 3 Frame.initial TimerFired) _))))) [] eq_refl).
  reflexivity.
Defined.

Lemma loadPageInIframe_eq (this : ContentScript) (env : Environment) (url : Url) (page : Z) :
  loadPageInIframe this env url page
  = firstEventData (resultsPerPage this) page (frameEvent env url).
Proof.
  unfold loadPageInIframe. now rewrite dispatch_initial.
Qed.

(** ** The loops *)

Lemma range_S (first : Z) (count : nat) :
  range first (S count) = first :: range (first + 1) count.
Proof.
  unfold range. cbn [seq map]. rewrite Z.add_0_r. f_equal.
  rewrite <- seq_shift, map_map. apply map_ext. intros k. lia.
Qed.

Lemma range_app (first : Z) (a b : nat) :
  range first (a + b) = range first a ++ range (first + Z.of_nat a) b.
Proof.
  revert first. induction a as [|a IH]; intros first.
  - cbn [Nat.add Z.of_nat range seq map app]. now rewrite Z.add_0_r.
  - cbn [Nat.add]. rewrite !range_S, IH. cbn [app]. do 3 f_equal. lia.
Qed.

Lemma range_length (first : Z) (count : nat) : length (range first count) = count.
Proof.
  unfold range. now rewrite length_map, length_seq.
Qed.

Lemma In_range (page first : Z) (count : nat) :
  In page (range first count) <-> first <= page < first + Z.of_nat count.
Proof.
  unfold range. rewrite in_map_iff. split.
  - intros (k & <- & Hk). apply in_seq in Hk. lia.
  - intros H. exists (Z.to_nat (page - first)). split; [lia|]. apply in_seq. lia.
Qed.

Lemma pageUrlsFrom_range (fuel : nat) (page n : Z) :
  (Z.to_nat (n - page + 1) <= fuel)%nat ->
  pageUrlsFrom fuel page n = range page (Z.to_nat (n - page + 1)).
Proof.
  revert page. induction fuel as [|fuel IH]; intros page Hfuel.
  - replace (Z.to_nat (n - page + 1)) with 0%nat by lia. reflexivity.
  - cbn [pageUrlsFrom]. destruct (page <=? n) eqn:E.
    + apply Z.leb_le in E.
      replace (Z.to_nat (n - page + 1)) with (S (Z.to_nat (n - (page + 1) + 1))) by lia.
      rewrite range_S, IH by lia. reflexivity.
    + apply Z.leb_gt in E.
      replace (Z.to_nat (n - page + 1)) with 0%nat by lia. reflexivity.
Qed.

(** [generateAllPageUrls] gives the urls of the pages 1 .. [totalPages]. *)
Lemma generateAllPageUrls_eq (this : ContentScript) :
  generateAllPageUrls this = allPages this.
Proof.
  unfold generateAllPageUrls, allPages. rewrite pageUrlsFrom_range by lia.
  f_equal. lia.
Qed.

Lemma apiBatch_range (fuel : nat) (page i n : Z) :
  (Z.to_nat (Z.min (apiBatchSize - i) (n - page - i + 1)) <= fuel)%nat ->
  apiBatch fuel page i n
  = range (page + i) (Z.to_nat (Z.min (apiBatchSize - i) (n - page - i + 1))).
Proof.
  unfold apiBatchSize. revert i. induction fuel as [|fuel IH]; intros i Hfuel.
  - replace (Z.to_nat _) with 0%nat by lia. reflexivity.
  - cbn [apiBatch]. unfold apiBatchSize.
    destruct (i <? 10) eqn:E1; [destruct (page + i <=? n) eqn:E2|]; cbn [andb].
    + apply Z.ltb_lt in E1. apply Z.leb_le in E2.
      replace (Z.to_nat (Z.min (10 - i) (n - page - i + 1)))
        with (S (Z.to_nat (Z.min (10 - (i + 1)) (n - page - (i + 1) + 1)))) by lia.
      rewrite range_S, IH by lia. do 2 f_equal. lia.
    + apply Z.leb_gt in E2. replace (Z.to_nat _) with 0%nat by lia. reflexivity.
    + apply Z.ltb_ge in E1. replace (Z.to_nat _) with 0%nat by lia. reflexivity.
Qed.

Lemma apiBatches_concat (fuel : nat) (page n : Z) :
  (Z.to_nat (n - page + 1) <= fuel)%nat ->
  concat (apiBatches fuel page n) = range page (Z.to_nat (n - page + 1)).
Proof.
  revert page. induction fuel as [|fuel IH]; intros page Hfuel.
  - replace (Z.to_nat (n - page + 1)) with 0%nat by lia. reflexivity.
  - cbn [apiBatches]. destruct (page <=? n) eqn:E.
    + apply Z.leb_le in E. cbn [concat].
      rewrite apiBatch_range by (unfold apiBatchSize; lia).
      rewrite IH by (unfold apiBatchSize; lia).
      unfold apiBatchSize. rewrite Z.add_0_r.
      replace (Z.to_nat (n - page + 1))
        with (Z.to_nat (Z.min (10 - 0) (n - page - 0 + 1)) + Z.to_nat (n - (page + 10) + 1))%nat
        by lia.
      rewrite range_app. f_equal.
      destruct (Z.le_gt_cases (page + 10) n) as [H|H].
      * f_equal. lia.
      * replace (Z.to_nat (n - (page + 10) + 1)) with 0%nat by lia. reflexivity.
    + apply Z.leb_gt in E.
      replace (Z.to_nat (n - page + 1)) with 0%nat by lia. reflexivity.
Qed.

(** The batches of [getAllPagesViaAPI] hold the pages 1 .. [totalPages], in
    order. *)
Lemma apiPageBatches_concat (this : ContentScript) :
  concat (apiPageBatches this) = allPages this.
Proof.
  unfold apiPageBatches, allPages. rewrite apiBatches_concat by lia. f_equal. lia.
Qed.

Lemma concat_map_map {A B : Type} (f : A -> list B) (batches : list (list A)) :
  concat (concat (map (map f) batches)) = concat (map f (concat batches)).
Proof.
  induction batches as [|batch rest IH]; [reflexivity|].
  cbn [map concat]. rewrite concat_app, map_app, concat_app, IH. reflexivity.
Qed.

Lemma promiseAll_batches (this : ContentScript) (env : Environment)
  (batches : list (list Z)) :
  promiseAll
    (map (fun batch => promiseAll (map (fetchPageDataViaAPI this env) batch)) batches)
  = Ok (map (map (fun page => tryCatch (fetchPageBody this env page) (fun _ => [])))
            batches).
Proof.
  induction batches as [|batch rest IH]; [reflexivity|].
  cbn [map promiseAll].
  rewrite (promiseAll_settled _ _ batch (fetchPageDataViaAPI_eq this env)).
  cbn [bind]. rewrite IH. reflexivity.
Qed.

(** The API path always succeeds; its data hold the records of the pages
    1 .. [totalPages] in page order, and it starts every page before it awaits
    any. *)
Lemma getAllPagesViaAPI_eq (this : ContentScript) (env : Environment) :
  getAllPagesViaAPI this env
  = (let allData :=
       concat (map (fun page => tryCatch (fetchPageBody this env page) (fun _ => []))
                   (allPages this)) in
     Ok {| success := true;
           data := allData;
           totalProcessed := Some (Z.of_nat (length allData));
           expectedTotal := Some (totalCount this);
           error := None |},
     map Started (allPages this) ++ [Awaited (allPages this)]).
Proof.
  unfold getAllPagesViaAPI. rewrite promiseAll_batches. cbn [bind].
  rewrite concat_map_map, apiPageBatches_concat. reflexivity.
Qed.

Lemma loadPagesLoop_step (fuel : nat) (this : ContentScript) (env : Environment)
  (urls : list Url) (i : nat) (st : LoopState) :
  loadPagesLoop (S fuel) this env urls i st
  = if (i <? length urls)%nat then
      match progressCallback this with
      | Some callback =>
          match callback (progressAt urls i) with
          | Ok _ =>
              loadPagesLoop fuel this env urls (i + domBatchSize)
                (afterBatch this env urls i st)
          | Throw message => (Throw message, afterBatch this env urls i st)
          end
      | None =>
          loadPagesLoop fuel this env urls (i + domBatchSize)
            (afterBatch this env urls i st)
      end
    else (Ok tt, st).
Proof.
  cbn [loadPagesLoop]. unfold afterBatch.
  destruct (i <? length urls)%nat; [|reflexivity].
  destruct (progressCallback this) as [callback|]; reflexivity.
Qed.

(** What holds of the local state at offset 0 and is kept by every batch
    holds when the loop ends; when it ends normally, all urls were taken. *)
Lemma loadPagesLoop_invariant (Inv : nat -> LoopState -> Prop)
  (this : ContentScript) (env : Environment) (urls : list Url) :
  (forall i st,
     (i < length urls)%nat -> Inv i st ->
     Inv (i + domBatchSize)%nat (afterBatch this env urls i st)) ->
  forall fuel i st r st',
    loadPagesLoop fuel this env urls i st = (r, st') ->
    (length urls <= i + domBatchSize * fuel)%nat ->
    Inv i st ->
    exists j, Inv j st' /\ (r = Ok tt -> (length urls <= j)%nat).
Proof.
  intros Hstep. induction fuel as [|fuel IH]; intros i st r st' Hrun Hfuel Hinv.
  - cbn [loadPagesLoop] in Hrun. injection Hrun as <- <-.
    exists i. split; [exact Hinv|]. intros _. lia.
  - rewrite loadPagesLoop_step in Hrun. destruct (i <? length urls)%nat eqn:E.
    + apply Nat.ltb_lt in E. pose proof (Hstep i st E Hinv) as Hnext.
      destruct (progressCallback this) as [callback|].
      * destruct (callback (progressAt urls i)).
        -- eapply IH; [exact Hrun | unfold domBatchSize in *; lia | exact Hnext].
        -- injection Hrun as <- <-. exists (i + domBatchSize)%nat.
           split; [exact Hnext | discriminate].
      * eapply IH; [exact Hrun | unfold domBatchSize in *; lia | exact Hnext].
    + apply Nat.ltb_ge in E. injection Hrun as <- <-.
      exists i. split; [exact Hinv|]. intros _. exact E.
Qed.

Lemma firstn_plus {A : Type} (i k : nat) (l : list A) :
  firstn (i + k) l = firstn i l ++ firstn k (skipn i l).
Proof.
  revert l. induction i as [|i IH]; intros l; [reflexivity|].
  destruct l as [|x l]; cbn [Nat.add firstn skipn app].
  - now rewrite firstn_nil.
  - now rewrite IH.
Qed.

Lemma mapIndexed_app {A B : Type} (f : A -> nat -> B) (k : nat) (a b : list A) :
  mapIndexed f k (a ++ b) = mapIndexed f k a ++ mapIndexed f (k + length a) b.
Proof.
  revert k. induction a as [|x a IH]; intros k; cbn [app mapIndexed length].
  - now rewrite Nat.add_0_r.
  - rewrite IH. do 3 f_equal. lia.
Qed.

Lemma mapIndexed_shift {A B : Type} (g : A -> nat -> B) (k j : nat) (l : list A) :
  mapIndexed (fun x index => g x (k + index)%nat) j l = mapIndexed g (k + j) l.
Proof.
  revert j. induction l as [|x l IH]; intros j; cbn [mapIndexed]; [reflexivity|].
  rewrite IH. do 2 f_equal. lia.
Qed.

Lemma mapIndexed_range {B : Type} (g : Z -> nat -> B) (k : nat) (first : Z) (count : nat) :
  mapIndexed g k (range first count)
  = map (fun page => g page (k + Z.to_nat (page - first))%nat) (range first count).
Proof.
  revert k first. induction count as [|count IH]; intros k first; [reflexivity|].
  rewrite range_S. cbn [mapIndexed map]. rewrite IH. f_equal.
  - f_equal. lia.
  - apply map_ext_in. intros page Hpage. apply In_range in Hpage. f_equal. lia.
Qed.

Lemma mapIndexed_const {A B : Type} (g : nat -> B) (k : nat) (l : list A) :
  mapIndexed (fun _ index => g index) k l = map g (seq k (length l)).
Proof.
  revert k. induction l as [|x l IH]; intros k; cbn [mapIndexed length seq map];
    [reflexivity|]. now rewrite IH.
Qed.

(** The batch at offset [i] holds the pages after the first [i], five of them
    or those that are left. *)
Lemma batchPages_range (urls : list Url) (i : nat) :
  batchPages urls i = range (Z.of_nat i + 1) (Nat.min domBatchSize (length urls - i)).
Proof.
  unfold batchPages. rewrite mapIndexed_const.
  rewrite length_firstn, length_skipn. unfold range.
  apply map_ext. intros k. lia.
Qed.

Lemma startedPages_app (a b : list Event) :
  startedPages (a ++ b) = startedPages a ++ startedPages b.
Proof.
  induction a as [|[page|pages|progress] a IH]; cbn [app startedPages]; auto.
  now rewrite IH.
Qed.

Lemma startedPages_Started (pages : list Z) : startedPages (map Started pages) = pages.
Proof.
  induction pages as [|page rest IH]; cbn [map startedPages]; [reflexivity|].
  now rewrite IH.
Qed.

Lemma reports_app (a b : list Event) : reports (a ++ b) = reports a ++ reports b.
Proof.
  induction a as [|[page|pages|progress] a IH]; cbn [app reports]; auto.
  now rewrite IH.
Qed.

Lemma reports_Started (pages : list Z) : reports (map Started pages) = [].
Proof.
  induction pages as [|page rest IH]; cbn [map reports]; auto.
Qed.

Lemma afterBatch_results (this : ContentScript) (env : Environment) (urls : list Url)
  (i : nat) (st : LoopState) :
  results (afterBatch this env urls i st)
  = results st
    ++ concat (mapIndexed (fun url index =>
                             loadPageInIframe this env url (Z.of_nat (i + index + 1)))
                          0 (firstn domBatchSize (skipn i urls))).
Proof.
  unfold afterBatch. now destruct (progressCallback this).
Qed.

Lemma afterBatch_started (this : ContentScript) (env : Environment) (urls : list Url)
  (i : nat) (st : LoopState) :
  startedPages (events (afterBatch this env urls i st))
  = startedPages (events st) ++ batchPages urls i.
Proof.
  unfold afterBatch. destruct (progressCallback this); cbn [events];
    rewrite ?startedPages_app, startedPages_Started; cbn [startedPages];
    now rewrite ?app_nil_r.
Qed.

Lemma afterBatch_reports (this : ContentScript) (env : Environment) (urls : list Url)
  (i : nat) (st : LoopState) :
  reports (events (afterBatch this env urls i st))
  = reports (events st)
    ++ match progressCallback this with
       | Some _ => [progressAt urls i]
       | None => []
       end.
Proof.
  unfold afterBatch. destruct (progressCallback this); cbn [events];
    rewrite ?reports_app, reports_Started; cbn [reports app];
    now rewrite ?app_nil_r.
Qed.

(** The run of [loadPagesInParallel] over the urls of the pages 1 .. n: what
    its local state holds when it ends, normally or not. *)
Lemma loadPagesRun_state (this : ContentScript) (env : Environment) (urls : list Url)
  (r : result unit) (st : LoopState) :
  loadPagesRun this env urls = (r, st) ->
  exists j,
    results st
    = concat (mapIndexed (fun url index =>
                            loadPageInIframe this env url (Z.of_nat (index + 1)))
                         0 (firstn j urls))
    /\ startedPages (events st) = range 1 (Nat.min j (length urls))
    /\ (r = Ok tt -> (length urls <= j)%nat).
Proof.
  intros Hrun. unfold loadPagesRun in Hrun.
  pose (Inv := fun (i : nat) (st : LoopState) =>
    results st
    = concat (mapIndexed (fun url index =>
                            loadPageInIframe this env url (Z.of_nat (index + 1)))
                         0 (firstn i urls))
    /\ startedPages (events st) = range 1 (Nat.min i (length urls))).
  assert (forall i st0, (i < length urls)%nat -> Inv i st0 ->
            Inv (i + domBatchSize)%nat (afterBatch this env urls i st0)) as Hstep.
  { intros i st0 Hi (R & S). split.
    + rewrite afterBatch_results, R, firstn_plus, mapIndexed_app, concat_app.
      f_equal. f_equal. rewrite length_firstn.
      replace (0 + Nat.min i (length urls))%nat with (i + 0)%nat by lia.
      rewrite <- (mapIndexed_shift
                    (fun url index => loadPageInIframe this env url (Z.of_nat (index + 1)))
                    i 0).
      reflexivity.
    + rewrite afterBatch_started, S, batchPages_range.
      replace (Nat.min (i + domBatchSize) (length urls))
        with (Nat.min i (length urls) + Nat.min domBatchSize (length urls - i))%nat
        by (unfold domBatchSize; lia).
      rewrite range_app. do 2 f_equal. lia. }
  destruct (loadPagesLoop_invariant Inv this env urls Hstep _ _ _ _ _ Hrun)
    as (j & (H1 & H2) & H3).
  - unfold domBatchSize. lia.
  - split; reflexivity.
  - exists j. auto.
Qed.

Lemma loadPages_allPages (this : ContentScript) (env : Environment) :
  concat (mapIndexed (fun url index =>
                        loadPageInIframe this env url (Z.of_nat (index + 1)))
                     0 (allPages this))
  = concat (map (fun page =>
                   firstEventData (resultsPerPage this) page (frameEvent env page))
                (allPages this)).
Proof.
  unfold allPages. rewrite mapIndexed_range. f_equal.
  apply map_ext_in. intros page Hpage. apply In_range in Hpage.
  rewrite loadPageInIframe_eq. do 2 f_equal. lia.
Qed.

(** The path through the frames, when it ends normally: its data hold the
    records of the pages 1 .. [totalPages] in page order, and these are the
    pages it starts. *)
Lemma getAllPagesViaOptimizedDOM_ok (this : ContentScript) (env : Environment)
  (acquired : AcquisitionResult) (tr : list Event) :
  getAllPagesViaOptimizedDOM this env = (Ok acquired, tr) ->
  success acquired = true
  /\ data acquired
     = concat (map (fun page =>
                      firstEventData (resultsPerPage this) page (frameEvent env page))
                   (allPages this))
  /\ expectedTotal acquired = Some (totalCount this)
  /\ startedPages tr = allPages this.
Proof.
  unfold getAllPagesViaOptimizedDOM, loadPagesInParallel.
  rewrite generateAllPageUrls_eq.
  destruct (loadPagesRun this env (allPages this)) as [[[]|message] st] eqn:Hrun;
    [|discriminate].
  intros H. injection H as <- <-. cbn [success data expectedTotal].
  destruct (loadPagesRun_state _ _ _ _ _ Hrun) as (j & R & S & Hj).
  specialize (Hj eq_refl).
  rewrite firstn_all2 in R by exact Hj. rewrite Nat.min_r in S by exact Hj.
  repeat split.
  - rewrite R. apply loadPages_allPages.
  - rewrite S. unfold allPages. now rewrite range_length.
Qed.

Lemma apiKnown_setProcessing (this : ContentScript) (flag : bool)
  (pages : list InvoiceRecord) :
  apiKnown (setProcessing this flag pages) = apiKnown this.
Proof.
  reflexivity.
Qed.

(** A run always returns a result.  The result of a run that failed holds no
    record; the result of a run that succeeded holds the records of the pages
    1 .. [totalPages] in page order, the run has started exactly these pages,
    in this order, and its expected total is the stored total count. *)
Lemma getAllPagesData_result (this : ContentScript) (env : Environment) :
  exists acquired,
    returned (getAllPagesData this env) = Ok acquired
    /\ (success acquired = false -> data acquired = [])
    /\ (success acquired = true ->
        data acquired = concat (map (pageRecords this env) (allPages this))
        /\ expectedTotal acquired = Some (totalCount this)
        /\ startedPages (trace (getAllPagesData this env)) = allPages this).
Proof.
  unfold getAllPagesData, getAllPagesDataFast.
  rewrite apiKnown_setProcessing.
  destruct (apiKnown this) eqn:K.
  - rewrite getAllPagesViaAPI_eq. cbv zeta. eexists. split; [reflexivity|].
    cbn [success data expectedTotal trace]. split; [discriminate|]. intros _.
    repeat split.
    + unfold pageRecords. rewrite K. reflexivity.
    + rewrite startedPages_app, startedPages_Started. cbn [startedPages].
      now rewrite app_nil_r.
  - destruct (getAllPagesViaOptimizedDOM (setProcessing this true []) env)
      as [[acquired|message] tr] eqn:Hrun.
    + exists acquired. split; [reflexivity|].
      destruct (getAllPagesViaOptimizedDOM_ok _ _ _ _ Hrun) as (S & D & X & T).
      split; [congruence|]. intros _. cbn [trace]. repeat split.
      * rewrite D. unfold pageRecords. rewrite K. reflexivity.
      * exact X.
      * exact T.
    + eexists. split; [reflexivity|]. cbn [success data].
      split; [reflexivity | discriminate].
Qed.

(** ** Serial numbers *)

Lemma StronglySorted_app_lt (a b : list Z) :
  StronglySorted Z.lt a -> StronglySorted Z.lt b ->
  (forall x y, In x a -> In y b -> x < y) ->
  StronglySorted Z.lt (a ++ b).
Proof.
  intros Ha Hb Hab. induction Ha as [|x a Ha IH Hx]; cbn [app]; [exact Hb|].
  constructor.
  - apply IH. intros x' y Hx' Hy. apply Hab; [now right | exact Hy].
  - apply Forall_app. split; [exact Hx|].
    apply Forall_forall. intros y Hy. apply Hab; [now left | exact Hy].
Qed.

Lemma StronglySorted_lt_NoDup (l : list Z) : StronglySorted Z.lt l -> NoDup l.
Proof.
  induction 1 as [|x l Hl IH Hx]; constructor; [|exact IH].
  intros Hin. rewrite Forall_forall in Hx. specialize (Hx x Hin). lia.
Qed.

Lemma StronglySorted_range (first : Z) (count : nat) :
  StronglySorted Z.lt (range first count).
Proof.
  revert first. induction count as [|count IH]; intros first.
  - constructor.
  - rewrite range_S. constructor; [apply IH|].
    apply Forall_forall. intros page Hpage. apply In_range in Hpage. lia.
Qed.

Lemma nth_error_range (first : Z) (count k : nat) :
  (k < count)%nat -> nth_error (range first count) k = Some (first + Z.of_nat k).
Proof.
  intros Hk. unfold range. rewrite nth_error_map, nth_error_seq.
  destruct (Nat.ltb_spec k count); [reflexivity | lia].
Qed.

(** Pages whose serial numbers increase and lie in the slice of their page
    give a sequence that increases across the pages. *)
Lemma sorted_concat_pages (serials : Z -> list Z) (c first : Z) (count : nat) :
  0 <= c ->
  (forall page,
     first <= page < first + Z.of_nat count ->
     StronglySorted Z.lt (serials page)
     /\ Forall (fun s => (page - 1) * c < s <= page * c) (serials page)) ->
  StronglySorted Z.lt (concat (map serials (range first count))).
Proof.
  intros Hc. revert first. induction count as [|count IH]; intros first H.
  - constructor.
  - rewrite range_S. cbn [map concat].
    destruct (H first ltac:(lia)) as [Hsorted Hslice].
    apply StronglySorted_app_lt; [exact Hsorted | apply IH; intros page Hp; apply H; lia |].
    intros x y Hx Hy. rewrite Forall_forall in Hslice. specialize (Hslice x Hx).
    apply in_concat in Hy. destruct Hy as (l & Hl & Hy).
    apply in_map_iff in Hl. destruct Hl as (page & <- & Hpage).
    apply In_range in Hpage. destruct (H page ltac:(lia)) as [_ Hslice'].
    rewrite Forall_forall in Hslice'. specialize (Hslice' y Hy). nia.
Qed.

Lemma mapWithIndex_normalizeApiItem (rpp page : Z) (items : list jsval) (index : Z)
  (records : list InvoiceRecord) :
  mapWithIndex (normalizeApiItem rpp page) index items = Ok records ->
  length records = length items
  /\ Forall (fun record => pageNumber record = Some page) records
  /\ map serialNumber records = range ((page - 1) * rpp + index + 1) (length items).
Proof.
  revert index records. induction items as [|item rest IH]; intros index records H.
  - injection H as <-. repeat split. constructor.
  - cbn [mapWithIndex] in H. unfold bind in H.
    destruct (normalizeApiItem rpp page item index) as [record|] eqn:E; [|discriminate].
    destruct (mapWithIndex (normalizeApiItem rpp page) (index + 1) rest)
      as [others|] eqn:E'; [|discriminate].
    injection H as <-. destruct (IH _ _ E') as (L & P & S).
    apply normalizeApiItem_ok_inv in E.
    destruct E as (uuid & id & internalId & total & link
                   & _ & _ & _ & _ & _ & Hs & Hp & _).
    cbn [length map]. rewrite range_S, S, Hs, L. repeat split.
    + constructor; assumption.
    + do 2 f_equal. lia.
Qed.

(** The records a page of the API gives: as many as the items it lists, of
    that page, numbered from the first serial number of the page on. *)
Lemma fetchPageBody_records (this : ContentScript) (env : Environment) (page : Z)
  (records : list InvoiceRecord) :
  tryCatch (fetchPageBody this env page) (fun _ => []) = records ->
  Forall (fun record => pageNumber record = Some page) records
  /\ map serialNumber records
     = range ((page - 1) * resultsPerPage this + 1) (length records).
Proof.
  unfold tryCatch. destruct (fetchPageBody this env page) as [recs|] eqn:E; intros <-.
  - unfold fetchPageBody, bind in E.
    destruct (buildAPIUrl this page) as [url|]; [|discriminate].
    destruct (fetch env url) as [|status [body|]]; try discriminate;
      destruct (negb (responseOk status)); try discriminate.
    unfold parseAPIResponse, bind in E.
    destruct (invoicesOf body) as [[| | | | |items|]|]; try discriminate.
    apply mapWithIndex_normalizeApiItem in E. destruct E as (L & P & S).
    split; [exact P|]. rewrite S, L. f_equal. lia.
  - split; [constructor | reflexivity].
Qed.

(** The records a document gives: each comes from a row of its grid, and is
    numbered by the position of that row; their serial numbers increase. *)
Lemma extractRowsFrom_records (rpp page : Z) (rows : list Row) (index : Z) :
  (forall record,
     In record (extractRowsFrom rpp page index rows) ->
     exists k row,
       nth_error rows k = Some row
       /\ record = setPage (extractDataFromRow row (index + Z.of_nat k + 1)) page
                     ((page - 1) * rpp + index + Z.of_nat k + 1))
  /\ StronglySorted Z.lt (map serialNumber (extractRowsFrom rpp page index rows))
  /\ Forall (fun s => (page - 1) * rpp + index < s
                      <= (page - 1) * rpp + index + Z.of_nat (length rows))
            (map serialNumber (extractRowsFrom rpp page index rows)).
Proof.
  revert index. induction rows as [|row rest IH]; intros index.
  - cbn [extractRowsFrom map]. repeat split; [intros record [] | constructor ..].
  - destruct (IH (index + 1)) as (Hin & Hsorted & Hslice).
    assert (forall record,
              In record (extractRowsFrom rpp page (index + 1) rest) ->
              exists k row0,
                nth_error (row :: rest) k = Some row0
                /\ record = setPage (extractDataFromRow row0 (index + Z.of_nat k + 1)) page
                              ((page - 1) * rpp + index + Z.of_nat k + 1)) as Hin'.
    { intros record Hr. destruct (Hin record Hr) as (k & row0 & Hk & ->).
      exists (S k), row0. split; [exact Hk|].
      replace (index + Z.of_nat (S k) + 1) with (index + 1 + Z.of_nat k + 1) by lia.
      replace ((page - 1) * rpp + index + Z.of_nat (S k) + 1)
        with ((page - 1) * rpp + (index + 1) + Z.of_nat k + 1) by lia.
      reflexivity. }
    assert (Forall (fun s => (page - 1) * rpp + index < s
                             <= (page - 1) * rpp + index + Z.of_nat (length (row :: rest)))
                   (map serialNumber (extractRowsFrom rpp page (index + 1) rest)))
      as Hslice'.
    { eapply Forall_impl; [|exact Hslice]. cbn [length]. intros s Hs.
      cbv beta in Hs. lia. }
    cbn [extractRowsFrom].
    destruct (isValidInvoiceData (extractDataFromRow row (index + 1))).
    + cbn [map serialNumber setPage]. repeat split.
      * intros record [<-|Hr]; [|now apply Hin'].
        exists 0%nat, row. split; [reflexivity|].
        cbn [Z.of_nat]. rewrite !Z.add_0_r. reflexivity.
      * constructor; [exact Hsorted|].
        eapply Forall_impl; [|exact Hslice]. intros s Hs. cbv beta in Hs. lia.
      * constructor; [cbn [length]; lia | exact Hslice'].
    + repeat split; assumption.
Qed.

Lemma pageRecords_block (this : ContentScript) (env : Environment) (page : Z) :
  Z.of_nat (pageSize this env page) <= resultsPerPage this ->
  StronglySorted Z.lt (map serialNumber (pageRecords this env page))
  /\ Forall (fun s => (page - 1) * resultsPerPage this < s <= page * resultsPerPage this)
            (map serialNumber (pageRecords this env page)).
Proof.
  unfold pageSize, pageRecords. destruct (apiKnown this).
  - intros Hsize.
    destruct (fetchPageBody_records this env page _ eq_refl) as (_ & ->).
    split; [apply StronglySorted_range|].
    apply Forall_forall. intros s Hs. apply In_range in Hs. lia.
  - unfold pageRows, firstEventData.
    destruct (frameEvent env page) as [[iframeDoc|]| |];
      try (intros _; split; constructor).
    intros Hsize. unfold extractDataFromDocument.
    destruct (extractRowsFrom_records (resultsPerPage this) page (gridRows iframeDoc) 0)
      as (_ & Hsorted & Hslice).
    split; [exact Hsorted|].
    eapply Forall_impl; [|exact Hslice]. intros s Hs. cbv beta in Hs. lia.
Qed.

Lemma pageRecords_position (this : ContentScript) (env : Environment) (page : Z)
  (record : InvoiceRecord) :
  In record (pageRecords this env page) ->
  exists position,
    1 <= position <= Z.of_nat (pageSize this env page)
    /\ pageNumber record = Some page
    /\ serialNumber record = (page - 1) * resultsPerPage this + position
    /\ positionInPage this env page position record.
Proof.
  unfold positionInPage, pageSize. destruct (apiKnown this) eqn:K.
  - intros Hin. apply In_nth_error in Hin. destruct Hin as (k & Hk).
    assert (k < length (pageRecords this env page))%nat as Hlt.
    { apply nth_error_Some. congruence. }
    exists (Z.of_nat k + 1). replace (Z.to_nat (Z.of_nat k + 1 - 1)) with k by lia.
    pose proof (nth_error_In _ _ Hk) as Hin.
    unfold pageRecords in *. rewrite K in *.
    destruct (fetchPageBody_records this env page _ eq_refl) as (P & S).
    rewrite Forall_forall in P. repeat split; try lia; auto.
    pose proof (map_nth_error serialNumber _ _ Hk) as Hs.
    rewrite S, nth_error_range in Hs by exact Hlt. injection Hs as <-. lia.
  - unfold pageRecords, pageRows, firstEventData. rewrite K.
    destruct (frameEvent env page) as [[iframeDoc|]| |]; try (intros []).
    unfold extractDataFromDocument. intros Hin.
    destruct (extractRowsFrom_records (resultsPerPage this) page (gridRows iframeDoc) 0)
      as (Hrows & _ & _).
    destruct (Hrows record Hin) as (k & row & Hk & ->).
    assert (k < length (gridRows iframeDoc))%nat as Hlt.
    { apply nth_error_Some. congruence. }
    exists (Z.of_nat k + 1). replace (Z.to_nat (Z.of_nat k + 1 - 1)) with k by lia.
    cbn [pageNumber serialNumber setPage]. repeat split; try lia.
    exists row. split; [exact Hk|].
    rewrite !Z.add_0_r, <- !Z.add_assoc. reflexivity.
Qed.

(** C2, as the code has it: in the data of a run, whatever the pages hold,
    every record carries the number of its page and the serial number
    (pageNumber - 1) * resultsPerPage + position, where position is the
    1-based position of its item in the page; and when no page holds more than
    resultsPerPage items, the serial numbers increase strictly along the data,
    across the boundaries of the pages too, so none occurs twice. *)
Theorem serialNumbers_increase_when_pages_fit (this : ContentScript) (env : Environment)
  (acquired : AcquisitionResult) :
  returned (getAllPagesData this env) = Ok acquired ->
  (forall record,
     In record (data acquired) ->
     exists page position,
       1 <= page <= totalPages this
       /\ 1 <= position <= Z.of_nat (pageSize this env page)
       /\ pageNumber record = Some page
       /\ serialNumber record = (page - 1) * resultsPerPage this + position
       /\ positionInPage this env page position record)
  /\ ((forall page,
         1 <= page <= totalPages this ->
         Z.of_nat (pageSize this env page) <= resultsPerPage this) ->
      StronglySorted Z.lt (map serialNumber (data acquired))
      /\ NoDup (map serialNumber (data acquired))
      /\ Forall (fun record =>
                   exists page,
                     pageNumber record = Some page
                     /\ (page - 1) * resultsPerPage this < serialNumber record
                        <= page * resultsPerPage this)
                (data acquired)).
Proof.
  intros Hrun.
  destruct (getAllPagesData_result this env) as (acquired' & Hrun' & Hfail & Hok).
  rewrite Hrun in Hrun'. injection Hrun' as <-.
  assert (forall record,
            In record (data acquired) ->
            exists page position,
              1 <= page <= totalPages this
              /\ 1 <= position <= Z.of_nat (pageSize this env page)
              /\ pageNumber record = Some page
              /\ serialNumber record = (page - 1) * resultsPerPage this + position
              /\ positionInPage this env page position record) as Hformula.
  { destruct (success acquired) eqn:S.
    - destruct (Hok eq_refl) as (D & _ & _). rewrite D.
      intros record Hin. apply in_concat in Hin. destruct Hin as (l & Hl & Hin).
      apply in_map_iff in Hl. destruct Hl as (page & <- & Hpage).
      apply In_range in Hpage.
      destruct (pageRecords_position this env page record Hin)
        as (position & Hp & P & E & W).
      exists page, position. repeat split; auto; lia.
    - rewrite (Hfail eq_refl). intros record []. }
  split; [exact Hformula|].
  intros Hfit.
  assert (StronglySorted Z.lt (map serialNumber (data acquired))) as Hsorted.
  { destruct (success acquired) eqn:S.
    - destruct (Hok eq_refl) as (D & _ & _). rewrite D.
      rewrite concat_map, map_map. unfold allPages.
      destruct (Z.to_nat (totalPages this)) as [|count] eqn:N; [constructor|].
      apply sorted_concat_pages with (c := resultsPerPage this).
      + specialize (Hfit 1 ltac:(lia)). lia.
      + intros page Hp. apply pageRecords_block. apply Hfit. lia.
    - rewrite (Hfail eq_refl). constructor. }
  split; [exact Hsorted|]. split; [now apply StronglySorted_lt_NoDup|].
  apply Forall_forall. intros record Hin.
  destruct (Hformula record Hin) as (page & position & Hpage & Hposition & P & E & _).
  exists page. split; [exact P|]. specialize (Hfit page Hpage). lia.
Qed.

Lemma serialNumbers_increase_when_pages_fit_witness :
  exists acquired,
    returned (getAllPagesData (Examples.withApi 6 3)
                (Examples.answering 200 (Examples.manyItems 2))) = Ok acquired
    /\ map serialNumber (data acquired) = [1; 2; 51; 52; 101; 102]
    /\ map pageNumber (data acquired)
       = [Some 1; Some 1; Some 2; Some 2; Some 3; Some 3]
    /\ StronglySorted Z.lt (map serialNumber (data acquired))
    /\ NoDup (map serialNumber (data acquired)).
Proof.
  destruct (returned (getAllPagesData (Examples.withApi 6 3)
                        (Examples.answering 200 (Examples.manyItems 2))))
    as [acquired|] eqn:E; [|discriminate E].
  exists acquired.
  split; [reflexivity|].
  split; [vm_compute in E; injection E as <-; reflexivity|].
  split; [vm_compute in E; injection E as <-; reflexivity|].
  assert (forall page,
            1 <= page <= totalPages (Examples.withApi 6 3) ->
            Z.of_nat (pageSize (Examples.withApi 6 3)
                        (Examples.answering 200 (Examples.manyItems 2)) page)
            <= resultsPerPage (Examples.withApi 6 3)) as Hfit.
  { intros page Hpage. cbn in Hpage.
    assert (page = 1 \/ page = 2 \/ page = 3) as [-> | [-> | ->]] by lia;
      vm_compute; discriminate. }
  destruct (proj2 (serialNumbers_increase_when_pages_fit
                     (Examples.withApi 6 3)
                     (Examples.answering 200 (Examples.manyItems 2)) acquired E) Hfit)
    as (Hsorted & Hnodup & _).
  split; [exact Hsorted | exact Hnodup].
Defined.

(** C2 as stated fails: when the API lists 51 items on page 1, the last
    record of page 1 and the first record of page 2 both have the serial
    number 51. *)
Lemma serialNumber_repeats_when_page_overfull :
  exists acquired first second,
    returned (getAllPagesData (Examples.withApi 52 2) Examples.overfull) = Ok acquired
    /\ success acquired = true
    /\ nth_error (data acquired) 50 = Some first
    /\ nth_error (data acquired) 51 = Some second
    /\ pageNumber first = Some 1
    /\ pageNumber second = Some 2
    /\ serialNumber first = 51
    /\ serialNumber second = 51.
Proof.
  eexists. eexists. eexists.
  split; [vm_compute; reflexivity|]. cbn [success data].
  split; [reflexivity|].
  split; [vm_compute; reflexivity|].
  split; [vm_compute; reflexivity|].
  repeat split.
Qed.

(** ** The totals that govern a run *)

(** C3, as the code has it: a run inspects nothing.  It is governed by the
    totals the content script holds, those of the last inspection: a run that
    succeeds starts exactly the pages 1 .. totalPages and reports the stored
    totalCount as its expected total, and it leaves both totals as they were.
    The inspection itself ([extractPaginationInfo], run by [scanForInvoices])
    stores the count it reads, which is not negative, and
    totalPages = Math.ceil(totalCount / 50), the division being that of
    binary64: up to 2^53 results this is the least number of pages of 50 that
    hold the count, and 120 results give 3 pages.  It stores no finite totals
    exactly when the count it reads is [Infinity]. *)
Theorem run_governed_by_stored_totals (this : ContentScript) (env : Environment) :
  (forall acquired,
     returned (getAllPagesData this env) = Ok acquired ->
     success acquired = true ->
     expectedTotal acquired = Some (totalCount this)
     /\ startedPages (trace (getAllPagesData this env)) = allPages this)
  /\ totalCount (after (getAllPagesData this env)) = totalCount this
  /\ totalPages (after (getAllPagesData this env)) = totalPages this
  /\ (forall rendered inspected,
        extractPaginationInfo this rendered = Some inspected ->
        Number.toInteger (Pagination.extractTotalCount rendered)
        = Some (totalCount inspected)
        /\ 0 <= totalCount inspected
        /\ resultsPerPage inspected = 50
        /\ totalPages inspected = Pagination.pagesFor (totalCount inspected)
        /\ (totalCount inspected <= 2 ^ 53 ->
            totalPages inspected = Pagination.ceilDiv (totalCount inspected) 50
            /\ 50 * (totalPages inspected - 1) < totalCount inspected
               <= 50 * totalPages inspected)
        /\ option_map totalPages (scanForInvoices this rendered)
           = Some (totalPages inspected))
  /\ (forall rendered,
        extractPaginationInfo this rendered = None
        <-> Pagination.extractTotalCount rendered = S754_infinity false)
  /\ Pagination.pagesFor 120 = 3
  /\ Pagination.ceilDiv 120 50 = 3.
Proof.
  split; [|split; [|split; [|split; [|split; [|split]]]]].
  - intros acquired Hrun Hok.
    destruct (getAllPagesData_result this env) as (acquired' & Hrun' & _ & H).
    rewrite Hrun in Hrun'. injection Hrun' as <-.
    destruct (H Hok) as (_ & X & T). auto.
  - unfold getAllPagesData, getAllPagesDataFast.
    now destruct (if apiKnown _ then _ else _).
  - unfold getAllPagesData, getAllPagesDataFast.
    now destruct (if apiKnown _ then _ else _).
  - intros rendered inspected Hinspected.
    assert (option_map totalPages (scanForInvoices this rendered)
            = Some (totalPages inspected)) as Hscan.
    { unfold scanForInvoices. now rewrite Hinspected. }
    destruct (extractPaginationInfo_some this rendered inspected Hinspected)
      as (Hcount & Hpages & Hsize & _).
    assert (0 <= totalCount inspected) as Hnonneg.
    { destruct (extractTotalCount_integer_or_infinite rendered)
        as [(count & Hread & Hle)|Hinfinite].
      - rewrite Hread in Hcount. now injection Hcount as <-.
      - rewrite Hinfinite in Hcount. discriminate Hcount. }
    repeat split; try assumption.
    + rewrite Hpages. now apply pagesFor_exact.
    + rewrite Hpages, pagesFor_exact by assumption. apply ceilDiv_spec. lia.
    + rewrite Hpages, pagesFor_exact by assumption. apply ceilDiv_spec. lia.
  - intros rendered. unfold extractPaginationInfo.
    destruct (extractTotalCount_integer_or_infinite rendered)
      as [(count & Hread & _)|Hinfinite].
    + rewrite Hread. split; [discriminate|].
      intros Hinfinite. rewrite Hinfinite in Hread. discriminate Hread.
    + rewrite Hinfinite. split; reflexivity.
  - vm_compute. reflexivity.
  - reflexivity.
Qed.

Lemma run_governed_by_stored_totals_witness :
  exists acquired,
    returned (getAllPagesData (Examples.withApi 120 3)
                (Examples.answering 200 Examples.oneEmptyItem)) = Ok acquired
    /\ expectedTotal acquired = Some 120.
Proof.
  destruct (returned (getAllPagesData (Examples.withApi 120 3)
                        (Examples.answering 200 Examples.oneEmptyItem)))
    as [acquired|] eqn:E; [|discriminate E].
  exists acquired. split; [reflexivity|].
  refine (proj1 (proj1 (run_governed_by_stored_totals
                          (Examples.withApi 120 3)
                          (Examples.answering 200 Examples.oneEmptyItem)) acquired E _)).
  vm_compute in E. injection E as <-. reflexivity.
Defined.

(** C3 as stated fails: while the rendered page shows ["Results: 120"], whose
    inspection gives 120 results and 3 pages, the run of a content script that
    holds the totals 0 and 1 starts page 1 only, expects 0 records, and still
    holds 0 and 1 afterwards; the run the specification words starts the pages
    1, 2, 3. *)
Lemma run_does_not_refresh_totals :
  option_map totalCount (extractPaginationInfo (Examples.withApi 0 1) Examples.showing120)
  = Some 120
  /\ option_map totalPages
       (extractPaginationInfo (Examples.withApi 0 1) Examples.showing120) = Some 3
  /\ startedPages
       (trace (getAllPagesData (Examples.withApi 0 1)
                 (Examples.answering 200 Examples.oneEmptyItem))) = [1]
  /\ option_map (fun run => startedPages (trace run))
       (acquireAllAsSpecified (Examples.withApi 0 1) Examples.showing120
          (Examples.answering 200 Examples.oneEmptyItem)) = Some [1; 2; 3]
  /\ totalCount (after (getAllPagesData (Examples.withApi 0 1)
                          (Examples.answering 200 Examples.oneEmptyItem))) = 0
  /\ totalPages (after (getAllPagesData (Examples.withApi 0 1)
                          (Examples.answering 200 Examples.oneEmptyItem))) = 1
  /\ exists acquired,
       returned (getAllPagesData (Examples.withApi 0 1)
                   (Examples.answering 200 Examples.oneEmptyItem)) = Ok acquired
       /\ success acquired = true
       /\ expectedTotal acquired = Some 0.
Proof.
  repeat split; try (vm_compute; reflexivity).
  eexists. split; [vm_compute; reflexivity|]. split; reflexivity.
Qed.

(** ** Batches *)

(** C4 fails on the API path: with 11 pages, [getAllPagesViaAPI] starts the
    fetch of page 11, of the second batch, before it awaits anything; its only
    [await] comes after all eleven fetches were started.  The path through the
    frames, with batches of 5, awaits each batch before it starts the next. *)
Theorem api_path_starts_all_batches_at_once :
  apiKnown (Examples.withApi 550 11) = true
  /\ trace (getAllPagesData (Examples.withApi 550 11)
              (Examples.answering 200 Examples.oneEmptyItem))
     = map Started [1; 2; 3; 4; 5; 6; 7; 8; 9; 10; 11]
         ++ [Awaited [1; 2; 3; 4; 5; 6; 7; 8; 9; 10; 11]]
  /\ apiPageBatches (Examples.withApi 550 11)
     = [[1; 2; 3; 4; 5; 6; 7; 8; 9; 10]; [11]]
  /\ awaitsEachBatch 10 [] []
       (trace (getAllPagesData (Examples.withApi 550 11)
                 (Examples.answering 200 Examples.oneEmptyItem))) = false
  /\ trace (getAllPagesData (Examples.withoutApi 550 11 None) Examples.loading)
     = map Started [1; 2; 3; 4; 5] ++ [Awaited [1; 2; 3; 4; 5]]
         ++ map Started [6; 7; 8; 9; 10] ++ [Awaited [6; 7; 8; 9; 10]]
         ++ map Started [11] ++ [Awaited [11]]
  /\ awaitsEachBatch 5 [] []
       (trace (getAllPagesData (Examples.withoutApi 550 11 None) Examples.loading))
     = true.
Proof.
  repeat split; vm_compute; reflexivity.
Qed.

(** X2: on both paths the data of a run that succeeds are the records of the
    pages 1 .. totalPages in page order, whatever the order in which the loads
    of the pages complete. *)
Lemma data_in_page_order (this : ContentScript) (env : Environment)
  (acquired : AcquisitionResult) :
  returned (getAllPagesData this env) = Ok acquired ->
  success acquired = true ->
  data acquired = concat (map (pageRecords this env) (allPages this)).
Proof.
  intros Hrun Hok.
  destruct (getAllPagesData_result this env) as (acquired' & Hrun' & _ & H).
  rewrite Hrun in Hrun'. injection Hrun' as <-. now destruct (H Hok).
Qed.

Lemma data_in_page_order_witness :
  exists acquired,
    returned (getAllPagesData (Examples.withApi 52 2) Examples.overfull) = Ok acquired
    /\ data acquired
       = concat (map (pageRecords (Examples.withApi 52 2) Examples.overfull) [1; 2]).
Proof.
  destruct (returned (getAllPagesData (Examples.withApi 52 2) Examples.overfull))
    as [acquired|] eqn:E; [|discriminate E].
  exists acquired. split; [reflexivity|].
  refine (data_in_page_order (Examples.withApi 52 2) Examples.overfull acquired E _).
  vm_compute in E. injection E as <-. reflexivity.
Defined.

(** ** Failure of a run *)

(** X3: the re-entrancy flag is cleared when a run ends, however it ends. *)
Lemma flag_cleared (this : ContentScript) (env : Environment) :
  isProcessingAllPages (after (getAllPagesData this env)) = false.
Proof.
  unfold getAllPagesData, getAllPagesDataFast.
  now destruct (if apiKnown _ then _ else _).
Qed.

(** X4: a failure that escapes the loop of [loadPagesInParallel] gives a
    result that is not a success, carries the message of the failure, and
    holds no record. *)
Lemma failure_reported (this : ContentScript) (env : Environment) (message : jsstring)
  (st : LoopState) :
  apiKnown this = false ->
  loadPagesRun (setProcessing this true []) env
    (generateAllPageUrls (setProcessing this true [])) = (Throw message, st) ->
  exists acquired,
    returned (getAllPagesData this env) = Ok acquired
    /\ success acquired = false
    /\ error acquired = Some message
    /\ data acquired = [].
Proof.
  intros K Hrun. unfold getAllPagesData, getAllPagesDataFast.
  rewrite apiKnown_setProcessing, K.
  unfold getAllPagesViaOptimizedDOM, loadPagesInParallel. rewrite Hrun.
  eexists. repeat split.
Qed.

Lemma failure_reported_witness :
  exists acquired,
    returned (getAllPagesData (Examples.withoutApi 1 1 (Some Examples.throwing))
                Examples.loading) = Ok acquired
    /\ success acquired = false
    /\ error acquired = Some (lit "Extension context invalidated.")
    /\ data acquired = [].
Proof.
  destruct (loadPagesRun
              (setProcessing (Examples.withoutApi 1 1 (Some Examples.throwing)) true [])
              Examples.loading
              (generateAllPageUrls
                 (setProcessing (Examples.withoutApi 1 1 (Some Examples.throwing)) true [])))
    as [[[]|message] st] eqn:E; [discriminate E|].
  assert (message = lit "Extension context invalidated.") as ->.
  { vm_compute in E. now injection E as <- _. }
  exact (failure_reported (Examples.withoutApi 1 1 (Some Examples.throwing))
           Examples.loading _ st eq_refl E).
Defined.

(** C5 fails on the data: when the progress callback throws after the first
    batch, [loadPagesInParallel] has gathered the record of page 1 in its
    [results], and the result of the run holds no record: the handler returns
    [this.allPagesData], which no path fills.  The result is not a success, it
    carries the message, and the flag is cleared. *)
Theorem failed_run_returns_no_partial_data :
  exists st record acquired,
    loadPagesRun (setProcessing (Examples.withoutApi 1 1 (Some Examples.throwing)) true [])
      Examples.loading
      (generateAllPageUrls (Examples.withoutApi 1 1 (Some Examples.throwing)))
    = (Throw (lit "Extension context invalidated."), st)
    /\ results st = [record]
    /\ isValidInvoiceData record = true
    /\ returned (getAllPagesData (Examples.withoutApi 1 1 (Some Examples.throwing))
                   Examples.loading) = Ok acquired
    /\ success acquired = false
    /\ error acquired = Some (lit "Extension context invalidated.")
    /\ data acquired = []
    /\ isProcessingAllPages
         (after (getAllPagesData (Examples.withoutApi 1 1 (Some Examples.throwing))
                   Examples.loading)) = false.
Proof.
  eexists. eexists. eexists.
  split; [vm_compute; reflexivity|].
  split; [reflexivity|].
  split; [vm_compute; reflexivity|].
  split; [vm_compute; reflexivity|].
  repeat split.
Qed.

(** ** Progress *)

Lemma afterBatch_events_reporting (this : ContentScript) (env : Environment)
  (urls : list Url) (callback : Progress -> result unit) (k : nat) (st : LoopState) :
  progressCallback this = Some callback ->
  events (afterBatch this env urls (domBatchSize * k) st) = events st ++ turn urls k.
Proof.
  intros H. unfold afterBatch, turn. rewrite H. cbn [events].
  rewrite <- !app_assoc. reflexivity.
Qed.

(** With a callback registered, the run of [loadPagesInParallel] is a
    sequence of turns, one for each batch it took. *)
Lemma loadPagesRun_turns (this : ContentScript) (env : Environment) (urls : list Url)
  (callback : Progress -> result unit) (r : result unit) (st : LoopState) :
  progressCallback this = Some callback ->
  loadPagesRun this env urls = (r, st) ->
  exists batches,
    events st = concat (map (turn urls) (seq 0 batches))
    /\ (batches = 0 \/ domBatchSize * (batches - 1) < length urls)%nat
    /\ (r = Ok tt -> (length urls <= domBatchSize * batches)%nat).
Proof.
  intros Hcallback Hrun. unfold loadPagesRun in Hrun.
  pose (Inv := fun (i : nat) (st : LoopState) =>
    exists b,
      i = (domBatchSize * b)%nat
      /\ events st = concat (map (turn urls) (seq 0 b))
      /\ (b = 0 \/ domBatchSize * (b - 1) < length urls)%nat).
  assert (forall i st0, (i < length urls)%nat -> Inv i st0 ->
            Inv (i + domBatchSize)%nat (afterBatch this env urls i st0)) as Hstep.
  { intros i st0 Hi (b & -> & E & _). exists (S b). repeat split.
    - unfold domBatchSize. lia.
    - rewrite (afterBatch_events_reporting _ _ _ callback) by exact Hcallback.
      rewrite seq_S, map_app, concat_app, E. cbn [map concat Nat.add].
      now rewrite app_nil_r.
    - right. replace (S b - 1)%nat with b by lia. exact Hi. }
  destruct (loadPagesLoop_invariant Inv this env urls Hstep _ _ _ _ _ Hrun)
    as (j & (b & -> & E & B) & H3).
  - unfold domBatchSize. lia.
  - exists 0%nat. repeat split. now left.
  - exists b. auto.
Qed.

Lemma reports_turns (urls : list Url) (first batches : nat) :
  reports (concat (map (turn urls) (seq first batches)))
  = map (fun k => progressAt urls (domBatchSize * k)) (seq first batches).
Proof.
  revert first. induction batches as [|batches IH]; intros first; [reflexivity|].
  cbn [seq map concat]. unfold turn at 1.
  rewrite !reports_app, reports_Started, IH. reflexivity.
Qed.

(** C9: on the path through the frames, a run that succeeds with a callback
    registered is a sequence of turns, one for each batch of five urls: the
    pages of the batch are started, they are awaited, and the callback is
    called.  The report of turn k carries the count of the pages completed,
    min(5 (k + 1), totalPages), the count of all pages, and the percentage
    (completed / totalPages) * 100 as binary64 computes it.  The percentages
    do not decrease from a turn to a later one, and the percentage is exactly
    100 in the last turn and in no other.  (An array holds fewer than 2^32
    urls; the theorem needs no more than 2^53.) *)
Theorem progress_reported_after_each_batch (this : ContentScript) (env : Environment)
  (callback : Progress -> result unit) (acquired : AcquisitionResult) :
  apiKnown this = false ->
  progressCallback this = Some callback ->
  totalPages this <= 2 ^ 53 ->
  returned (getAllPagesData this env) = Ok acquired ->
  success acquired = true ->
  let urls := generateAllPageUrls this in
  exists batches : nat,
    trace (getAllPagesData this env) = concat (map (turn urls) (seq 0 batches))
    /\ reports (trace (getAllPagesData this env))
       = map (fun k => progressAt urls (domBatchSize * k)) (seq 0 batches)
    /\ (length urls <= domBatchSize * batches)%nat
    /\ (batches = 0 \/ domBatchSize * (batches - 1) < length urls)%nat
    /\ (forall k,
          (k < batches)%nat ->
          let progress := progressAt urls (domBatchSize * k) in
          progressTotalPages progress = totalPages this
          /\ progressCurrentPage progress
             = Z.min (5 * (Z.of_nat k + 1)) (totalPages this)
          /\ percentage progress
             = percentageOf (progressCurrentPage progress) (progressTotalPages progress))
    /\ (forall j k,
          (j <= k < batches)%nat ->
          (percentage (progressAt urls (domBatchSize * j))
           <= percentage (progressAt urls (domBatchSize * k)))%Q)
    /\ (forall k,
          (k < batches)%nat ->
          (percentage (progressAt urls (domBatchSize * k)) == 100)%Q <-> S k = batches).
Proof.
  intros K Hcallback Hmax Hrun Hok urls.
  assert (length urls = Z.to_nat (totalPages this)) as Hlen.
  { unfold urls. rewrite generateAllPageUrls_eq. unfold allPages. apply range_length. }
  unfold getAllPagesData, getAllPagesDataFast in Hrun |- *.
  rewrite apiKnown_setProcessing, K in Hrun |- *.
  unfold getAllPagesViaOptimizedDOM, loadPagesInParallel in Hrun |- *.
  change (generateAllPageUrls (setProcessing this true [])) with urls in Hrun |- *.
  destruct (loadPagesRun (setProcessing this true []) env urls) as [[[]|message] st] eqn:L.
  2:{ cbn [returned] in Hrun. injection Hrun as <-. discriminate Hok. }
  destruct (loadPagesRun_turns (setProcessing this true []) _ _ callback _ _ Hcallback L)
    as (batches & E & B & F).
  specialize (F eq_refl). exists batches. cbn [trace].
  assert (forall k, (k < batches)%nat ->
            1 <= totalPages this
            /\ Z.of_nat (length urls) = totalPages this
            /\ Z.min (Z.of_nat (domBatchSize * k + domBatchSize)) (Z.of_nat (length urls))
               = Z.min (5 * (Z.of_nat k + 1)) (totalPages this)) as Hk.
  { intros k Hlt. unfold domBatchSize in *. lia. }
  split; [exact E|]. split; [rewrite E; apply reports_turns|].
  split; [exact F|]. split; [exact B|].
  split; [|split].
  - intros k Hlt. destruct (Hk k Hlt) as (_ & Hn & Hc).
    unfold progressAt.
    cbn [progressTotalPages progressCurrentPage percentage].
    repeat split; assumption.
  - intros j k (Hjk & Hlt). destruct (Hk k Hlt) as (Hn1 & Hn & Hc).
    destruct (Hk j ltac:(lia)) as (_ & _ & Hc').
    unfold progressAt. cbn [percentage]. rewrite Hc, Hc', Hn.
    apply percentageOf_mono; lia.
  - intros k Hlt. destruct (Hk k Hlt) as (Hn1 & Hn & Hc).
    unfold progressAt. cbn [percentage]. rewrite Hc, Hn. split.
    + intros H100. destruct (Nat.eq_dec (S k) batches) as [|Hne]; [assumption|].
      exfalso.
      assert (Z.min (5 * (Z.of_nat k + 1)) (totalPages this) < totalPages this) as Hpart
        by (unfold domBatchSize in *; lia).
      assert (0 < Z.min (5 * (Z.of_nat k + 1)) (totalPages this)) as Hpos by lia.
      pose proof (percentageOf_part _ _ Hpos Hpart Hmax) as Hlt100.
      rewrite H100 in Hlt100. revert Hlt100. apply Qlt_irrefl.
    + intros <-.
      replace (Z.min (5 * (Z.of_nat k + 1)) (totalPages this)) with (totalPages this)
        by (unfold domBatchSize in *; lia).
      apply percentageOf_all. lia.
Qed.

Lemma progress_reported_after_each_batch_witness :
  exists batches : nat,
    reports (trace (getAllPagesData (Examples.withoutApi 550 11 (Some Examples.returning))
                      Examples.loading))
    = map (fun k =>
             progressAt
               (generateAllPageUrls (Examples.withoutApi 550 11 (Some Examples.returning)))
               (domBatchSize * k))
          (seq 0 batches).
Proof.
  destruct (returned (getAllPagesData (Examples.withoutApi 550 11 (Some Examples.returning))
                        Examples.loading))
    as [acquired|] eqn:E; [|discriminate E].
  assert (success acquired = true) as Hok.
  { vm_compute in E. injection E as <-. reflexivity. }
  destruct (progress_reported_after_each_batch
              (Examples.withoutApi 550 11 (Some Examples.returning))
              Examples.loading Examples.returning acquired
              eq_refl eq_refl ltac:(discriminate) E Hok)
    as (batches & _ & H & _).
  exists batches. exact H.
Defined.

(** The percentages of a run of 11 pages, in three batches, as binary64
    computes them: those of 5/11 and 10/11, and 100. *)
Example percentages_of_eleven_pages :
  map (fun progress => Qred (percentage progress))
      (reports (trace (getAllPagesData
                         (Examples.withoutApi 550 11 (Some Examples.returning))
                         Examples.loading)))
  = [(3198579280802909 # 70368744177664)%Q;
     (3198579280802909 # 35184372088832)%Q;
     100%Q]
  /\ map (fun completed =>
            Qred (Binary64.valueOf
                    (SFmul Number.prec Number.emax
                       (SFdiv Number.prec Number.emax
                          (Number.ofZ completed) (Number.ofZ 11))
                       (Number.ofZ 100))))
         [5; 10; 11]
     = [(3198579280802909 # 70368744177664)%Q;
        (3198579280802909 # 35184372088832)%Q;
        100%Q].
Proof.
  split; vm_compute; reflexivity.
Qed.

(** ** Validity on the paths that read the rendered page *)

(** X1: every record of the visible-page scan is valid, and so is every
    record a run returns on the path through the frames: a record whose
    electronicNumber, internalNumber and totalAmount are all empty is in
    neither. *)
Theorem records_of_rendered_pages_valid (this : ContentScript) :
  (forall doc scanned,
     scanForInvoices this doc = Some scanned ->
     Forall (fun record => isValidInvoiceData record = true) (invoiceData scanned))
  /\ (forall env acquired,
        apiKnown this = false ->
        returned (getAllPagesData this env) = Ok acquired ->
        Forall (fun record => isValidInvoiceData record = true) (data acquired)).
Proof.
  split; [apply scanForInvoices_valid|].
  intros env acquired K Hrun.
  destruct (getAllPagesData_result this env) as (acquired' & Hrun' & Hfail & Hok).
  rewrite Hrun in Hrun'. injection Hrun' as <-.
  destruct (success acquired).
  - destruct (Hok eq_refl) as (-> & _). apply Forall_concat, Forall_map.
    apply Forall_forall. intros page _. now apply pageRecords_valid.
  - rewrite (Hfail eq_refl). constructor.
Qed.

Lemma records_of_rendered_pages_valid_witness :
  exists acquired,
    returned (getAllPagesData (Examples.withoutApi 1 1 None) Examples.loading) = Ok acquired
    /\ Forall (fun record => isValidInvoiceData record = true) (data acquired).
Proof.
  destruct (returned (getAllPagesData (Examples.withoutApi 1 1 None) Examples.loading))
    as [acquired|] eqn:E; [|discriminate E].
  exists acquired. split; [reflexivity|].
  exact (proj2 (records_of_rendered_pages_valid (Examples.withoutApi 1 1 None))
           Examples.loading acquired eq_refl E).
Defined.

(** * Further properties of the content script *)

(** ** How a run ends *)

(** X5: on the API path a run always ends as a success, with no error, with
    totalProcessed equal to the number of records and expectedTotal equal to
    the stored total count, whatever happens to the requests; when the
    request of every page fails, the successful result holds no record. *)
Theorem api_run_always_succeeds (this : ContentScript) (env : Environment) :
  apiKnown this = true ->
  exists acquired,
    returned (getAllPagesData this env) = Ok acquired
    /\ success acquired = true
    /\ error acquired = None
    /\ totalProcessed acquired = Some (Z.of_nat (length (data acquired)))
    /\ expectedTotal acquired = Some (totalCount this)
    /\ ((forall page, exists message, fetchPageBody this env page = Throw message) ->
        data acquired = []).
Proof.
  intros K. unfold getAllPagesData, getAllPagesDataFast.
  rewrite apiKnown_setProcessing, K, getAllPagesViaAPI_eq. cbv zeta.
  eexists. split; [reflexivity|]. cbn [success error totalProcessed expectedTotal data].
  repeat split. intros Hfail.
  induction (allPages (setProcessing this true [])) as [|page rest IH]; [reflexivity|].
  cbn [map concat]. rewrite IH.
  destruct (Hfail page) as (message & E).
  change (fetchPageBody (setProcessing this true []) env page)
    with (fetchPageBody this env page).
  rewrite E. reflexivity.
Qed.

Lemma api_run_always_succeeds_witness :
  exists acquired,
    returned (getAllPagesData (Examples.withApi 120 3) Examples.loading) = Ok acquired
    /\ success acquired = true
    /\ data acquired = [].
Proof.
  destruct (api_run_always_succeeds (Examples.withApi 120 3) Examples.loading eq_refl)
    as (acquired & Hrun & Hok & _ & _ & _ & Hempty).
  exists acquired. repeat split; [exact Hrun | exact Hok |].
  apply Hempty. intros page. eexists. reflexivity.
Defined.

Lemma flag_cleared_after (this : ContentScript) (env : Environment) :
  isProcessingAllPages (after (getAllPagesData this env)) = false.
Proof.
  unfold getAllPagesData, getAllPagesDataFast.
  now destruct (if apiKnown _ then _ else _).
Qed.

Lemma loadPagesLoop_returns (this : ContentScript) (env : Environment) (urls : list Url) :
  (forall callback progress,
     progressCallback this = Some callback -> exists u, callback progress = Ok u) ->
  forall fuel i st, exists st', loadPagesLoop fuel this env urls i st = (Ok tt, st').
Proof.
  intros Hcallback. induction fuel as [|fuel IH]; intros i st.
  - eexists. reflexivity.
  - rewrite loadPagesLoop_step. destruct (i <? length urls)%nat; [|eauto].
    destruct (progressCallback this) as [callback|] eqn:E; [|apply IH].
    destruct (Hcallback callback (progressAt urls i) eq_refl) as (u & ->). apply IH.
Qed.

Lemma dom_run_returns_success (this : ContentScript) (env : Environment) :
  apiKnown this = false ->
  (forall callback progress,
     progressCallback this = Some callback -> exists u, callback progress = Ok u) ->
  exists acquired,
    returned (getAllPagesData this env) = Ok acquired
    /\ success acquired = true
    /\ error acquired = None
    /\ totalProcessed acquired = Some (Z.of_nat (length (data acquired)))
    /\ expectedTotal acquired = Some (totalCount this).
Proof.
  intros K Hcallback. unfold getAllPagesData, getAllPagesDataFast.
  rewrite apiKnown_setProcessing, K.
  unfold getAllPagesViaOptimizedDOM, loadPagesInParallel, loadPagesRun.
  destruct (loadPagesLoop_returns (setProcessing this true []) env
              (generateAllPageUrls (setProcessing this true [])) Hcallback
              (length (generateAllPageUrls (setProcessing this true []))) 0%nat
              {| results := []; events := [] |}) as (st & ->).
  eexists. repeat split.
Qed.

(** X6: on the path through the frames a run ends as a success, with no
    error and with totalProcessed equal to the number of records, whenever
    the registered progress callback does not throw (or none is registered):
    no outcome of a frame (load, unreadable document, load error, expiry of
    the timer) can fail the run. *)
Theorem dom_run_succeeds_unless_callback_throws (this : ContentScript) (env : Environment) :
  apiKnown this = false ->
  (forall callback progress,
     progressCallback this = Some callback -> exists u, callback progress = Ok u) ->
  exists acquired,
    returned (getAllPagesData this env) = Ok acquired
    /\ success acquired = true
    /\ error acquired = None
    /\ totalProcessed acquired = Some (Z.of_nat (length (data acquired)))
    /\ expectedTotal acquired = Some (totalCount this).
Proof.
  exact (dom_run_returns_success this env).
Qed.

Lemma dom_run_succeeds_unless_callback_throws_witness :
  exists acquired,
    returned (getAllPagesData (Examples.withoutApi 550 11 (Some Examples.returning))
                Examples.loading) = Ok acquired
    /\ success acquired = true.
Proof.
  destruct (dom_run_succeeds_unless_callback_throws
              (Examples.withoutApi 550 11 (Some Examples.returning)) Examples.loading
              eq_refl) as (acquired & Hrun & Hok & _).
  - intros callback progress H. injection H as <-. exists tt. reflexivity.
  - exists acquired. split; assumption.
Defined.

(** X7: when the popup asks for all pages with progress updates and no API
    is known, the listener answers with a successful result as long as
    [chrome.runtime.sendMessage] returns a promise: a delivery of progress
    that is rejected later is swallowed by the [catch] of the callback and
    never fails the acquisition.  The flag is cleared and the callback stays
    registered afterwards. *)
Theorem rejected_progress_delivery_is_ignored (script : ContentScript) (env : Environment)
  (sendMessage : Progress -> SendOutcome) (request : Request) :
  action request = VStr (lit "getAllPagesData") ->
  wantsProgress request = true ->
  apiKnown script = false ->
  (forall progress, exists rejection, sendMessage progress = SendReturns rejection) ->
  exists acquired,
    fst (onMessage script env sendMessage request) = Acquired acquired
    /\ success acquired = true
    /\ error acquired = None
    /\ isProcessingAllPages (snd (onMessage script env sendMessage request)) = false
    /\ progressCallback (snd (onMessage script env sendMessage request))
       = Some (listenerCallback sendMessage).
Proof.
  intros Haction Hwants K Hsend.
  unfold onMessage, isAction. rewrite Haction, Hwants.
  replace (JsString.eqb (lit "getAllPagesData") (lit "ping")) with false by reflexivity.
  replace (JsString.eqb (lit "getAllPagesData") (lit "getInvoiceData")) with false
    by reflexivity.
  replace (JsString.eqb (lit "getAllPagesData") (lit "getAllPagesData")) with true
    by reflexivity.
  cbv zeta. cbn [fst snd].
  destruct (dom_run_returns_success
              (setProgressCallback script (listenerCallback sendMessage)) env K)
    as (acquired & Hrun & Hok & Herr & _).
  - intros callback progress H. cbn [progressCallback setProgressCallback] in H.
    injection H as <-. unfold listenerCallback.
    destruct (Hsend progress) as (rejection & ->). exists tt. reflexivity.
  - exists acquired. rewrite Hrun. repeat split; auto.
    + apply flag_cleared_after.
    + unfold getAllPagesData, getAllPagesDataFast.
      now destruct (if apiKnown _ then _ else _).
Qed.

Lemma rejected_progress_delivery_is_ignored_witness :
  exists acquired,
    fst (onMessage (Examples.withoutApi 550 11 None) Examples.loading disconnected
           allPagesWithProgress) = Acquired acquired
    /\ success acquired = true.
Proof.
  destruct (rejected_progress_delivery_is_ignored
              (Examples.withoutApi 550 11 None) Examples.loading disconnected
              allPagesWithProgress eq_refl eq_refl eq_refl)
    as (acquired & H & Hok & _).
  - intros progress. eexists. reflexivity.
  - exists acquired. split; assumption.
Defined.

Lemma loadPagesRun_empty (this : ContentScript) (env : Environment) :
  loadPagesRun this env [] = (Ok tt, {| results := []; events := [] |}).
Proof.
  reflexivity.
Qed.

Lemma run_without_pages (this : ContentScript) (env : Environment) :
  totalPages this <= 0 ->
  exists acquired,
    returned (getAllPagesData this env) = Ok acquired
    /\ success acquired = true
    /\ data acquired = []
    /\ expectedTotal acquired = Some (totalCount this)
    /\ startedPages (trace (getAllPagesData this env)) = []
    /\ reports (trace (getAllPagesData this env)) = [].
Proof.
  intros Hpages.
  assert (allPages (setProcessing this true []) = []) as Hnone.
  { unfold allPages. cbn [totalPages setProcessing].
    replace (Z.to_nat (totalPages this)) with 0%nat by lia. reflexivity. }
  unfold getAllPagesData, getAllPagesDataFast. rewrite apiKnown_setProcessing.
  destruct (apiKnown this).
  - rewrite getAllPagesViaAPI_eq, Hnone. eexists. repeat split.
  - unfold getAllPagesViaOptimizedDOM, loadPagesInParallel.
    rewrite generateAllPageUrls_eq, Hnone, loadPagesRun_empty.
    eexists. repeat split.
Qed.

(** X8: when no element of the rendered page shows "Results: <digits>", the
    inspection stores the total count 0 and 0 pages, and a run that follows it
    acquires nothing: it starts no page, calls no progress callback, and
    still answers with a success that holds no record and expects 0. *)
Theorem nothing_acquired_when_count_unknown (this : ContentScript) (doc : Document)
  (env : Environment) :
  Pagination.firstResults (elementTexts doc) = None ->
  exists scanned,
    scanForInvoices this doc = Some scanned
    /\ totalCount scanned = 0
    /\ totalPages scanned = 0
    /\ exists acquired,
         returned (getAllPagesData scanned env) = Ok acquired
         /\ success acquired = true
         /\ data acquired = []
         /\ expectedTotal acquired = Some 0
         /\ startedPages (trace (getAllPagesData scanned env)) = []
         /\ reports (trace (getAllPagesData scanned env)) = [].
Proof.
  intros Hnone.
  assert (Pagination.extractTotalCount doc = Number.ofZ 0) as Hread.
  { unfold Pagination.extractTotalCount. now rewrite Hnone. }
  unfold scanForInvoices, extractPaginationInfo. rewrite Hread.
  change (Number.toInteger (Number.ofZ 0)) with (Some 0).
  eexists. split; [reflexivity|]. cbn [totalCount totalPages].
  split; [reflexivity|]. split; [reflexivity|].
  match goal with
  | |- context [getAllPagesData ?scanned env] =>
      destruct (run_without_pages scanned env ltac:(cbn [totalPages]; vm_compute; discriminate))
        as (acquired & H1 & H2 & H3 & H4 & H5 & H6)
  end.
  exists acquired. repeat split; assumption.
Qed.

Lemma nothing_acquired_when_count_unknown_witness :
  exists scanned acquired,
    scanForInvoices (Examples.withApi 120 3)
      {| detailsRows := []; listCells := []; indexedRows := [];
         gridRows := []; elementTexts := [lit "Results: none"];
         activeButtonText := None |} = Some scanned
    /\ returned (getAllPagesData scanned Examples.loading) = Ok acquired
    /\ data acquired = [].
Proof.
  destruct (nothing_acquired_when_count_unknown (Examples.withApi 120 3)
              {| detailsRows := []; listCells := []; indexedRows := [];
                 gridRows := []; elementTexts := [lit "Results: none"];
                 activeButtonText := None |}
              Examples.loading eq_refl)
    as (scanned & Hscan & _ & _ & acquired & Hrun & _ & Hdata & _).
  exists scanned, acquired. repeat split; assumption.
Defined.

(** ** Batches of frames *)

Lemma afterBatch_events_turnOf (this : ContentScript) (env : Environment)
  (urls : list Url) (k : nat) (st : LoopState) :
  events (afterBatch this env urls (domBatchSize * k) st)
  = events st ++ turnOf this urls k.
Proof.
  unfold afterBatch, turnOf. destruct (progressCallback this); cbn [events];
    rewrite <- ?app_assoc, ?app_nil_r; reflexivity.
Qed.

(** Every run of [loadPagesInParallel], however it ends, is a sequence of
    turns. *)
Lemma loadPagesRun_turnsOf (this : ContentScript) (env : Environment) (urls : list Url)
  (r : result unit) (st : LoopState) :
  loadPagesRun this env urls = (r, st) ->
  exists batches, events st = concat (map (turnOf this urls) (seq 0 batches)).
Proof.
  intros Hrun. unfold loadPagesRun in Hrun.
  pose (Inv := fun (i : nat) (st : LoopState) =>
    exists b,
      i = (domBatchSize * b)%nat
      /\ events st = concat (map (turnOf this urls) (seq 0 b))).
  assert (forall i st0, (i < length urls)%nat -> Inv i st0 ->
            Inv (i + domBatchSize)%nat (afterBatch this env urls i st0)) as Hstep.
  { intros i st0 Hi (b & -> & E). exists (S b). split.
    - unfold domBatchSize. lia.
    - rewrite afterBatch_events_turnOf, seq_S, map_app, concat_app, E.
      cbn [map concat Nat.add]. now rewrite app_nil_r. }
  destruct (loadPagesLoop_invariant Inv this env urls Hstep _ _ _ _ _ Hrun)
    as (j & (b & -> & E) & _).
  - unfold domBatchSize. lia.
  - exists 0%nat. split; reflexivity.
  - exists b. exact E.
Qed.

Lemma existsb_eqb_In (q : Z) (pages : list Z) :
  In q pages -> existsb (Z.eqb q) pages = true.
Proof.
  intros H. apply existsb_exists. exists q. split; [exact H | apply Z.eqb_refl].
Qed.

Lemma awaits_started (b : Z) (pages started awaited : list Z) (rest : list Event) :
  (forall page, In page pages -> 5 * b < page <= 5 * b + 5) ->
  (forall q, In q started -> (q <= 5 * b /\ In q awaited) \/ 5 * b < q <= 5 * b + 5) ->
  awaitsEachBatch 5 started awaited (map Started pages ++ rest)
  = awaitsEachBatch 5 (rev pages ++ started) awaited rest.
Proof.
  revert started. induction pages as [|page pages IH]; intros started Hpages Hstarted.
  - reflexivity.
  - cbn [map app awaitsEachBatch].
    assert (5 * b < page <= 5 * b + 5) as Hpage by (apply Hpages; now left).
    assert ((page - 1) / 5 = b) as Hb.
    { symmetry. apply Z.div_unique with (r := page - 1 - 5 * b); lia. }
    assert (forallb (fun earlier =>
                       if (earlier - 1) / 5 <? (page - 1) / 5
                       then existsb (Z.eqb earlier) awaited
                       else true) started = true) as ->.
    { apply forallb_forall. intros q Hq. rewrite Hb.
      destruct (Hstarted q Hq) as [[_ Hin]|Hsame].
      - rewrite (existsb_eqb_In q awaited Hin). now destruct (_ <? _).
      - assert ((q - 1) / 5 = b) as ->.
        { symmetry. apply Z.div_unique with (r := q - 1 - 5 * b); lia. }
        now rewrite Z.ltb_irrefl. }
    cbn [andb]. rewrite IH.
    + cbn [rev]. now rewrite <- app_assoc.
    + intros p Hp. apply Hpages. now right.
    + intros q [<-|Hq]; [now right | now apply Hstarted].
Qed.

Lemma awaits_turns (this : ContentScript) (urls : list Url) (k b : nat)
  (started awaited : list Z) :
  (forall q, In q started -> q <= 5 * Z.of_nat b /\ In q awaited) ->
  awaitsEachBatch 5 started awaited (concat (map (turnOf this urls) (seq b k))) = true.
Proof.
  revert b started awaited. induction k as [|k IH]; intros b started awaited Hstarted.
  - reflexivity.
  - cbn [seq map concat]. unfold turnOf at 1. rewrite <- !app_assoc.
    assert (forall page, In page (batchPages urls (domBatchSize * b)) ->
              5 * Z.of_nat b < page <= 5 * Z.of_nat b + 5) as Hpages.
    { intros page Hp. rewrite batchPages_range in Hp. apply In_range in Hp.
      unfold domBatchSize in *. lia. }
    rewrite (awaits_started (Z.of_nat b)); [|exact Hpages|].
    2:{ intros q Hq. left. now apply Hstarted. }
    cbn [app awaitsEachBatch].
    assert (forall q,
              In q (rev (batchPages urls (domBatchSize * b)) ++ started) ->
              q <= 5 * Z.of_nat (S b)
              /\ In q (batchPages urls (domBatchSize * b) ++ awaited)) as Hnext.
    { intros q Hq. apply in_app_or in Hq. destruct Hq as [Hq|Hq].
      - apply in_rev in Hq. specialize (Hpages q Hq).
        split; [lia | apply in_or_app; now left].
      - destruct (Hstarted q Hq). split; [lia | apply in_or_app; now right]. }
    destruct (progressCallback this); cbn [app awaitsEachBatch]; now apply IH.
Qed.

(** X9: on the path through the frames, every run, however it ends, starts
    the frame of a page only after the frames of all pages of earlier batches
    of five have been awaited: never more than five frames load at a time. *)
Theorem dom_run_awaits_each_batch (this : ContentScript) (env : Environment) :
  apiKnown this = false ->
  awaitsEachBatch 5 [] [] (trace (getAllPagesData this env)) = true.
Proof.
  intros K. unfold getAllPagesData, getAllPagesDataFast.
  rewrite apiKnown_setProcessing, K.
  unfold getAllPagesViaOptimizedDOM, loadPagesInParallel.
  destruct (loadPagesRun (setProcessing this true []) env
              (generateAllPageUrls (setProcessing this true [])))
    as [r st] eqn:Hrun.
  destruct (loadPagesRun_turnsOf _ _ _ _ _ Hrun) as (batches & E).
  assert (trace (let '(body, events) :=
                   match r with
                   | Ok _ =>
                       (Ok {| success := true;
                              data := results st;
                              totalProcessed := Some (Z.of_nat (length (results st)));
                              expectedTotal := Some (totalCount (setProcessing this true []));
                              error := None |}, events st)
                   | Throw message => (Throw message, events st)
                   end in
                 {| returned :=
                      match body with
                      | Ok acquired => Ok acquired
                      | Throw message =>
                          Ok {| success := false;
                                data := allPagesData (setProcessing this true []);
                                totalProcessed := None;
                                expectedTotal := None;
                                error := Some message |}
                      end;
                    after := setProcessing (setProcessing this true []) false
                               (allPagesData (setProcessing this true []));
                    trace := events |}) = events st) as -> by now destruct r.
  rewrite E. apply awaits_turns. intros q [].
Qed.

Lemma dom_run_awaits_each_batch_witness :
  awaitsEachBatch 5 [] []
    (trace (getAllPagesData (Examples.withoutApi 550 11 (Some Examples.throwing))
              Examples.loading)) = true.
Proof.
  exact (dom_run_awaits_each_batch
           (Examples.withoutApi 550 11 (Some Examples.throwing)) Examples.loading eq_refl).
Defined.

(** ** The observed endpoint and token *)

Lemma dropWhile_In (p : N -> bool) (s : jsstring) (x : N) :
  In x (dropWhile p s) -> In x s.
Proof.
  induction s as [|c s IH]; [easy|]. cbn [dropWhile].
  destruct (p c); [|easy]. intros H. right. now apply IH.
Qed.

Lemma trim_In (s : jsstring) (x : N) : In x (trim s) -> In x s.
Proof.
  unfold trim, trimStart. intros H. apply in_rev in H.
  apply dropWhile_In in H. apply in_rev in H. now apply dropWhile_In in H.
Qed.

Lemma splitOn_pieces (c : N) (s : jsstring) (piece : jsstring) :
  In piece (fst (splitOn c s) :: snd (splitOn c s)) ->
  ~ In c piece /\ (forall x, In x piece -> In x s).
Proof.
  revert piece. induction s as [|x s IH]; intros piece H.
  - cbn in H. destruct H as [<-|[]]. split; [easy | easy].
  - cbn [splitOn] in H. destruct (splitOn c s) as [first others] eqn:E.
    cbn [fst snd] in IH. destruct (N.eqb_spec x c) as [->|Hne]; cbn [fst snd] in H.
    + destruct H as [<-|H]; [split; easy|].
      destruct (IH piece H) as [Hc Hin]. split; [exact Hc|].
      intros y Hy. right. now apply Hin.
    + destruct H as [<-|H].
      * destruct (IH first (or_introl eq_refl)) as [Hc Hin]. split.
        -- intros [Hx|Hx]; [congruence | now apply Hc].
        -- intros y [<-|Hy]; [now left | right; now apply Hin].
      * destruct (IH piece (or_intror H)) as [Hc Hin]. split; [exact Hc|].
        intros y Hy. right. now apply Hin.
Qed.

Lemma tokenAmong_value (cookies : list jsstring) (value : jsstring) :
  tokenAmong cookies = VStr value ->
  ~ In 61%N value /\ exists cookie, In cookie cookies /\ forall x, In x value -> In x cookie.
Proof.
  induction cookies as [|cookie rest IH]; [discriminate|].
  cbn [tokenAmong]. destruct (splitOn 61 (trim cookie)) as [name fields] eqn:E.
  destruct (includes (lit "token") name || includes (lit "auth") name).
  - destruct fields as [|field fields]; [discriminate|]. intros [= <-].
    destruct (splitOn_pieces 61 (trim cookie) field) as [Hc Hin].
    { rewrite E. cbn. auto. }
    split; [exact Hc|]. exists cookie. split; [now left|].
    intros x Hx. apply trim_In. now apply Hin.
  - intros H. destruct (IH H) as (Hc & c & Hin & Hsub).
    split; [exact Hc|]. exists c. split; [now right | exact Hsub].
Qed.

(** X10: a token read from the cookies never holds an equals sign or a
    semicolon: the value of the cookie is cut at its first equals sign, so a
    token that holds one (the padding of base64) is not read whole. *)
Theorem cookie_token_is_cut_at_equals_sign (cookie : jsstring) (token : jsstring) :
  extractTokenFromCookies cookie = VStr token ->
  ~ In 61%N token /\ ~ In 59%N token.
Proof.
  unfold extractTokenFromCookies.
  destruct (splitOn 59 cookie) as [first others] eqn:E. intros H.
  destruct (tokenAmong_value _ _ H) as (Hequals & piece & Hpiece & Hsub).
  split; [exact Hequals|]. intros Hsemi.
  destruct (splitOn_pieces 59 cookie piece) as [Hc _].
  { now rewrite E. }
  apply Hc. now apply Hsub.
Qed.

Lemma cookie_token_is_cut_at_equals_sign_witness :
  extractTokenFromCookies (lit "lang=ar; authToken=YWJj=; theme=dark") = VStr (lit "YWJj")
  /\ ~ In 61%N (lit "YWJj").
Proof.
  split; [reflexivity|].
  exact (proj1 (cookie_token_is_cut_at_equals_sign
                  (lit "lang=ar; authToken=YWJj=; theme=dark") (lit "YWJj") eq_refl)).
Defined.

Lemma includes_nonempty (p s : jsstring) : p <> [] -> includes p s = true -> s <> [].
Proof.
  intros Hp H ->. destruct p; [congruence | discriminate].
Qed.

Lemma onMessage_keeps_api (this : ContentScript) (env : Environment)
  (sendMessage : Progress -> SendOutcome) (request : Request) :
  apiEndpoint (snd (onMessage this env sendMessage request)) = apiEndpoint this
  /\ authHeaders (snd (onMessage this env sendMessage request)) = authHeaders this.
Proof.
  unfold onMessage.
  destruct (isAction request "ping"); [easy|].
  destruct (isAction request "getInvoiceData"); [easy|].
  destruct (isAction request "getAllPagesData"); [|easy].
  cbv zeta. cbn [snd]. unfold getAllPagesData, getAllPagesDataFast.
  destruct (wantsProgress request);
    now destruct (if apiKnown _ then _ else _).
Qed.

Lemma performAll_app (calls : list Call) (call : Call) (this : ContentScript) :
  performAll (calls ++ [call]) this
  = match performAll calls this with
    | Some before => perform before call
    | None => None
    end.
Proof.
  revert this. induction calls as [|first calls IH]; intros this.
  - cbn. now destruct (perform this call).
  - cbn [app performAll]. destruct (perform this first); [apply IH | reflexivity].
Qed.

(** What holds of the endpoint and the token after some calls. *)
Lemma observed_invariant (this : ContentScript) (calls : list Call) :
  apiEndpoint this = None ->
  authHeaders this = None ->
  forall final,
    performAll calls this = Some final ->
    (forall url, apiEndpoint final = Some url ->
       includes (lit "/api/") url = true
       /\ includes (lit "documents") url = true
       /\ exists page, In (Observe page (VStr url)) calls)
    /\ (forall token, authHeaders final = Some token ->
          token <> []
          /\ apiEndpoint final <> None
          /\ exists page url, In (Observe page url) calls /\ tokenOf page = VStr token).
Proof.
  intros Hendpoint Hheaders.
  induction calls as [|call calls IH] using rev_ind; intros final Hfinal.
  - cbn in Hfinal. injection Hfinal as <-.
    rewrite Hendpoint, Hheaders. split; intros ? [=].
  - rewrite performAll_app in Hfinal.
    destruct (performAll calls this) as [before|]; [|discriminate].
    destruct (IH before eq_refl) as [IHe IHt].
    assert (forall url,
              apiEndpoint before = Some url ->
              includes (lit "/api/") url = true
              /\ includes (lit "documents") url = true
              /\ exists page, In (Observe page (VStr url)) (calls ++ [call])) as IHe'.
    { intros url H. destruct (IHe url H) as (H1 & H2 & page & Hin).
      repeat split; auto. exists page. apply in_or_app. now left. }
    assert (forall token,
              authHeaders before = Some token ->
              token <> []
              /\ exists page url,
                   In (Observe page url) (calls ++ [call]) /\ tokenOf page = VStr token)
      as IHt'.
    { intros token H. destruct (IHt token H) as (H1 & _ & page & url & Hin & Htoken).
      split; auto. exists page, url. split; auto. apply in_or_app. now left. }
    destruct call as [page url|doc|env sendMessage request]; cbn [perform] in Hfinal.
    + (* analyzeRequest *)
      injection Hfinal as <-.
      unfold analyzeRequest.
      destruct url as [| | | |text| |];
        try (split; [exact IHe' |
                     intros token H; destruct (IHt' token H) as (? & ?);
                     destruct (IHt token H) as (_ & ? & _); auto]).
      destruct (includes (lit "/api/") text && includes (lit "documents") text) eqn:Hurl.
      2:{ split; [exact IHe' |
                  intros token H; destruct (IHt' token H) as (? & ?);
                  destruct (IHt token H) as (_ & ? & _); auto]. }
      apply andb_prop in Hurl. destruct Hurl as [Hapi Hdocuments].
      assert (In (Observe page (VStr text)) (calls ++ [Observe page (VStr text)])) as Hlast.
      { apply in_or_app. right. now left. }
      unfold extractAuthHeaders.
      destruct (tokenOf page) as [| | | |[|c token]| |] eqn:Htoken;
        cbn [apiEndpoint authHeaders].
      all: split;
        [ intros url [= <-]; repeat split; auto; now exists page
        | intros token' H ].
      all: try (destruct (IHt' token' H) as (? & ?); repeat split; auto; discriminate).
      injection H as <-. repeat split; [discriminate | discriminate |].
      exists page, (VStr text). split; [exact Hlast | exact Htoken].
    + (* scanForInvoices *)
      destruct (scanForInvoices_keeps before doc final Hfinal) as (_ & -> & ->).
      split; [exact IHe'|].
      intros token H. destruct (IHt' token H) as (? & ?).
      destruct (IHt token H) as (_ & ? & _). auto.
    + (* the listener *)
      injection Hfinal as <-.
      destruct (onMessage_keeps_api before env sendMessage request) as [-> ->].
      split; [exact IHe'|].
      intros token H. destruct (IHt' token H) as (? & ?).
      destruct (IHt token H) as (_ & ? & _). auto.
Qed.

(** X11: whatever requests are analyzed, pages scanned and messages handled
    by a content script that starts with no endpoint and no token, a run takes
    the API path only when the stored endpoint is the url of an analyzed
    request that holds "/api/" and "documents", and the stored token is a
    text that is not empty, found in the storage or the cookies of the page
    when some request was analyzed. *)
Theorem api_path_needs_observed_endpoint_and_token (this : ContentScript)
  (calls : list Call) (final : ContentScript) :
  apiEndpoint this = None ->
  authHeaders this = None ->
  performAll calls this = Some final ->
  apiKnown final = true ->
  exists url token,
    apiEndpoint final = Some url
    /\ authHeaders final = Some token
    /\ includes (lit "/api/") url = true
    /\ includes (lit "documents") url = true
    /\ (exists page, In (Observe page (VStr url)) calls)
    /\ token <> []
    /\ exists page observed, In (Observe page observed) calls /\ tokenOf page = VStr token.
Proof.
  intros Hendpoint Hheaders Hfinal K.
  destruct (observed_invariant this calls Hendpoint Hheaders final Hfinal) as [He Ht].
  unfold apiKnown in K.
  destruct (apiEndpoint final) as [url|]; [|discriminate].
  destruct (authHeaders final) as [token|]; [|discriminate].
  destruct (He url eq_refl) as (H1 & H2 & H3).
  destruct (Ht token eq_refl) as (H4 & _ & H5).
  exists url, token. repeat split; auto.
Qed.

Lemma api_path_needs_observed_endpoint_and_token_witness :
  exists final url token,
    performAll
      [Scan Examples.oneRow;
       Observe pageWithCookie (VStr Examples.endpoint);
       Message Examples.loading disconnected allPagesWithProgress]
      constructed = Some final
    /\ apiEndpoint final = Some url
    /\ includes (lit "/api/") url = true
    /\ token <> ([] : jsstring).
Proof.
  destruct (performAll
              [Scan Examples.oneRow;
               Observe pageWithCookie (VStr Examples.endpoint);
               Message Examples.loading disconnected allPagesWithProgress]
              constructed) as [final|] eqn:E; [|discriminate E].
  destruct (api_path_needs_observed_endpoint_and_token constructed
              [Scan Examples.oneRow;
               Observe pageWithCookie (VStr Examples.endpoint);
               Message Examples.loading disconnected allPagesWithProgress]
              final eq_refl eq_refl E
              ltac:(vm_compute in E; injection E as <-; reflexivity))
    as (url & token & H1 & _ & H2 & _ & _ & H3 & _).
  exists final, url, token. repeat split; assumption.
Defined.

Lemma count_occ_absent (c : N) (s : jsstring) :
  Forall (fun x => x <> c) s -> count_occ N.eq_dec s c = 0%nat.
Proof.
  intros H. apply count_occ_not_In. intros Hin.
  rewrite Forall_forall in H. now apply (H c).
Qed.

Lemma decimalZ_chars (z : Z) :
  Forall (fun c => c = 45%N \/ isDigit c = true) (decimalZ z).
Proof.
  unfold decimalZ. destruct (z <? 0).
  - constructor; [now left|].
    eapply Forall_impl; [|apply decimal_digits]. intros c H. now right.
  - eapply Forall_impl; [|apply decimal_digits]. intros c H. now right.
Qed.

Lemma decimalZ_no_question_mark (z : Z) : count_occ N.eq_dec (decimalZ z) 63%N = 0%nat.
Proof.
  apply count_occ_absent. eapply Forall_impl; [|apply decimalZ_chars].
  intros c [->|H]; [discriminate|]. intros ->. discriminate.
Qed.

Lemma takeWhile_no_question_mark (s : jsstring) :
  count_occ N.eq_dec (takeWhile (fun c => negb (N.eqb c 63)) s) 63%N = 0%nat.
Proof.
  induction s as [|c s IH]; [reflexivity|]. cbn [takeWhile].
  destruct (N.eqb_spec c 63) as [->|Hne]; cbn [negb]; [reflexivity|].
  rewrite count_occ_cons_neq; [exact IH | exact Hne].
Qed.

(** X12: the url of a page of the API has exactly one question mark, whatever
    the observed endpoint holds (its own query is dropped), and no other page
    has the same url: what the API answers to one page is never taken for the
    answer to another. *)
Theorem api_urls_distinct (this : ContentScript) (page : Z) (url : jsstring) :
  buildAPIUrl this page = Ok url ->
  count_occ N.eq_dec url 63%N = 1%nat
  /\ forall other, buildAPIUrl this other = Ok url -> other = page.
Proof.
  unfold buildAPIUrl. destruct (apiEndpoint this) as [endpoint|]; [|discriminate].
  set (baseUrl := takeWhile (fun c => negb (N.eqb c 63)) endpoint).
  set (tail := lit "&pageSize=" ++ decimalZ (resultsPerPage this)
                 ++ lit "&sortBy=dateTimeReceived&sortOrder=desc").
  intros H.
  assert (url = baseUrl ++ lit "?page=" ++ decimalZ page ++ tail) as -> by congruence.
  clear H. split.
  - subst baseUrl tail.
    rewrite !count_occ_app, takeWhile_no_question_mark, !decimalZ_no_question_mark.
    reflexivity.
  - intros other H.
    assert (baseUrl ++ lit "?page=" ++ decimalZ other ++ tail
            = baseUrl ++ lit "?page=" ++ decimalZ page ++ tail) as E by congruence.
    apply app_inv_head in E. apply app_inv_head in E. apply app_inv_tail in E.
    now apply decimalZ_inj.
Qed.

Lemma api_urls_distinct_witness :
  count_occ N.eq_dec
    (lit "https://invoicing.eta.gov.eg/api/v1/documents/recent?page=2&pageSize=50&sortBy=dateTimeReceived&sortOrder=desc")
    63%N = 1%nat.
Proof.
  exact (proj1 (api_urls_distinct (Examples.withApi 120 3) 2 _ eq_refl)).
Defined.

(** ** The count the page shows *)

Lemma startsWith_refl (s : jsstring) : startsWith s s = true.
Proof.
  induction s as [|c s IH]; [reflexivity|]. cbn. now rewrite N.eqb_refl.
Qed.

Lemma matchResultsAt_other_head (c : N) (s : jsstring) :
  foldCase c <> 114%N -> Pagination.matchResultsAt (c :: s) = None.
Proof.
  intros H. unfold Pagination.matchResultsAt, startsWithIgnoreCase.
  change (length (lit "Results:")) with 8%nat.
  change (map foldCase (lit "Results:")) with (114%N :: lit "esults:").
  cbn [firstn map startsWith].
  destruct (N.eqb_spec 114 (foldCase c)) as [E|_]; [congruence | reflexivity].
Qed.

Lemma matchResults_skip (before s : jsstring) :
  Forall (fun c => foldCase c <> 114%N) before ->
  Pagination.matchResults (before ++ s) = Pagination.matchResults s.
Proof.
  induction 1 as [|c before Hc _ IH]; [reflexivity|].
  cbn [app Pagination.matchResults]. now rewrite matchResultsAt_other_head.
Qed.

Lemma matchResultsAt_shown (label spaces after : jsstring) (n : N) :
  map foldCase label = lit "results:" ->
  Forall (fun c => isWhiteSpace c = true) spaces ->
  (forall c rest, after = c :: rest -> isDigit c = false) ->
  Pagination.matchResultsAt (label ++ spaces ++ decimal n ++ after) = Some (decimal n).
Proof.
  intros Hlabel Hspaces Hafter.
  assert (length label = 8%nat) as Hlength.
  { rewrite <- (length_map foldCase), Hlabel. reflexivity. }
  unfold Pagination.matchResultsAt, startsWithIgnoreCase.
  change (length (lit "Results:")) with 8%nat.
  change (map foldCase (lit "Results:")) with (lit "results:").
  rewrite <- Hlength at 1. rewrite firstn_app, firstn_all, Nat.sub_diag, firstn_O, app_nil_r.
  rewrite Hlabel, startsWith_refl.
  rewrite <- Hlength, skipn_app, skipn_all, Nat.sub_diag. cbn [skipn app].
  rewrite dropWhile_app_all by exact Hspaces.
  destruct (decimal_head n) as (c & rest & E & Hc).
  assert (dropWhile isWhiteSpace (decimal n ++ after) = decimal n ++ after) as ->.
  { rewrite E. cbn [app dropWhile]. now rewrite (digit_not_whiteSpace c Hc). }
  rewrite takeWhile_app_all; [|apply decimal_digits | exact Hafter].
  now rewrite E.
Qed.

(** X13: when the text of the first element of the page holds, before any
    other letter r, the label "Results:" in any case, white space or none,
    and the decimal digits of a number, the count read is the binary64 number
    nearest to that number; and when the number is at most 2^53, the scan
    stores that number as the total count, pages of 50 results, and the least
    number of pages that hold the count. *)
Theorem shown_count_is_stored (this : ContentScript) (doc : Document) (n : N)
  (before label spaces after : jsstring) (others : list jsstring) :
  Forall (fun c => foldCase c <> 114%N) before ->
  map foldCase label = lit "results:" ->
  Forall (fun c => isWhiteSpace c = true) spaces ->
  (forall c rest, after = c :: rest -> isDigit c = false) ->
  elementTexts doc = (before ++ label ++ spaces ++ decimal n ++ after) :: others ->
  Pagination.extractTotalCount doc = Number.ofDecimal false n 0
  /\ ((n <= 2 ^ 53)%N ->
      exists scanned,
        scanForInvoices this doc = Some scanned
        /\ totalCount scanned = Z.of_N n
        /\ resultsPerPage scanned = 50
        /\ 50 * (totalPages scanned - 1) < Z.of_N n <= 50 * totalPages scanned).
Proof.
  intros Hbefore Hlabel Hspaces Hafter Htexts.
  assert (Pagination.extractTotalCount doc = Number.ofDecimal false n 0) as Hcount.
  { unfold Pagination.extractTotalCount. rewrite Htexts. cbn [Pagination.firstResults].
    rewrite matchResults_skip by exact Hbefore.
    assert (Pagination.matchResults (label ++ spaces ++ decimal n ++ after)
            = Some (decimal n)) as ->.
    { destruct (label ++ spaces ++ decimal n ++ after) eqn:Etext;
        cbn [Pagination.matchResults]; rewrite <- Etext;
        now rewrite (matchResultsAt_shown label spaces after n Hlabel Hspaces Hafter). }
    rewrite parseInt_digits by (apply decimal_nonempty || apply decimal_digits).
    now rewrite digitsValue_decimal. }
  split; [exact Hcount|]. intros Hn.
  assert (Z.of_N n <= 2 ^ 53) as Hbound.
  { change (2 ^ 53) with (Z.of_N (2 ^ 53)). lia. }
  unfold scanForInvoices, extractPaginationInfo.
  rewrite Hcount, (ofDecimal_integer false n Hn).
  replace (1 * Z.of_N n) with (Z.of_N n) by lia.
  eexists. split; [reflexivity|]. cbn [totalCount resultsPerPage totalPages].
  split; [reflexivity|]. split; [reflexivity|].
  rewrite pagesFor_exact by lia. apply ceilDiv_spec. lia.
Qed.

Lemma shown_count_is_stored_witness :
  exists scanned,
    scanForInvoices constructed
      {| detailsRows := []; listCells := []; indexedRows := []; gridRows := [];
         elementTexts := [lit "Showing 1-50. RESULTS:  120 invoices"; lit "RESULTS:  7"];
         activeButtonText := None |} = Some scanned
    /\ totalCount scanned = 120
    /\ totalPages scanned = 3.
Proof.
  destruct (proj2 (shown_count_is_stored constructed
                     {| detailsRows := []; listCells := []; indexedRows := [];
                        gridRows := [];
                        elementTexts :=
                          [lit "Showing 1-50. RESULTS:  120 invoices"; lit "RESULTS:  7"];
                        activeButtonText := None |}
                     120 (lit "Showing 1-50. ") (lit "RESULTS:") (lit "  ")
                     (lit " invoices") [lit "RESULTS:  7"]
                     ltac:(repeat constructor; discriminate)
                     eq_refl
                     ltac:(repeat constructor)
                     ltac:(intros c rest [= <- _]; reflexivity)
                     eq_refl)
              ltac:(vm_compute; discriminate))
    as (scanned & Hscan & Hcount & _ & Hpages).
  exists scanned. repeat split; [exact Hscan | exact Hcount | lia].
Defined.

(** Beyond 2^53 the count that is stored is not always the count that is
    shown: of ["Results: 9007199254740993"] the scan stores 9007199254740992. *)
Example count_beyond_2_53_is_rounded :
  option_map totalCount
    (scanForInvoices constructed
       {| detailsRows := []; listCells := []; indexedRows := []; gridRows := [];
          elementTexts := [lit "Results: 9007199254740993"];
          activeButtonText := None |}) = Some 9007199254740992.
Proof.
  vm_compute. reflexivity.
Qed.

(** A count of 400 digits is read as [Infinity]. *)
Example count_of_400_digits_is_infinite :
  Pagination.extractTotalCount
    {| detailsRows := []; listCells := []; indexedRows := []; gridRows := [];
       elementTexts := [lit "Results: " ++ repeat 57%N 400];
       activeButtonText := None |} = S754_infinity false.
Proof.
  vm_compute. reflexivity.
Qed.

(** [Math.ceil(count / 50)] in binary64 is not always the least number of
    pages that hold the count: for 225179981368524864 results it is one page
    short. *)
Example pages_beyond_2_53_are_rounded :
  Pagination.pagesFor 225179981368524864 = 4503599627370497
  /\ Pagination.ceilDiv 225179981368524864 50 = 4503599627370498.
Proof.
  split; vm_compute; reflexivity.
Qed.

(** On these counts the pages are those the division of SpecFloat gives. *)
Example pages_as_SpecFloat_divides :
  let counts :=
    [1; 49; 50; 51; 120; 550; 12345; 4503599627370496; 9007199254740991;
     9007199254740992; 9007199254740994; 225179981368524864;
     225179981368524928; 10 ^ 22; 3 * 2 ^ 200; 2 ^ 1023] in
  map Pagination.pagesFor counts
  = map (fun count =>
           Qceiling
             (Binary64.valueOf
                (SFdiv Number.prec Number.emax (Number.ofZ count) (Number.ofZ 50))))
        counts.
Proof.
  vm_compute. reflexivity.
Qed.

(** ** Records read from rows *)

Lemma extractCell_kept (invoice : InvoiceRecord) (cell : Cell) :
  serialNumber (extractCell invoice cell) = serialNumber invoice
  /\ pageNumber (extractCell invoice cell) = pageNumber invoice
  /\ internalNumber (extractCell invoice cell) = internalNumber invoice
  /\ invoiceValue (extractCell invoice cell) = invoiceValue invoice
  /\ vatAmount (extractCell invoice cell) = vatAmount invoice
  /\ externalLink (extractCell invoice cell) = externalLink invoice.
Proof.
  unfold extractCell.
  destruct (JsString.eqb (automationKey cell) (lit "uuid"));
    [destruct (anchorText cell); repeat split|].
  destruct (JsString.eqb (automationKey cell) (lit "total"));
    [destruct (grayText cell); repeat split | repeat split].
Qed.

Lemma extractUsingDataAttributes_kept (row : Row) (invoice : InvoiceRecord) :
  serialNumber (extractUsingDataAttributes row invoice) = serialNumber invoice
  /\ pageNumber (extractUsingDataAttributes row invoice) = pageNumber invoice
  /\ internalNumber (extractUsingDataAttributes row invoice) = internalNumber invoice
  /\ invoiceValue (extractUsingDataAttributes row invoice) = invoiceValue invoice
  /\ vatAmount (extractUsingDataAttributes row invoice) = vatAmount invoice
  /\ externalLink (extractUsingDataAttributes row invoice) = externalLink invoice.
Proof.
  unfold extractUsingDataAttributes. revert invoice.
  induction (cells row) as [|cell rest IH]; intros invoice; [repeat split|].
  cbn [fold_left].
  destruct (IH (extractCell invoice cell)) as (-> & -> & -> & -> & -> & ->).
  apply extractCell_kept.
Qed.

Lemma serialNumber_extractDataFromRow (row : Row) (index : Z) :
  serialNumber (extractDataFromRow row index) = index.
Proof.
  unfold extractDataFromRow.
  now destruct (extractUsingDataAttributes_kept row
                  {| serialNumber := index;
                     pageNumber := None;
                     electronicNumber := VStr [];
                     internalNumber := VStr [];
                     totalAmount := VStr [];
                     invoiceValue := VUndefined;
                     vatAmount := VUndefined;
                     externalLink := VUndefined |}) as (-> & _).
Qed.

Lemma scanRowsFrom_records (rows : list Row) (index : Z) :
  (forall record,
     In record (scanRowsFrom index rows) ->
     exists k row,
       nth_error rows k = Some row
       /\ record = extractDataFromRow row (index + Z.of_nat k + 1))
  /\ StronglySorted Z.lt (map serialNumber (scanRowsFrom index rows))
  /\ Forall (fun serial => index < serial) (map serialNumber (scanRowsFrom index rows)).
Proof.
  revert index. induction rows as [|row rest IH]; intros index.
  - cbn. repeat split; [intros ? [] | constructor | constructor].
  - destruct (IH (index + 1)) as (Hin & Hsorted & Hlow).
    assert (forall record,
              In record (scanRowsFrom (index + 1) rest) ->
              exists k row0,
                nth_error (row :: rest) k = Some row0
                /\ record = extractDataFromRow row0 (index + Z.of_nat k + 1)) as Hrest.
    { intros record H. destruct (Hin record H) as (k & row0 & Hnth & ->).
      exists (S k), row0. split; [exact Hnth|]. f_equal. lia. }
    assert (Forall (fun serial => index < serial)
              (map serialNumber (scanRowsFrom (index + 1) rest))) as Hlow'.
    { eapply Forall_impl; [|exact Hlow]. cbv beta. intros serial H. lia. }
    cbn [scanRowsFrom]. cbv zeta.
    destruct (isValidInvoiceData (extractDataFromRow row (index + 1))).
    + split; [|split].
      * intros record [<-|H]; [|now apply Hrest].
        exists 0%nat, row. split; [reflexivity|]. f_equal. lia.
      * cbn [map]. constructor; [exact Hsorted|].
        rewrite serialNumber_extractDataFromRow. exact Hlow.
      * cbn [map]. constructor; [|exact Hlow'].
        rewrite serialNumber_extractDataFromRow. lia.
    + split; [exact Hrest|]. split; [exact Hsorted | exact Hlow'].
Qed.

Lemma visibleOf_visible (rows : list Row) (row : Row) :
  In row (visibleOf rows) -> isRowVisible row = true /\ hasInvoiceData row = true.
Proof.
  unfold visibleOf. intros H. apply filter_In in H. destruct H as [_ H].
  now apply andb_prop in H.
Qed.

Lemma getVisibleInvoiceRows_visible (doc : Document) (row : Row) :
  In row (getVisibleInvoiceRows doc) ->
  isRowVisible row = true /\ hasInvoiceData row = true.
Proof.
  unfold getVisibleInvoiceRows.
  destruct (visibleOf (detailsRows doc)) eqn:E1.
  - destruct (visibleOf (listCells doc)) eqn:E2.
    + apply visibleOf_visible.
    + rewrite <- E2. apply visibleOf_visible.
  - rewrite <- E1. apply visibleOf_visible.
Qed.

(** X14: the scan numbers the records of the visible page by the position of
    their rows: the serial number of a record is the 1-based position of its
    row among the rows [getVisibleInvoiceRows] returns, every such row has a
    rectangle of positive size and a link text that is not blank, and the
    serial numbers of the stored records increase strictly (a row that gives
    no valid record leaves a gap). *)
Theorem scan_numbers_records_by_row_position (this : ContentScript) (doc : Document)
  (scanned : ContentScript) :
  scanForInvoices this doc = Some scanned ->
  StronglySorted Z.lt (map serialNumber (invoiceData scanned))
  /\ forall record,
       In record (invoiceData scanned) ->
       exists row,
         nth_error (getVisibleInvoiceRows doc) (Z.to_nat (serialNumber record - 1))
         = Some row
         /\ 1 <= serialNumber record <= Z.of_nat (length (getVisibleInvoiceRows doc))
         /\ record = extractDataFromRow row (serialNumber record)
         /\ isRowVisible row = true
         /\ hasInvoiceData row = true.
Proof.
  intros Hscan.
  destruct (scanForInvoices_some this doc scanned Hscan) as (_ & _ & -> & _).
  destruct (scanRowsFrom_records (getVisibleInvoiceRows doc) 0) as (Hin & Hsorted & _).
  split; [exact Hsorted|]. intros record H.
  destruct (Hin record H) as (k & row & Hnth & ->).
  rewrite serialNumber_extractDataFromRow.
  assert (k < length (getVisibleInvoiceRows doc))%nat as Hk.
  { apply nth_error_Some. congruence. }
  exists row. replace (Z.to_nat (0 + Z.of_nat k + 1 - 1)) with k by lia.
  split; [exact Hnth|]. split; [lia|]. split; [reflexivity|].
  apply (getVisibleInvoiceRows_visible doc). eapply nth_error_In. exact Hnth.
Qed.

(** Dropping white space at the end of [t] leaves a prefix of [t] that is
    empty or ends with another character. *)
Lemma trimEnd_prefix (t : jsstring) :
  exists kept dropped,
    t = kept ++ dropped
    /\ trimStart (rev t) = rev kept
    /\ trimStart (rev kept) = rev kept.
Proof.
  unfold trimStart. induction t as [|c t IH] using rev_ind.
  - exists [], []. repeat split.
  - rewrite rev_app_distr. cbn [rev app dropWhile].
    destruct (isWhiteSpace c) eqn:E.
    + destruct IH as (kept & dropped & -> & H1 & H2).
      exists kept, (dropped ++ [c]). rewrite app_assoc. repeat split; assumption.
    + exists (t ++ [c]), []. rewrite app_nil_r, rev_app_distr.
      cbn [rev app dropWhile]. rewrite E. repeat split.
Qed.

Lemma trim_idempotent (s : jsstring) : trim (trim s) = trim s.
Proof.
  unfold trim.
  destruct (trimEnd_prefix (trimStart s)) as (kept & dropped & E & H1 & H2).
  rewrite H1, rev_involutive.
  assert (trimStart kept = kept) as ->.
  { apply dropWhile_fixed. intros c rest ->.
    apply (dropWhile_head isWhiteSpace s c (rest ++ dropped)). exact E. }
  now rewrite H2, rev_involutive.
Qed.

Lemma extractCell_readFromRow (invoice : InvoiceRecord) (cell : Cell) :
  readFromRow invoice -> readFromRow (extractCell invoice cell).
Proof.
  intros (He & Ht & Hi & Hv & Hf & Hl).
  assert (forall text, trimmedText (trimOrEmpty text)) as Htrim.
  { intros text. exists (trim text). split; [reflexivity | apply trim_idempotent]. }
  unfold extractCell.
  destruct (JsString.eqb (automationKey cell) (lit "uuid")).
  - destruct (anchorText cell); [|repeat split; assumption].
    repeat split; try assumption. apply Htrim.
  - destruct (JsString.eqb (automationKey cell) (lit "total")); [|repeat split; assumption].
    destruct (grayText cell); [|repeat split; assumption].
    repeat split; try assumption. apply Htrim.
Qed.

Lemma extractDataFromRow_readFromRow (row : Row) (index : Z) :
  readFromRow (extractDataFromRow row index).
Proof.
  unfold extractDataFromRow, extractUsingDataAttributes.
  assert (readFromRow {| serialNumber := index;
                         pageNumber := None;
                         electronicNumber := VStr [];
                         internalNumber := VStr [];
                         totalAmount := VStr [];
                         invoiceValue := VUndefined;
                         vatAmount := VUndefined;
                         externalLink := VUndefined |}) as H.
  { repeat split; exists []; split; reflexivity. }
  revert H. generalize {| serialNumber := index;
                          pageNumber := None;
                          electronicNumber := VStr [];
                          internalNumber := VStr [];
                          totalAmount := VStr [];
                          invoiceValue := VUndefined;
                          vatAmount := VUndefined;
                          externalLink := VUndefined |}.
  induction (cells row) as [|cell rest IH]; intros invoice H; [exact H|].
  cbn [fold_left]. apply IH. now apply extractCell_readFromRow.
Qed.

Lemma extractRowsFrom_readFromRow (rpp page index : Z) (rows : list Row) :
  Forall readFromRow (extractRowsFrom rpp page index rows).
Proof.
  apply Forall_forall. intros record H.
  destruct (extractRowsFrom_records rpp page rows index) as (Hin & _).
  destruct (Hin record H) as (k & row & _ & ->).
  exact (extractDataFromRow_readFromRow row (index + Z.of_nat k + 1)).
Qed.

(** X15: the records of the visible page, and the records a run returns when
    no API is known, hold what the two cells [uuid] and [total] of their rows
    show and nothing else: the electronic number and the total amount are
    texts with no white space at either end, the internal number is always
    empty, and the invoice value, the amount of VAT and the external link are
    never set. *)
Theorem records_of_rows_hold_number_and_total (this : ContentScript) (doc : Document)
  (env : Environment) :
  (forall scanned,
     scanForInvoices this doc = Some scanned ->
     Forall readFromRow (invoiceData scanned))
  /\ (apiKnown this = false ->
      forall acquired,
        returned (getAllPagesData this env) = Ok acquired ->
        Forall readFromRow (data acquired)).
Proof.
  split.
  - intros scanned Hscan.
    destruct (scanForInvoices_some this doc scanned Hscan) as (_ & _ & -> & _).
    apply Forall_forall. intros record H.
    destruct (scanRowsFrom_records (getVisibleInvoiceRows doc) 0) as (Hin & _).
    destruct (Hin record H) as (k & row & _ & ->).
    apply extractDataFromRow_readFromRow.
  - intros K acquired Hrun.
    destruct (getAllPagesData_result this env) as (acquired' & Hrun' & Hfail & Hok).
    rewrite Hrun in Hrun'. injection Hrun' as <-.
    destruct (success acquired) eqn:E.
    + destruct (Hok eq_refl) as (-> & _).
      apply Forall_concat. apply Forall_map. apply Forall_forall. intros page _.
      unfold pageRecords, firstEventData. rewrite K.
      destruct (frameEvent env page) as [[iframeDoc|]| |]; try constructor.
      apply extractRowsFrom_readFromRow.
    + rewrite (Hfail eq_refl). constructor.
Qed.

Lemma scan_numbers_records_by_row_position_witness :
  exists scanned row,
    scanForInvoices constructed Examples.oneRow = Some scanned
    /\ invoiceData scanned = [extractDataFromRow Examples.rowWithUuid 1]
    /\ nth_error (getVisibleInvoiceRows Examples.oneRow) 0 = Some row
    /\ extractDataFromRow Examples.rowWithUuid 1 = extractDataFromRow row 1.
Proof.
  destruct (scanForInvoices constructed Examples.oneRow) as [scanned|] eqn:E;
    [|discriminate E].
  assert (invoiceData scanned = [extractDataFromRow Examples.rowWithUuid 1]) as Hdata.
  { vm_compute in E. injection E as <-. reflexivity. }
  destruct (proj2 (scan_numbers_records_by_row_position constructed Examples.oneRow
                     scanned E)
              (extractDataFromRow Examples.rowWithUuid 1)
              ltac:(rewrite Hdata; left; reflexivity))
    as (row & Hnth & _ & Hrecord & _).
  exists scanned, row. repeat split; [exact Hdata | exact Hnth | exact Hrecord].
Defined.

Lemma records_of_rows_hold_number_and_total_witness :
  exists acquired,
    returned (getAllPagesData (Examples.withoutApi 1 1 None) Examples.loading) = Ok acquired
    /\ Forall readFromRow (data acquired).
Proof.
  destruct (getAllPagesData_result (Examples.withoutApi 1 1 None) Examples.loading)
    as (acquired & Hrun & _).
  exists acquired. split; [exact Hrun|].
  exact (proj2 (records_of_rows_hold_number_and_total
                  (Examples.withoutApi 1 1 None) Examples.oneRow Examples.loading)
           eq_refl acquired Hrun).
Defined.

(** ** Malformed items *)

Lemma mapWithIndex_throws {A B : Type} (f : A -> Z -> result B) (xs : list A) (x : A) :
  In x xs ->
  (forall index, exists message, f x index = Throw message) ->
  forall index, exists message, mapWithIndex f index xs = Throw message.
Proof.
  intros Hin Hthrows. induction xs as [|y xs IH]; [destruct Hin|]. intros index.
  cbn [mapWithIndex]. destruct Hin as [->|Hin].
  - destruct (Hthrows index) as (message & ->). eexists. reflexivity.
  - destruct (f y index) as [b|message]; cbn [bind]; [|eexists; reflexivity].
    destruct (IH Hin (index + 1)) as (message & ->). eexists. reflexivity.
Qed.

Lemma normalizeApiItem_throws (rpp page : Z) (item : jsval) :
  item = VNull
  \/ (exists uuid,
        get item "uuid" = Ok uuid /\ truthy uuid = true /\ forall text, uuid <> VStr text) ->
  forall index, exists message, normalizeApiItem rpp page item index = Throw message.
Proof.
  intros [->|(uuid & Hget & Htruthy & Hnotext)] index.
  - eexists. reflexivity.
  - unfold normalizeApiItem. rewrite Hget. cbn [bind].
    destruct (get_ok_inv item "uuid" uuid Hget "id") as (id & ->).
    destruct (get_ok_inv item "uuid" uuid Hget "internalId") as (internalId & ->).
    destruct (get_ok_inv item "uuid" uuid Hget "status") as (status & ->).
    destruct (get_ok_inv item "uuid" uuid Hget "totalAmount") as (total & ->).
    destruct (get_ok_inv item "uuid" uuid Hget "totalSalesAmount") as (sales & ->).
    destruct (get_ok_inv item "uuid" uuid Hget "totalTaxableFees") as (fees & ->).
    cbn [bind].
    destruct (parseStatus status); cbn [bind]; [|eexists; reflexivity].
    destruct (formatAmount total); cbn [bind]; [|eexists; reflexivity].
    destruct (formatAmount sales); cbn [bind]; [|eexists; reflexivity].
    destruct (formatAmount fees); cbn [bind]; [|eexists; reflexivity].
    unfold generateExternalLink. rewrite Hget. cbn [bind].
    rewrite Htruthy. cbn [negb].
    destruct uuid as [| | | |text| |]; try (eexists; reflexivity).
    now destruct (Hnotext text).
Qed.

(** X16: one malformed item voids its whole page: when the array of a
    response holds [null], or an item whose uuid is truthy and is no text (a
    number, [true], an array, an object), the page gives no record at all,
    the well-formed items of the same response included. *)
Theorem malformed_item_voids_page (this : ContentScript) (env : Environment) (page : Z)
  (url : jsstring) (status : Z) (body : jsval) (items : list jsval) (item : jsval) :
  buildAPIUrl this page = Ok url ->
  fetch env url = FetchResponse status (Ok body) ->
  invoicesOf body = Ok (VArr items) ->
  In item items ->
  item = VNull
  \/ (exists uuid,
        get item "uuid" = Ok uuid /\ truthy uuid = true /\ forall text, uuid <> VStr text) ->
  fetchPageDataViaAPI this env page = Ok [].
Proof.
  intros Hurl Hfetch Hitems Hin Hbad.
  unfold fetchPageDataViaAPI, fetchPageBody. rewrite Hurl. cbn [bind]. rewrite Hfetch.
  destruct (negb (responseOk status)); [reflexivity|]. cbn [bind].
  unfold parseAPIResponse. rewrite Hitems. cbn [bind].
  destruct (mapWithIndex_throws (normalizeApiItem (resultsPerPage this) page) items item
              Hin (normalizeApiItem_throws (resultsPerPage this) page item Hbad) 0)
    as (message & ->).
  reflexivity.
Qed.

Lemma malformed_item_voids_page_witness :
  fetchPageDataViaAPI (Examples.withApi 2 1) (Examples.answering 200 itemAndNull) 1 = Ok [].
Proof.
  apply (malformed_item_voids_page (Examples.withApi 2 1) (Examples.answering 200 itemAndNull)
           1 Examples.urlOfPage1 200 itemAndNull [Examples.itemWithUuid; VNull] VNull).
  - reflexivity.
  - reflexivity.
  - reflexivity.
  - right. now left.
  - now left.
Defined.

(** ** The registered callback *)

Lemma onMessage_keeps_callback (this : ContentScript) (env : Environment)
  (sendMessage : Progress -> SendOutcome) (request : Request) :
  progressCallback this <> None ->
  progressCallback (snd (onMessage this env sendMessage request)) <> None.
Proof.
  intros H. unfold onMessage.
  destruct (isAction request "ping"); [exact H|].
  destruct (isAction request "getInvoiceData"); [exact H|].
  destruct (isAction request "getAllPagesData"); [|exact H].
  cbv zeta. cbn [snd]. unfold getAllPagesData, getAllPagesDataFast.
  destruct (wantsProgress request);
    destruct (if apiKnown _ then _ else _); cbn [after setProcessing progressCallback
                                                   setProgressCallback];
    [discriminate | exact H].
Qed.

Lemma perform_keeps_callback (this : ContentScript) (call : Call) (next : ContentScript) :
  perform this call = Some next ->
  progressCallback this <> None -> progressCallback next <> None.
Proof.
  intros Hnext H.
  destruct call as [page url|doc|env sendMessage request]; cbn [perform] in Hnext.
  - injection Hnext as <-.
    unfold analyzeRequest. destruct url as [| | | |text| |]; try exact H.
    destruct (includes (lit "/api/") text && includes (lit "documents") text); [|exact H].
    unfold extractAuthHeaders. destruct (tokenOf page) as [| | | |[|c token]| |]; exact H.
  - destruct (scanForInvoices_keeps this doc next Hnext) as (-> & _). exact H.
  - injection Hnext as <-. now apply onMessage_keeps_callback.
Qed.

Lemma calls_keep_callback (calls : list Call) (this final : ContentScript) :
  performAll calls this = Some final ->
  progressCallback this <> None ->
  progressCallback final <> None.
Proof.
  revert this. induction calls as [|call calls IH]; intros this Hfinal H.
  - cbn in Hfinal. now injection Hfinal as <-.
  - cbn [performAll] in Hfinal.
    destruct (perform this call) as [next|] eqn:Hnext; [|discriminate].
    apply (IH next Hfinal). exact (perform_keeps_callback this call next Hnext H).
Qed.

Lemma dom_run_reports (this : ContentScript) (env : Environment) :
  apiKnown this = false ->
  progressCallback this <> None ->
  1 <= totalPages this ->
  reports (trace (getAllPagesData this env)) <> [].
Proof.
  intros K Hcallback Hpages.
  unfold getAllPagesData, getAllPagesDataFast. rewrite apiKnown_setProcessing, K.
  unfold getAllPagesViaOptimizedDOM, loadPagesInParallel.
  set (this1 := setProcessing this true []).
  set (urls := generateAllPageUrls this1).
  assert (exists n, length urls = S n) as (n & Hlength).
  { subst urls. rewrite generateAllPageUrls_eq. unfold allPages. rewrite range_length.
    cbn [totalPages this1 setProcessing]. exists (Nat.pred (Z.to_nat (totalPages this))). lia. }
  destruct (progressCallback this) as [callback|] eqn:Ecallback; [|congruence].
  assert (forall st r st',
            reports (events st) <> [] ->
            loadPagesLoop n this1 env urls domBatchSize st = (r, st') ->
            reports (events st') <> []) as Hrest.
  { intros st r st' Hst Hrun.
    assert (forall i st0,
              (i < length urls)%nat -> reports (events st0) <> [] ->
              reports (events (afterBatch this1 env urls i st0)) <> []) as Hstep.
    { intros i st0 _ H0. rewrite afterBatch_reports.
      intros E. apply app_eq_nil in E. now destruct E. }
    destruct (loadPagesLoop_invariant (fun _ st0 => reports (events st0) <> [])
                this1 env urls Hstep n domBatchSize st r st' Hrun) as (j & Hj & _).
    - unfold domBatchSize. lia.
    - exact Hst.
    - exact Hj. }
  assert (reports (events (afterBatch this1 env urls 0 {| results := []; events := [] |}))
          <> []) as Hfirst.
  { rewrite afterBatch_reports. cbn [progressCallback this1 setProcessing].
    rewrite Ecallback. discriminate. }
  unfold loadPagesRun. rewrite Hlength, loadPagesLoop_step, Hlength.
  cbn [Nat.ltb Nat.leb progressCallback this1 setProcessing]. rewrite Ecallback.
  fold this1.
  destruct (callback (progressAt urls 0)) as [u|message].
  - destruct (loadPagesLoop n this1 env urls (0 + domBatchSize)
                (afterBatch this1 env urls 0 {| results := []; events := [] |}))
      as [r st'] eqn:Hrun.
    specialize (Hrest _ _ _ Hfirst Hrun). now destruct r.
  - exact Hfirst.
Qed.

(** X17: a progress callback outlives the request that registered it: after
    a request for all pages with progress updates, whatever requests are
    analyzed, pages scanned and messages handled next, a callback is still
    registered, and every later run through the frames with at least one page
    calls it after a batch, whether or not its request asked for progress. *)
Theorem progress_callback_outlives_request (script : ContentScript) (env : Environment)
  (sendMessage : Progress -> SendOutcome) (request : Request) (calls : list Call)
  (final : ContentScript) :
  action request = VStr (lit "getAllPagesData") ->
  wantsProgress request = true ->
  performAll calls (snd (onMessage script env sendMessage request)) = Some final ->
  progressCallback final <> None
  /\ forall later,
       apiKnown final = false ->
       1 <= totalPages final ->
       reports (trace (getAllPagesData final later)) <> [].
Proof.
  intros Haction Hwants Hfinal.
  assert (progressCallback (snd (onMessage script env sendMessage request)) <> None)
    as Hfirst.
  { unfold onMessage, isAction. rewrite Haction, Hwants.
    replace (JsString.eqb (lit "getAllPagesData") (lit "ping")) with false by reflexivity.
    replace (JsString.eqb (lit "getAllPagesData") (lit "getInvoiceData")) with false
      by reflexivity.
    replace (JsString.eqb (lit "getAllPagesData") (lit "getAllPagesData")) with true
      by reflexivity.
    cbv zeta. cbn [snd]. unfold getAllPagesData, getAllPagesDataFast.
    now destruct (if apiKnown _ then _ else _). }
  pose proof (calls_keep_callback calls _ final Hfinal Hfirst) as Hlater.
  split; [exact Hlater|]. intros later K Hpages. now apply dom_run_reports.
Qed.

Lemma progress_callback_outlives_request_witness :
  exists final,
    performAll
      [Scan Examples.showing120;
       Message Examples.loading disconnected allPagesWithoutProgress]
      (snd (onMessage (Examples.withoutApi 550 11 None) Examples.loading
              disconnected allPagesWithProgress)) = Some final
    /\ reports (trace (getAllPagesData final Examples.loading)) <> [].
Proof.
  destruct (performAll
              [Scan Examples.showing120;
               Message Examples.loading disconnected allPagesWithoutProgress]
              (snd (onMessage (Examples.withoutApi 550 11 None) Examples.loading
                      disconnected allPagesWithProgress))) as [final|] eqn:E;
    [|discriminate E].
  exists final. split; [reflexivity|].
  apply (proj2 (progress_callback_outlives_request
                  (Examples.withoutApi 550 11 None) Examples.loading disconnected
                  allPagesWithProgress
                  [Scan Examples.showing120;
                   Message Examples.loading disconnected allPagesWithoutProgress]
                  final eq_refl eq_refl E)).
  - vm_compute in E. injection E as <-. reflexivity.
  - vm_compute in E. injection E as <-. vm_compute. discriminate.
Defined.

(** ** The requests of the API path *)

(** X18: when the API is known, a run requests each of the pages 1 ..
    totalPages once, in order, before it awaits any of them, it awaits them
    all at once, and it never calls the progress callback, registered or
    not. *)
Theorem api_run_requests_every_page_once (this : ContentScript) (env : Environment) :
  apiKnown this = true ->
  trace (getAllPagesData this env)
  = map Started (allPages this) ++ [Awaited (allPages this)]
  /\ NoDup (allPages this)
  /\ (forall page, In page (allPages this) <-> 1 <= page <= totalPages this)
  /\ reports (trace (getAllPagesData this env)) = [].
Proof.
  intros K.
  assert (trace (getAllPagesData this env)
          = map Started (allPages this) ++ [Awaited (allPages this)]) as E.
  { unfold getAllPagesData, getAllPagesDataFast.
    rewrite apiKnown_setProcessing, K. unfold getAllPagesViaAPI.
    rewrite apiPageBatches_concat.
    now destruct (promiseAll _). }
  split; [exact E|]. split; [|split].
  - apply StronglySorted_lt_NoDup. apply StronglySorted_range.
  - intros page. unfold allPages. rewrite In_range. lia.
  - rewrite E, reports_app, reports_Started. reflexivity.
Qed.

Lemma api_run_requests_every_page_once_witness :
  reports (trace (getAllPagesData (Examples.withApi 550 11) Examples.loading)) = [].
Proof.
  exact (proj2 (proj2 (proj2 (api_run_requests_every_page_once
                                (Examples.withApi 550 11) Examples.loading eq_refl)))).
Defined.

(** ** The page the grid shows *)

Lemma trim_around_digits (spaces ds spaces' : jsstring) :
  Forall (fun c => isWhiteSpace c = true) spaces ->
  Forall (fun c => isWhiteSpace c = true) spaces' ->
  Forall (fun c => isDigit c = true) ds ->
  ds <> [] ->
  trim (spaces ++ ds ++ spaces') = ds.
Proof.
  intros Hs Hs' Hd Hne. unfold trim, trimStart.
  rewrite dropWhile_app_all by exact Hs.
  assert (dropWhile isWhiteSpace (ds ++ spaces') = ds ++ spaces') as ->.
  { destruct ds as [|c rest]; [congruence|].
    cbn [app dropWhile]. rewrite digit_not_whiteSpace; [reflexivity | now inversion Hd]. }
  rewrite rev_app_distr, dropWhile_app_all by (apply Forall_rev; exact Hs').
  fold (trimStart (rev ds)).
  rewrite (digits_head_fixed (rev ds)) by (apply Forall_rev; exact Hd).
  apply rev_involutive.
Qed.

Lemma parseInt_decimal (n : N) :
  Pagination.parseInt (decimal n) = Number.ofDecimal false n 0.
Proof.
  rewrite parseInt_digits by (apply decimal_nonempty || apply decimal_digits).
  now rewrite digitsValue_decimal.
Qed.

Lemma ofDecimal_integer_not_NaN (s : bool) (n : N) :
  Number.isNaN (Number.ofDecimal s n 0) = false.
Proof.
  destruct (ofDecimal_integer_or_infinite s n) as [(z & H & _)| ->]; [|reflexivity].
  now destruct (Number.ofDecimal s n 0).
Qed.

Lemma readSign_other (c : N) (rest : jsstring) :
  c <> 43%N -> c <> 45%N -> Number.readSign (c :: rest) = (false, c :: rest).
Proof.
  intros H1 H2. unfold Number.readSign.
  destruct c as [|p]; [reflexivity|].
  repeat (match goal with
          | |- context [match ?q with xI _ => _ | xO _ => _ | xH => _ end] =>
              destruct q; try reflexivity
          end).
  all: congruence.
Qed.

Lemma parseInt_no_number (s : jsstring) :
  trimStart s = s ->
  (forall c rest, s = c :: rest -> isDigit c = false /\ c <> 43%N /\ c <> 45%N) ->
  Pagination.parseInt s = S754_nan.
Proof.
  intros Htrim Hhead. unfold Pagination.parseInt. rewrite Htrim.
  destruct s as [|c rest]; [reflexivity|].
  destruct (Hhead c rest eq_refl) as (Hdigit & Hplus & Hminus).
  rewrite (readSign_other c rest Hplus Hminus).
  assert (startsWithIgnoreCase (lit "0x") (c :: rest) = false) as ->.
  { unfold startsWithIgnoreCase. change (length (lit "0x")) with 2%nat.
    assert (N.eqb 48 (foldCase c) = false) as Hzero.
    { apply N.eqb_neq. unfold foldCase.
      destruct ((65 <=? c) && (c <=? 90))%N eqn:E.
      - apply andb_prop in E. destruct E as [E _]. apply N.leb_le in E. lia.
      - intros <-. discriminate. }
    destruct rest as [|d rest']; cbn [firstn map startsWith lit list_ascii_of_string];
      change (foldCase (N_of_ascii "0"%char)) with 48%N; now rewrite Hzero. }
  cbn [takeWhile]. now rewrite Hdigit.
Qed.

Lemma trimStart_trim (s : jsstring) : trimStart (trim s) = trim s.
Proof.
  unfold trim.
  destruct (trimEnd_prefix (trimStart s)) as (kept & dropped & E & H1 & H2).
  rewrite H1, rev_involutive.
  apply dropWhile_fixed. intros c rest ->.
  apply (dropWhile_head isWhiteSpace s c (rest ++ dropped)). exact E.
Qed.

(** X19: the scan stores as the current page the number the active button of
    the pager shows: when its text is the decimal digits of a number with
    white space or none around them, the binary64 number nearest to that
    number, which is the number itself up to 2^53; and 1 when the text, once
    trimmed, starts with no digit and no sign. *)
Theorem shown_page_is_stored (this : ContentScript) (doc : Document) (text : jsstring)
  (scanned : ContentScript) :
  activeButtonText doc = Some text ->
  scanForInvoices this doc = Some scanned ->
  (forall n spaces spaces',
     Forall (fun c => isWhiteSpace c = true) spaces ->
     Forall (fun c => isWhiteSpace c = true) spaces' ->
     text = spaces ++ decimal n ++ spaces' ->
     currentPage scanned = Number.ofDecimal false n 0
     /\ ((n <= 2 ^ 53)%N -> Number.toInteger (currentPage scanned) = Some (Z.of_N n)))
  /\ ((forall c rest, trim text = c :: rest -> isDigit c = false /\ c <> 43%N /\ c <> 45%N) ->
      currentPage scanned = Number.ofZ 1).
Proof.
  intros Hbutton Hscan.
  destruct (scanForInvoices_some this doc scanned Hscan)
    as (inspected & Hinspected & _ & _ & _ & _ & -> & _).
  destruct (extractPaginationInfo_some this doc inspected Hinspected)
    as (_ & _ & _ & -> & _).
  unfold Pagination.extractCurrentPage. rewrite Hbutton. split.
  - intros n spaces spaces' Hs Hs' ->.
    rewrite trim_around_digits
      by (assumption || apply decimal_digits || apply decimal_nonempty).
    rewrite parseInt_decimal, ofDecimal_integer_not_NaN. cbn [negb].
    split; [reflexivity|]. intros Hn.
    rewrite (ofDecimal_integer false n Hn). f_equal. lia.
  - intros Hhead. now rewrite (parseInt_no_number (trim text) (trimStart_trim text) Hhead).
Qed.

Lemma shown_page_is_stored_witness :
  exists scanned,
    scanForInvoices constructed
      {| detailsRows := []; listCells := []; indexedRows := []; gridRows := [];
         elementTexts := []; activeButtonText := Some (lit " 12 ") |} = Some scanned
    /\ Number.toInteger (currentPage scanned) = Some 12.
Proof.
  destruct (scanForInvoices constructed
              {| detailsRows := []; listCells := []; indexedRows := []; gridRows := [];
                 elementTexts := []; activeButtonText := Some (lit " 12 ") |})
    as [scanned|] eqn:E; [|discriminate E].
  exists scanned. split; [reflexivity|].
  exact (proj2 (proj1 (shown_page_is_stored constructed
                         {| detailsRows := []; listCells := []; indexedRows := [];
                            gridRows := []; elementTexts := [];
                            activeButtonText := Some (lit " 12 ") |}
                         (lit " 12 ") scanned eq_refl E)
                  12%N (lit " ") (lit " ")
                  ltac:(repeat constructor) ltac:(repeat constructor) eq_refl)
           ltac:(vm_compute; discriminate)).
Defined.

(** ** Translating a status *)

Lemma labelOf_In (labels : list (jsstring * jsstring)) (key label : jsstring) :
  labelOf labels key = Some label -> In label (map snd labels).
Proof.
  induction labels as [|[name l] rest IH]; [discriminate|]. cbn [labelOf map snd In].
  destruct (JsString.eqb name key); [intros [= ->]; now left | intros H; right; auto].
Qed.


(** X20: [parseStatus] never returns a falsy value other than the empty
    text; and for a status that is a text and names no member of
    [Object.prototype] it returns a text: the Arabic label of the five known
    statuses, the status itself otherwise, and translating the result again
    changes nothing. *)
Theorem parseStatus_translates_once :
  (forall status value,
     parseStatus status = Ok (StatusValue value) -> truthy value = true \/ value = VStr [])
  /\ (forall text,
        existsb (JsString.eqb text) objectPrototypeNames = false ->
        exists translated,
          parseStatus (VStr text) = Ok (StatusValue (VStr translated))
          /\ parseStatus (VStr translated) = Ok (StatusValue (VStr translated))
          /\ (labelOf statusMap text = None -> translated = text)
          /\ (forall label, labelOf statusMap text = Some label -> translated = label)).
Proof.
  split.
  - intros status value. unfold parseStatus.
    destruct (toStringThrows status); [discriminate|].
    assert (truthy (orElse status (VStr [])) = true \/ orElse status (VStr []) = VStr [])
      as Hdefault.
    { unfold orElse. destruct (truthy status) eqn:E; [now left | now right]. }
    destruct (statusKey status) as [key|]; [|intros [= <-]; exact Hdefault].
    unfold labelOf, statusMap.
    repeat (match goal with
            | |- context [if JsString.eqb ?a key then _ else _] =>
                destruct (JsString.eqb a key); [intros [= <-]; now left|]
            end).
    destruct (existsb _ _); [discriminate | intros [= <-]; exact Hdefault].
  - intros text Hmember.
    assert (forall s, orElse (VStr s) (VStr []) = VStr s) as Hor.
    { intros [|c s]; reflexivity. }
    assert (labelOf statusMap text = None ->
            parseStatus (VStr text) = Ok (StatusValue (VStr text))) as Hnone.
    { intros E. unfold parseStatus. cbn [toStringThrows statusKey].
      rewrite E, Hmember. now rewrite Hor. }
    destruct (labelOf statusMap text) as [label|] eqn:E.
    + exists label. pose proof (labelOf_In statusMap text label E) as Hin.
      cbn [map snd statusMap In] in Hin.
      repeat (destruct Hin as [<-|Hin];
              [split; [unfold parseStatus; cbn [toStringThrows statusKey];
                       rewrite E; reflexivity|];
               split; [reflexivity|];
               split; [discriminate | now intros label [= <-]]|]).
      destruct Hin.
    + exists text. repeat split; auto. intros label [=].
Qed.

Lemma parseStatus_translates_once_witness :
  exists translated,
    parseStatus (VStr (lit "Valid")) = Ok (StatusValue (VStr translated))
    /\ parseStatus (VStr translated) = Ok (StatusValue (VStr translated)).
Proof.
  destruct (proj2 parseStatus_translates_once (lit "Valid") eq_refl)
    as (translated & H1 & H2 & _).
  exists translated. split; assumption.
Defined.
